(** * A shallow embedding of [poker_backend.py]

    The engine of the Texas Hold'em table: cards, the five-card hand
    ranker and its comparator, the best-of-seven search, the players, and
    the table with its betting actions, bet collection, turn order, blinds,
    betting round, showdown and state payload.

    Python integers are [Z].  Python lists are Rocq lists; a list cell that
    the source indexes is read with [py_get], which follows Python's
    indexing (negative indices count from the end, an index out of range
    raises [IndexError]).  Code that can raise lives in the [result] monad.
    Objects mutated in place (players held in [Game.players]) are modelled
    by the table's player list, updated at the seat of the object. *)

From Stdlib Require Import ZArith Lia Bool.
From stdpp Require Import base list strings.

Open Scope Z_scope.

(** ** Exceptions *)

Inductive exn :=
  IndexError | ZeroDivisionError | AttributeError | ValueError | TypeError.

Inductive result (A : Type) :=
| Ok (a : A)
| Raise (e : exn).
Arguments Ok {A} a.
Arguments Raise {A} e.

#[global] Instance result_ret : MRet result := fun A a => Ok a.
#[global] Instance result_bind : MBind result := fun A B f m =>
  match m with
  | Ok a => f a
  | Raise e => Raise e
  end.

Definition is_ok {A} (r : result A) : bool :=
  match r with Ok _ => true | Raise _ => false end.

(** [l[i]] for a Python list. *)
Definition py_index {A} (l : list A) (i : Z) : option nat :=
  let n := Z.of_nat (length l) in
  if (0 <=? i) && (i <? n) then Some (Z.to_nat i)
  else if (- n <=? i) && (i <? 0) then Some (Z.to_nat (n + i))
  else None.

Definition py_get {A} (l : list A) (i : Z) : result A :=
  match py_index l i with
  | Some k => match l !! k with Some a => Ok a | None => Raise IndexError end
  | None => Raise IndexError
  end.

(** A left-to-right loop whose body can raise. *)
Fixpoint for_each {A S} (body : S -> A -> result S) (s : S) (l : list A)
  : result S :=
  match l with
  | [] => Ok s
  | a :: l' => s' ← body s a; for_each body s' l'
  end.

(** ** Python's stable sort

    [sorted(l, key=k)] and [l.sort(key=k)] are stable, and so they are with
    [reverse=True]: elements with equal keys keep their original order.
    [before x y] says that the key of [x] puts it strictly before [y]. *)

Fixpoint insert_sorted {A} (before : A -> A -> bool) (x : A) (l : list A)
  : list A :=
  match l with
  | [] => [x]
  | y :: l' => if before x y then x :: y :: l'
               else y :: insert_sorted before x l'
  end.

Definition sorted {A} (before : A -> A -> bool) (l : list A) : list A :=
  fold_left (fun acc x => insert_sorted before x acc) l [].

(** Keys that are pairs [(flag, value)] compare lexicographically, with
    [False < True]. *)
Definition key := (bool * Z)%type.

Definition key_lt (a b : key) : bool :=
  (negb a.1 && b.1) || (Bool.eqb a.1 b.1 && (a.2 <? b.2)).

(** ** Cards *)

Inductive Suit := Spades | Hearts | Diamonds | Clubs.
Inductive Rank := R2 | R3 | R4 | R5 | R6 | R7 | R8 | R9 | RT | RJ | RQ | RK | RA.

#[global] Instance Suit_eq_dec : EqDecision Suit.
Proof. solve_decision. Defined.
#[global] Instance Rank_eq_dec : EqDecision Rank.
Proof. solve_decision. Defined.

Definition SUITS : list Suit := [Spades; Hearts; Diamonds; Clubs].
Definition RANKS : list Rank :=
  [R2; R3; R4; R5; R6; R7; R8; R9; RT; RJ; RQ; RK; RA].

(** [RANK_VALUES = {rank: i for i, rank in enumerate(RANKS, 2)}] *)
Definition RANK_VALUES (r : Rank) : Z :=
  match r with
  | R2 => 2 | R3 => 3 | R4 => 4 | R5 => 5 | R6 => 6 | R7 => 7 | R8 => 8
  | R9 => 9 | RT => 10 | RJ => 11 | RQ => 12 | RK => 13 | RA => 14
  end.

Definition HAND_NAMES : list (Z * string) :=
  [(10, "Royal Flush"); (9, "Straight Flush"); (8, "Four of a Kind");
   (7, "Full House"); (6, "Flush"); (5, "Straight");
   (4, "Three of a Kind"); (3, "Two Pair"); (2, "One Pair");
   (1, "High Card")]%string.

Fixpoint dict_get {V} (d : list (Z * V)) (k : Z) (default : V) : V :=
  match d with
  | [] => default
  | (k', v) :: d' => if k' =? k then v else dict_get d' k default
  end.

Record Card := mkCard { suit : Suit; rank : Rank }.

#[global] Instance Card_eq_dec : EqDecision Card.
Proof. solve_decision. Defined.

Definition value (c : Card) : Z := RANK_VALUES (rank c).

(** The dictionary of [Card.to_dict]. *)
Inductive Color := red | black.

Record CardDict := mkCardDict { d_suit : Suit; d_rank : Rank; d_color : Color }.

Definition Card_to_dict (c : Card) : CardDict :=
  {| d_suit := suit c; d_rank := rank c;
     d_color := if bool_decide (suit c ∈ [Hearts; Diamonds]) then red else black |}.

(** A place where the program keeps a dealt card.  [Deck.deal] returns
    [None] when the deck is empty, and the callers store what it returns. *)
Definition slot := option Card.

Definition Deck_deal (cards : list Card) : slot * list Card :=
  match reverse cards with
  | [] => (None, cards)
  | c :: rest => (Some c, reverse rest)
  end.

(** ** Hand evaluation *)

(** [Counter(ranks)]: the counts, keyed in order of first occurrence. *)
Fixpoint counter_add (r : Rank) (counts : list (Rank * Z)) : list (Rank * Z) :=
  match counts with
  | [] => [(r, 1)]
  | (r', c) :: rest => if bool_decide (r' = r) then (r', c + 1) :: rest
                       else (r', c) :: counter_add r rest
  end.

Definition Counter (ranks : list Rank) : list (Rank * Z) :=
  fold_left (fun counts r => counter_add r counts) ranks [].

(** [set(a) == set(b)] on lists of ranks. *)
Definition set_eq (a b : list Rank) : bool :=
  forallb (fun r => bool_decide (r ∈ b)) a && forallb (fun r => bool_decide (r ∈ a)) b.

Definition WHEEL : list Rank := [RA; R2; R3; R4; R5].

(** [all(values[i] - 1 == values[i+1] for i in range(4))], which stops at
    the first false test. *)
Fixpoint all_consecutive (idx : list nat) (values : list Z) : result bool :=
  match idx with
  | [] => Ok true
  | i :: idx' =>
      a ← py_get values (Z.of_nat i);
      b ← py_get values (Z.of_nat i + 1);
      if a - 1 =? b then all_consecutive idx' values else Ok false
  end.

(** [sorted(hand, key=lambda c: (flag c, c.value), reverse=True)] *)
Definition sorted_grouped (flag : Card -> bool) (hand : list Card) : list Card :=
  sorted (fun x y => key_lt (flag y, value y) (flag x, value x)) hand.

(** [card.value for card in hand] raises on a [None] among the cards. *)
Fixpoint cards_of (hand : list slot) : result (list Card) :=
  match hand with
  | [] => Ok []
  | None :: _ => Raise AttributeError
  | Some c :: hand' => cs ← cards_of hand'; Ok (c :: cs)
  end.

Definition _calculate_hand_rank (hand0 : list slot) : result (Z * list Card) :=
  hand0 ← cards_of hand0;
  let hand := sorted (fun x y => value y <? value x) hand0 in
  let values := fmap value hand in
  let ranks := fmap rank hand in
  let suits := fmap suit hand in
  let is_flush := bool_decide (length (remove_dups suits) = 1%nat) in
  consecutive ← all_consecutive (seq 0 4) values;
  let is_straight := consecutive || set_eq ranks WHEEL in
  let hand := if is_straight && set_eq ranks WHEEL
              then sorted (fun x y => key_lt (negb (value x =? 14), value x)
                                             (negb (value y =? 14), value y)) hand
              else hand in
  if is_straight && is_flush then
    v0 ← py_get values 0;
    Ok (if v0 =? 14 then 10 else 9, hand)
  else
    let counts := Counter ranks in
    let counts_vals := sorted (fun x y => y <? x) (fmap snd counts) in
    c0 ← py_get counts_vals 0;
    if c0 =? 4 then
      four_rank ← py_get (fmap fst (filter (fun rc => rc.2 = 4) counts)) 0;
      Ok (8, sorted_grouped (fun c => negb (bool_decide (rank c = four_rank))) hand)
    else if bool_decide (counts_vals = [3; 2]) then Ok (7, hand)
    else if is_flush then Ok (6, hand)
    else if is_straight then Ok (5, hand)
    else if c0 =? 3 then
      three_rank ← py_get (fmap fst (filter (fun rc => rc.2 = 3) counts)) 0;
      Ok (4, sorted_grouped (fun c => negb (bool_decide (rank c = three_rank))) hand)
    else if bool_decide (counts_vals = [2; 2; 1]) then
      let pair_ranks := fmap fst (filter (fun rc => rc.2 = 2) counts) in
      Ok (3, sorted_grouped (fun c => negb (bool_decide (rank c ∈ pair_ranks))) hand)
    else if c0 =? 2 then
      pair_rank ← py_get (fmap fst (filter (fun rc => rc.2 = 2) counts)) 0;
      Ok (2, sorted_grouped (fun c => negb (bool_decide (rank c = pair_rank))) hand)
    else Ok (1, hand).

Fixpoint _compare_hands (hand1 hand2 : list Card) : Z :=
  match hand1, hand2 with
  | c1 :: h1, c2 :: h2 =>
      if value c2 <? value c1 then 1
      else if value c1 <? value c2 then -1
      else _compare_hands h1 h2
  | _, _ => 0
  end.

(** [itertools.combinations(l, k)], in its order. *)
Fixpoint combinations {A} (k : nat) (l : list A) : list (list A) :=
  match k, l with
  | O, _ => [[]]
  | S _, [] => []
  | S k', x :: t => fmap (cons x) (combinations k' t) ++ combinations k t
  end.

Definition evaluate_step (best : Z * list Card) (combo : list slot)
  : result (Z * list Card) :=
  '(rank_val, hand_cards) ← _calculate_hand_rank combo;
  if best.1 <? rank_val then Ok (rank_val, hand_cards)
  else if (rank_val =? best.1) && (0 <? _compare_hands hand_cards best.2)
       then Ok (best.1, hand_cards)
       else Ok best.

Definition evaluate_hand (hand : list slot) : result (Z * list Card * string) :=
  '(best_rank, best_hand_cards) ← for_each evaluate_step (-1, []) (combinations 5 hand);
  Ok (best_rank, best_hand_cards, dict_get HAND_NAMES best_rank "Unknown"%string).

(** ** Players *)

Record Player := mkPlayer {
  sid : option string;
  name : string;
  chips : Z;
  is_bot : bool;
  hand : list slot;
  bet : Z;
  in_hand : bool;
  is_all_in : bool;
  status : string;
  hand_result : option (Z * list Card * string)
}.

Definition set_chips (v : Z) (p : Player) : Player :=
  mkPlayer (sid p) (name p) v (is_bot p) (hand p) (bet p) (in_hand p)
           (is_all_in p) (status p) (hand_result p).
Definition set_bet (v : Z) (p : Player) : Player :=
  mkPlayer (sid p) (name p) (chips p) (is_bot p) (hand p) v (in_hand p)
           (is_all_in p) (status p) (hand_result p).
Definition set_in_hand (v : bool) (p : Player) : Player :=
  mkPlayer (sid p) (name p) (chips p) (is_bot p) (hand p) (bet p) v
           (is_all_in p) (status p) (hand_result p).
Definition set_is_all_in (v : bool) (p : Player) : Player :=
  mkPlayer (sid p) (name p) (chips p) (is_bot p) (hand p) (bet p) (in_hand p)
           v (status p) (hand_result p).
Definition set_status (v : string) (p : Player) : Player :=
  mkPlayer (sid p) (name p) (chips p) (is_bot p) (hand p) (bet p) (in_hand p)
           (is_all_in p) v (hand_result p).
Definition set_hand_result (v : Z * list Card * string) (p : Player) : Player :=
  mkPlayer (sid p) (name p) (chips p) (is_bot p) (hand p) (bet p) (in_hand p)
           (is_all_in p) (status p) (Some v).

Definition set_hand (v : list slot) (p : Player) : Player :=
  mkPlayer (sid p) (name p) (chips p) (is_bot p) v (bet p) (in_hand p)
           (is_all_in p) (status p) (hand_result p).

(** [Player.__init__], which ends in [reset_for_hand]. *)
Definition reset_for_hand (p : Player) : Player :=
  mkPlayer (sid p) (name p) (chips p) (is_bot p) [] 0 true false EmptyString
           (hand_result p).

Definition new_Player (s : option string) (nm : string) (ch : Z) (bot : bool)
  : Player :=
  reset_for_hand (mkPlayer s nm ch bot [] 0 true false EmptyString None).

(** The dictionary of [Player.to_dict]; [None] in ["hand"] is the empty
    dictionary [{}]. *)
Record PlayerDict := mkPlayerDict {
  d_name : string;
  d_chips : Z;
  d_isBot : bool;
  d_hand : list (option CardDict);
  d_bet : Z;
  d_inHand : bool;
  d_status : string
}.

Fixpoint hand_to_dicts (h : list slot) : result (list (option CardDict)) :=
  match h with
  | [] => Ok []
  | None :: _ => Raise AttributeError
  | Some c :: h' => ds ← hand_to_dicts h'; Ok (Some (Card_to_dict c) :: ds)
  end.

Definition Player_to_dict (p : Player) (show_cards : bool) : result PlayerDict :=
  h ← (if show_cards || negb (is_bot p) then hand_to_dicts (hand p)
       else Ok [None; None]);
  Ok {| d_name := name p; d_chips := chips p; d_isBot := is_bot p;
        d_hand := h; d_bet := bet p; d_inHand := in_hand p;
        d_status := status p |}.

(** ** The table *)

Record Game := mkGame {
  players : list Player;
  deck : list Card;
  community_cards : list slot;
  pot : Z;
  dealer_pos : Z;
  current_player_index : Z;
  current_bet : Z;
  last_raise : Z;
  stage : string;
  small_blind : Z;
  big_blind : Z;
  is_running : bool
}.

Definition set_players (v : list Player) (g : Game) : Game :=
  mkGame v (deck g) (community_cards g) (pot g) (dealer_pos g)
         (current_player_index g) (current_bet g) (last_raise g) (stage g)
         (small_blind g) (big_blind g) (is_running g).
Definition set_deck (v : list Card) (g : Game) : Game :=
  mkGame (players g) v (community_cards g) (pot g) (dealer_pos g)
         (current_player_index g) (current_bet g) (last_raise g) (stage g)
         (small_blind g) (big_blind g) (is_running g).
Definition set_community_cards (v : list slot) (g : Game) : Game :=
  mkGame (players g) (deck g) v (pot g) (dealer_pos g)
         (current_player_index g) (current_bet g) (last_raise g) (stage g)
         (small_blind g) (big_blind g) (is_running g).
Definition set_pot (v : Z) (g : Game) : Game :=
  mkGame (players g) (deck g) (community_cards g) v (dealer_pos g)
         (current_player_index g) (current_bet g) (last_raise g) (stage g)
         (small_blind g) (big_blind g) (is_running g).
Definition set_current_player_index (v : Z) (g : Game) : Game :=
  mkGame (players g) (deck g) (community_cards g) (pot g) (dealer_pos g)
         v (current_bet g) (last_raise g) (stage g)
         (small_blind g) (big_blind g) (is_running g).
Definition set_current_bet (v : Z) (g : Game) : Game :=
  mkGame (players g) (deck g) (community_cards g) (pot g) (dealer_pos g)
         (current_player_index g) v (last_raise g) (stage g)
         (small_blind g) (big_blind g) (is_running g).
Definition set_last_raise (v : Z) (g : Game) : Game :=
  mkGame (players g) (deck g) (community_cards g) (pot g) (dealer_pos g)
         (current_player_index g) (current_bet g) v (stage g)
         (small_blind g) (big_blind g) (is_running g).
Definition set_stage (v : string) (g : Game) : Game :=
  mkGame (players g) (deck g) (community_cards g) (pot g) (dealer_pos g)
         (current_player_index g) (current_bet g) (last_raise g) v
         (small_blind g) (big_blind g) (is_running g).

(** The player object at a seat is mutated in place. *)
Definition update_player (k : nat) (f : Player -> Player) (g : Game) : Game :=
  set_players (alter f k (players g)) g.

(** The dictionary of [Game.get_state]. *)
Record StateDict := mkStateDict {
  s_players : list PlayerDict;
  s_communityCards : list (option CardDict);
  s_pot : Z;
  s_dealerPos : Z;
  s_currentPlayerIndex : Z;
  s_stage : string
}.

Fixpoint players_to_dicts (ps : list Player) (show_all_cards : bool)
  : result (list PlayerDict) :=
  match ps with
  | [] => Ok []
  | p :: ps' =>
      d ← Player_to_dict p (show_all_cards || negb (in_hand p));
      ds ← players_to_dicts ps' show_all_cards;
      Ok (d :: ds)
  end.

Definition get_state (g : Game) (show_all_cards : bool) : result StateDict :=
  ps ← players_to_dicts (players g) show_all_cards;
  cc ← hand_to_dicts (community_cards g);
  Ok {| s_players := ps; s_communityCards := cc; s_pot := pot g;
        s_dealerPos := dealer_pos g;
        s_currentPlayerIndex := current_player_index g;
        s_stage := stage g |}.

(** *** Turn order *)

Definition py_mod (a b : Z) : result Z :=
  if b =? 0 then Raise ZeroDivisionError else Ok (a mod b).

Definition py_floordiv (a b : Z) : result Z :=
  if b =? 0 then Raise ZeroDivisionError else Ok (a / b).

Definition can_act (p : Player) : bool := in_hand p && negb (is_all_in p).

(** The loop of [get_next_active_player]: [iters] passes are left, [i] is
    the loop variable.  Beside the seat it returns from ([Some], or [None]
    when the loop runs out) it lists the seats it tested, in order. *)
Fixpoint scan_seats (ps : list Player) (iters : nat) (i : Z)
  : result (list Z * option Z) :=
  match iters with
  | O => Ok ([], None)
  | S iters' =>
      i' ← py_mod (i + 1) (Z.of_nat (length ps));
      p ← py_get ps i';
      if can_act p then Ok ([i'], Some i')
      else '(tested, found) ← scan_seats ps iters' i'; Ok (i' :: tested, found)
  end.

Definition get_next_active_player (g : Game) (start_index : Z) : result Z :=
  '(_, found) ← scan_seats (players g) (S (length (players g))) start_index;
  Ok (default start_index found).

(** The seats that [get_next_active_player] tests. *)
Definition seats_tested (g : Game) (start_index : Z) : result (list Z) :=
  '(tested, _) ← scan_seats (players g) (S (length (players g))) start_index;
  Ok tested.

(** *** Actions *)

(** A value under ['amount'] in an action dictionary, by what [int] makes
    of it: a number (an int, or a float or a numeral string, which [int]
    converts), [None] (or another value that is neither a number nor a
    string), on which [int] raises [TypeError], or a string that is no
    numeral, such as [''] or ['abc'], on which it raises [ValueError]. *)
Inductive Amount :=
| Number (z : Z)
| NoneValue
| NoNumeral.

Definition py_int (a : Amount) : result Z :=
  match a with
  | Number z => Ok z
  | NoneValue => Raise TypeError
  | NoNumeral => Raise ValueError
  end.

(** The dictionary an action arrives in: [data.get('action')] and the
    entry ['amount'], absent or present. *)
Record ActionData := mkActionData {
  a_action : option string;
  a_amount : option Amount
}.

(** [int(data.get('amount', 0))] *)
Definition amount_of (data : ActionData) : result Z :=
  match a_amount data with
  | None => Ok 0
  | Some a => py_int a
  end.

(** [emit_game_state]: the payload of [get_state] is built, which can
    raise, and sent to the clients. *)
Definition emit_game_state (g : Game) (show_all_cards : bool) : result unit :=
  _ ← get_state g show_all_cards; Ok tt.

Definition pay (amount : Z) (p : Player) : Player :=
  set_bet (bet p + amount) (set_chips (chips p - amount) p).

Definition fold_hand (p : Player) : Player :=
  set_status "FOLD" (set_in_hand false p).

Definition go_all_in (p : Player) : Player :=
  set_status "ALL-IN" (set_is_all_in true p).

Definition handle_player_action (g : Game) (p_idx : Z) (data : ActionData)
  : result (Game * bool) :=
  match py_index (players g) p_idx with
  | None => Raise IndexError
  | Some k =>
      player ← py_get (players g) p_idx;
      let action := a_action data in
      amount ← amount_of data;
      let to_call := current_bet g - bet player in
      let '(g1, is_raise) :=
        if bool_decide (action = Some "fold"%string) then
          (update_player k fold_hand g, false)
        else if bool_decide (action = Some "check"%string) then (g, false)
        else if bool_decide (action = Some "call"%string) then
          let call_amount := Z.min to_call (chips player) in
          (update_player k (pay call_amount) g, false)
        else if bool_decide (action ∈ [Some "bet"; Some "raise"]%string) then
          let total_bet := Z.min amount (chips player + bet player) in
          let additional := total_bet - bet player in
          let g' := update_player k (pay additional) g in
          let new_bet := bet player + additional in
          if current_bet g <? new_bet then
            (set_current_bet new_bet (set_last_raise (new_bet - current_bet g) g'), true)
          else (g', false)
        else (g, false) in
      player ← py_get (players g1) p_idx;
      let g2 := if chips player =? 0
                then update_player k go_all_in g1
                else g1 in
      _ ← emit_game_state g2 false;
      Ok (g2, is_raise)
  end.

(** *** Collecting the bets *)

(** One pass of [for p in self.players: self.pot += p.bet; p.bet = 0], at
    seat [k]. *)
Definition collect_bet_at (g : Game) (k : nat) : Game :=
  match players g !! k with
  | Some p => update_player k (set_bet 0) (set_pot (pot g + bet p) g)
  | None => g
  end.

Definition collect_bets (g : Game) : Game :=
  fold_left collect_bet_at (seq 0 (length (players g))) g.

Definition sum_bets (ps : list Player) : Z :=
  fold_right (fun p acc => bet p + acc) 0 ps.

Definition sum_chips (ps : list Player) : Z :=
  fold_right (fun p acc => chips p + acc) 0 ps.

(** *** Awarding the pot *)

(** The seats of [[p for p in self.players if f(p)]]. *)
Fixpoint seats_from (f : Player -> bool) (k : nat) (ps : list Player) : list nat :=
  match ps with
  | [] => []
  | p :: ps' => if f p then k :: seats_from f (S k) ps' else seats_from f (S k) ps'
  end.

Definition seats_where (f : Player -> bool) (ps : list Player) : list nat :=
  seats_from f 0 ps.

Definition win (amount : Z) (p : Player) : Player :=
  set_chips (chips p + amount) p.

(** The table that [award_pot_to_winner] leaves. *)
Definition award_pot (g : Game) : Game :=
  match seats_where in_hand (players g) with
  | [winner] => set_pot 0 (update_player winner (win (pot g)) g)
  | _ => g
  end.

Definition award_pot_to_winner (g : Game) : result Game :=
  let g := award_pot g in
  _ ← emit_game_state g false;
  Ok g.

(** One pass of the loop of [showdown] over the contenders: the table,
    [winners] (seats) and [best_rank]. *)
Definition showdown_step (st : Game * list nat * Z) (k : nat)
  : result (Game * list nat * Z) :=
  let '(g, winners, best_rank) := st in
  p ← py_get (players g) (Z.of_nat k);
  res ← evaluate_hand (hand p ++ community_cards g);
  let g := update_player k (set_hand_result res) g in
  let '(rank, cards, _) := res in
  if best_rank <? rank then Ok (g, [k], rank)
  else if rank =? best_rank then
    w0 ← py_get winners 0;
    pw ← py_get (players g) (Z.of_nat w0);
    match hand_result pw with
    | None => Raise AttributeError
    | Some (_, best_cards, _) =>
        if _compare_hands cards best_cards =? 1 then Ok (g, [k], best_rank)
        else if _compare_hands cards best_cards =? 0 then Ok (g, winners ++ [k], best_rank)
        else Ok (g, winners, best_rank)
    end
  else Ok (g, winners, best_rank).

Definition showdown_winners (g : Game) : result (Game * list nat) :=
  '(g1, winners, _) ← for_each showdown_step (g, [], -1)
                        (seats_where in_hand (players g));
  Ok (g1, winners).

Definition pay_winners (winnings : Z) (winners : list nat) (g : Game) : Game :=
  fold_left (fun g w => update_player w (win winnings) g) winners g.

Definition showdown (g : Game) : result Game :=
  _ ← emit_game_state g true;
  let contenders := seats_where in_hand (players g) in
  if (length contenders <? 2)%nat then award_pot_to_winner g
  else
    '(g1, winners) ← showdown_winners g;
    winnings ← py_floordiv (pot g1) (Z.of_nat (length winners));
    let g2 := set_pot 0 (pay_winners winnings winners g1) in
    _ ← emit_game_state g2 false;
    Ok g2.

(** *** Blinds *)

Definition post_blind (k : nat) (amount : Z) (g : Game) : Game :=
  update_player k (fun p => set_bet amount (set_chips (chips p - amount) p)) g.

Definition post_blinds (g : Game) : result Game :=
  sb_pos ← get_next_active_player g (dealer_pos g);
  bb_from ← get_next_active_player g (dealer_pos g);
  bb_pos ← get_next_active_player g bb_from;
  sb ← py_get (players g) sb_pos;
  let sb_amount := Z.min (small_blind g) (chips sb) in
  let g := match py_index (players g) sb_pos with
           | Some k => post_blind k sb_amount g
           | None => g
           end in
  bb ← py_get (players g) bb_pos;
  let bb_amount := Z.min (big_blind g) (chips bb) in
  let g := match py_index (players g) bb_pos with
           | Some k => post_blind k bb_amount g
           | None => g
           end in
  next ← get_next_active_player g bb_pos;
  Ok (set_current_player_index next
        (set_last_raise (big_blind g) (set_current_bet (big_blind g) g))).

(** *** The betting round

    The decisions come from outside the engine: a bot's from
    [get_bot_action] (a policy over the table, the seat, the amount to call
    and the stage), the human's from the controller that answers
    [wait_for_player_action] (the answer to the n-th request of the round).
    Both are parameters here.  The round records every request it makes:
    the seat asked and the amount to call.  The [while True] loop runs on
    fuel; [None] says the fuel ran out. *)

Definition py_max (l : list Z) : result Z :=
  match l with
  | [] => Raise ValueError
  | x :: l' => Ok (fold_left Z.max l' x)
  end.

Definition bets_at (seats : list nat) (ps : list Player) : list Z :=
  omap (fun k => bet <$> ps !! k) seats.

Fixpoint deal_community (n : nat) (g : Game) : Game :=
  match n with
  | O => g
  | S n' =>
      let '(card, rest) := Deck_deal (deck g) in
      deal_community n' (set_community_cards (community_cards g ++ [card])
                           (set_deck rest g))
  end.

(** The start of [betting_round], up to the dealing of the community
    cards. *)
Definition begin_round (g : Game) (stage_name : string) (cards_to_deal : Z)
  : result Game :=
  let g := set_stage stage_name g in
  g ← (if bool_decide (stage_name ≠ "Pre-Flop"%string) then
         let g := set_current_bet 0 g in
         let g := set_last_raise (big_blind g) g in
         let g := set_players (fmap (set_bet 0) (players g)) g in
         i ← get_next_active_player g (dealer_pos g);
         Ok (set_current_player_index i g)
       else Ok g);
  Ok (if 0 <? cards_to_deal
      then deal_community (Z.to_nat cards_to_deal)
             (set_deck (Deck_deal (deck g)).2 g)
      else g).

(** [len([p for p in ps if f(p)])] *)
Definition count_where (f : Player -> bool) (ps : list Player) : nat :=
  length (filter (fun p => f p = true) ps).

Definition several_in_hand (g : Game) : bool :=
  (1 <? length (seats_where in_hand (players g)))%nat.

Section BettingRound.

Variable get_bot_action : Game -> Z -> Z -> string -> ActionData.
Variable wait_for_player_action : nat -> Game -> Z -> Z -> ActionData.

Fixpoint betting_loop (fuel : nat) (g : Game) (action_starter_index : Z)
         (asked : list (Z * Z)) : option (result (Game * list (Z * Z))) :=
  match fuel with
  | O => None
  | S fuel' =>
      let players_in_hand := seats_where in_hand (players g) in
      if (length players_in_hand <=? 1)%nat then Some (Ok (g, asked))
      else
        match py_get (players g) (current_player_index g) with
        | Raise e => Some (Raise e)
        | Ok player =>
            if is_all_in player || negb (in_hand player) then
              match get_next_active_player g (current_player_index g) with
              | Raise e => Some (Raise e)
              | Ok i =>
                  let g := set_current_player_index i g in
                  if i =? action_starter_index then Some (Ok (g, asked))
                  else betting_loop fuel' g action_starter_index asked
              end
            else
              match emit_game_state g false with
              | Raise e => Some (Raise e)
              | Ok _ =>
              let to_call := current_bet g - bet player in
              let action :=
                if is_bot player
                then get_bot_action g (current_player_index g) to_call (stage g)
                else wait_for_player_action (length asked) g
                       (current_player_index g) to_call in
              let asked := asked ++ [(current_player_index g, to_call)] in
              match handle_player_action g (current_player_index g) action with
              | Raise e => Some (Raise e)
              | Ok (g, is_raise) =>
                  let action_starter_index :=
                    if is_raise then current_player_index g
                    else action_starter_index in
                  match get_next_active_player g (current_player_index g) with
                  | Raise e => Some (Raise e)
                  | Ok i =>
                      let g := set_current_player_index i g in
                      if i =? action_starter_index then
                        match py_max (bets_at players_in_hand (players g)) with
                        | Raise e => Some (Raise e)
                        | Ok highest_bet =>
                            if forallb (fun p => (bet p =? highest_bet)
                                                 || negb (in_hand p) || is_all_in p)
                                       (players g)
                            then Some (Ok (g, asked))
                            else betting_loop fuel' g action_starter_index asked
                        end
                      else betting_loop fuel' g action_starter_index asked
                  end
              end
              end
        end
  end.

Definition betting_round (fuel : nat) (g : Game) (stage_name : string)
           (cards_to_deal : Z) : option (result (Game * bool * list (Z * Z))) :=
  match begin_round g stage_name cards_to_deal with
  | Raise e => Some (Raise e)
  | Ok g =>
      let players_with_option := count_where can_act (players g) in
      if (players_with_option <? 2)%nat && (current_bet g =? 0) then
        let g := collect_bets g in
        Some (Ok (g, several_in_hand g, []))
      else
        match betting_loop fuel g (current_player_index g) [] with
        | None => None
        | Some (Raise e) => Some (Raise e)
        | Some (Ok (g, asked)) =>
            let g := collect_bets g in
            Some (Ok (g, several_in_hand g, asked))
        end
  end.

End BettingRound.

(** ** Example hands and tables *)

Definition card (r : Rank) (s : Suit) : slot := Some (mkCard s r).

(** A-2-3-4-5, all spades. *)
Definition suited_wheel : list slot :=
  [card RA Spades; card R2 Spades; card R3 Spades; card R4 Spades; card R5 Spades].

(** A-2-3-4-5 in mixed suits, as the specification lists it. *)
Definition wheel : list slot :=
  [card RA Spades; card R2 Hearts; card R3 Diamonds; card R4 Clubs; card R5 Spades].

Definition six_high_straight : list slot :=
  [card R6 Spades; card R5 Hearts; card R4 Diamonds; card R3 Clubs; card R2 Spades].

Definition broadway_flush : list slot :=
  [card RT Hearts; card RJ Hearts; card RQ Hearts; card RK Hearts; card RA Hearts].

Definition twos_full_of_aces : list slot :=
  [card R2 Spades; card R2 Hearts; card R2 Diamonds; card RA Spades; card RA Hearts].

Definition kings_full_of_queens : list slot :=
  [card RK Spades; card RK Hearts; card RK Diamonds; card RQ Spades; card RQ Hearts].

(** What [_calculate_hand_rank] orders a hand into, [[]] if it raises. *)
Definition ordered_cards (h : list slot) : list Card :=
  match _calculate_hand_rank h with
  | Ok (_, cards) => cards
  | Raise _ => []
  end.

Definition category (h : list slot) : result Z :=
  '(rank_val, _) ← _calculate_hand_rank h; Ok rank_val.

(** [Game.__init__]: the table before anyone is seated.  The source
    leaves [self.deck = None] there, until [play_hand] makes a [Deck] at
    the start of each hand; [deck] being the list of the cards of that
    [Deck], the table before a hand has the empty list, and a table
    without a [Deck] object, on which [self.deck.deal()] raises
    [AttributeError], is not among the tables described.  Dealing starts
    from the deck that [start_hand] puts on the table. *)
Definition new_Game : Game :=
  mkGame [] [] [] 0 (-1) 0 0 0 "Idle" 10 20 false.

(** [Game.add_player] *)
Definition add_player (s : option string) (nm : string) (ch : Z) (bot : bool)
           (g : Game) : Game :=
  if (length (players g) <? 4)%nat
  then set_players (players g ++ [new_Player s nm ch bot]) g
  else g.

(** The table that [handle_connect] seats: one human, three bots, 1000
    chips each. *)
Definition seated_table : Game :=
  add_player None "Bot Charlie" 1000 true
    (add_player None "Bot Bob" 1000 true
       (add_player None "Bot Alice" 1000 true
          (add_player (Some "sid") "You" 1000 false new_Game))).

(** ** Turn order, as the specification words it *)

(** How often a list of seats drops back instead of stepping forward. *)
Fixpoint wraps (seats : list Z) : nat :=
  match seats with
  | a :: (b :: _) as rest => if b <=? a then S (wraps rest) else wraps rest
  | _ => O
  end.

Definition cannot_act (p : Player) : Prop := can_act p = false.

(** The seat that [z] falls on, round the table, holds a player who can,
    or cannot, act. *)
Definition acts_at (ps : list Player) (z : Z) : Prop :=
  exists p, ps !! Z.to_nat (z mod Z.of_nat (length ps)) = Some p /\ can_act p = true.
Definition idle_at (ps : list Player) (z : Z) : Prop :=
  exists q, ps !! Z.to_nat (z mod Z.of_nat (length ps)) = Some q /\ cannot_act q.

(** [r] is the first seat that can act on the way forward from
    [start_index], round the table, and it is met within one lap. *)
Definition first_to_act (ps : list Player) (start_index r : Z) : Prop :=
  let n := Z.of_nat (length ps) in
  exists k, 1 <= k <= n /\ r = (start_index + k) mod n /\
    (exists p, ps !! Z.to_nat r = Some p /\ can_act p = true) /\
    (forall j, 1 <= j < k ->
       exists q, ps !! Z.to_nat ((start_index + j) mod n) = Some q /\ cannot_act q).

(** The statement of the specification about [next_active_seat], at one
    table and one start index: a seat is returned; at most seats+1 seats
    are tested, each the circular successor of the one before (of the
    start index, for the first), dropping back to the first seat at most
    once; the seat returned is the first that can act, or the start index
    when no seat can. *)
Definition next_active_seat_claim (g : Game) (start_index : Z) : Prop :=
  let ps := players g in
  let n := Z.of_nat (length ps) in
  exists r tested,
    get_next_active_player g start_index = Ok r /\
    seats_tested g start_index = Ok tested /\
    (length tested <= S (length ps))%nat /\
    (forall j, (j < length tested)%nat ->
       tested !! j = Some ((start_index + 1 + Z.of_nat j) mod n)) /\
    (wraps tested <= 1)%nat /\
    (first_to_act ps start_index r \/
     (Forall cannot_act ps /\ r = start_index)).

(** The seated table with hole cards dealt. *)
Definition dealt_table : Game :=
  update_player 3 (set_hand [card R9 Clubs; card R9 Hearts])
    (update_player 2 (set_hand [card RQ Diamonds; card RJ Diamonds])
       (update_player 1 (set_hand [card R7 Diamonds; card R2 Clubs])
          (update_player 0 (set_hand [card RA Spades; card RK Spades])
             seated_table))).

(** The same after Bot Alice, at seat 1, has folded. *)
Definition folded_bot_table : Game := update_player 1 fold_hand dealt_table.

(** ** The redaction of hole cards, as the specification words it *)

Definition placeholders (p : Player) : list (option CardDict) :=
  replicate (length (hand p)) None.

(** The payload that [get_state] makes without [show_all_cards], read by
    the controller of seat [viewer]: the hole cards of that seat are in
    it, and in the place of the cards of every other seat there are as
    many empty placeholders as the seat holds cards. *)
Definition redaction_claim (g : Game) (viewer : nat) : Prop :=
  exists payload,
    get_state g false = Ok payload /\
    forall k p, players g !! k = Some p ->
      exists d, s_players payload !! k = Some d /\
        if bool_decide (k = viewer)
        then hand_to_dicts (hand p) = Ok (d_hand d)
        else d_hand d = placeholders p.

(** Every card that the payload shows has been dealt. *)
Definition dealt (h : list slot) : Prop := Forall (fun c => is_Some c) h.

Definition shown_cards_dealt (g : Game) : Prop :=
  dealt (community_cards g) /\
  Forall (fun p => is_bot p && in_hand p = false -> dealt (hand p)) (players g).

(** What the payload holds of a player: the hole cards, unless the player
    is a bot still in the hand, whose cards are two empty dictionaries. *)
Definition redacted_view (p : Player) (d : PlayerDict) : Prop :=
  if is_bot p && in_hand p
  then d_hand d = [None; None]
  else hand_to_dicts (hand p) = Ok (d_hand d).

(** ** Posting a blind from a short stack *)

(** What posting a blind of [blind] makes of a player [p] who can act:
    the blind is clamped to the stack, a stack no larger than the blind is
    emptied into the bet, and the player is not marked all-in. *)
Definition blind_posted (blind : Z) (p q : Player) : Prop :=
  bet q = Z.min blind (chips p) /\
  chips q = chips p - bet q /\
  (chips p <= blind -> chips q = 0 /\ bet q = chips p) /\
  is_all_in q = is_all_in p /\ is_all_in q = false /\
  status q = status p /\
  in_hand q = true.

Definition check : ActionData := mkActionData (Some "check"%string) None.

(** The seated table with the button at seat 0, five chips at seat 1 and
    twenty at seat 2. *)
Definition short_stack_table : Game :=
  update_player 2 (set_chips 20)
    (update_player 1 (set_chips 5)
       (mkGame (players seated_table) [] [] 0 0 0 0 0 "Idle" 10 20 true)).

(** ** The round that nobody can bet in *)

(** The seated table after the flop, when all but Bot Bob have gone all-in
    before it: no bet is open, and one seat could still act. *)
Definition all_in_table : Game :=
  update_player 3 (fun p => go_all_in (set_chips 0 p))
    (update_player 1 (fun p => go_all_in (set_chips 0 p))
       (update_player 0 (fun p => go_all_in (set_chips 0 p))
          (mkGame (players dealt_table)
                  [mkCard Clubs R3; mkCard Clubs R4; mkCard Clubs R5; mkCard Clubs R6]
                  [card R2 Hearts; card R8 Spades; card RT Clubs]
                  3000 0 1 0 20 "Flop" 10 20 true))).

(** ** Showdown *)

(** Every player still in the hand holds, with the community cards, five
    dealt cards or more. *)
Definition contenders_hold_cards (g : Game) : Prop :=
  Forall (fun p => in_hand p = true ->
                   dealt (hand p ++ community_cards g) /\
                   (5 <= length (hand p ++ community_cards g))%nat)
         (players g).

(** A player but for the hand result that [showdown] stores on it. *)
Definition forget_result (p : Player) : Player :=
  mkPlayer (sid p) (name p) (chips p) (is_bot p) (hand p) (bet p) (in_hand p)
           (is_all_in p) (status p) None.

(** The loop of [showdown] changes the table [g0] in the stored hand
    results only. *)
Definition same_stakes (g0 g : Game) : Prop :=
  forget_result <$> players g = forget_result <$> players g0 /\
  pot g = pot g0 /\
  community_cards g = community_cards g0.

Definition results_known (g : Game) (winners : list nat) : Prop :=
  forall w, w ∈ winners ->
    exists p, players g !! w = Some p /\ is_Some (hand_result p).

(** The seated table at showdown: the board is a royal flush, Bot Alice
    has folded, and the pot holds 101. *)
Definition split_pot_table : Game :=
  mkGame (players folded_bot_table) []
         [card RA Hearts; card RK Hearts; card RQ Hearts; card RJ Hearts;
          card RT Hearts]
         101 0 1 0 20 "River" 10 20 true.

(** The same with two players left, who tie. *)
Definition two_winners_table : Game :=
  update_player 3 fold_hand split_pot_table.

#[global] Instance dealt_dec (h : list slot) : Decision (dealt h).
Proof. unfold dealt. apply _. Defined.

#[global] Instance contenders_hold_cards_dec (g : Game) :
  Decision (contenders_hold_cards g).
Proof. unfold contenders_hold_cards. apply _. Defined.

#[global] Instance shown_cards_dealt_dec (g : Game) :
  Decision (shown_cards_dealt g).
Proof. unfold shown_cards_dealt. apply _. Defined.

(** ** Example actions *)

(** The human at seat 0 of the seated table. *)
Definition you : Player := new_Player (Some "sid"%string) "You" 1000 false.


(** ** The cards on the table *)

(** Every card on the table, in the hands and on the board, is a dealt
    one: none is the [None] that an empty deck deals. *)
Definition all_dealt (g : Game) : Prop :=
  dealt (community_cards g) /\ Forall (fun p => dealt (hand p)) (players g).

#[global] Instance all_dealt_dec (g : Game) : Decision (all_dealt g).
Proof. unfold all_dealt. apply _. Defined.

(** The seated table with a card on the board that an empty deck has
    dealt. *)
Definition undealt_board : Game := set_community_cards [None] seated_table.

(** ** Bets and raises, as the specification words it *)

(** A total personal bet that the player [p] can make: not negative, and
    not above the chips and the bet that the player holds. *)
Definition legal_total_bet (p : Player) (b : Z) : Prop :=
  0 <= b <= chips p + bet p.

(** [b] is the legal total bet nearest to the requested amount. *)
Definition nearest_legal (p : Player) (amount b : Z) : Prop :=
  legal_total_bet p b /\
  forall b', legal_total_bet p b' -> Z.abs (amount - b) <= Z.abs (amount - b').

(** A bet or a raise to the requested [amount]. *)
Definition bet_or_raise (action : string) (amount : Z) : ActionData :=
  mkActionData (Some action) (Some (Number amount)).

(** A raise to more than any stack at the table. *)
Definition raise_to_5000 : ActionData := bet_or_raise "raise" 5000.

(** The statement of the specification about a bet or a raise to [amount]
    at the seat [i]: no error is raised; the bet of the player becomes the
    legal total bet nearest to the amount; the chips do not become
    negative, and the bet does not exceed the chips and the bet held
    before. *)
Definition clamping_claim (g : Game) (i : Z) (action : string) (amount : Z)
  : Prop :=
  forall p, py_get (players g) i = Ok p ->
    exists g' is_raise p',
      handle_player_action g i (bet_or_raise action amount) = Ok (g', is_raise) /\
      py_get (players g') i = Ok p' /\
      nearest_legal p amount (bet p') /\
      0 <= chips p' /\
      bet p' <= chips p + bet p.

(** ** The best of the combinations seen *)

(** [best] is what [_calculate_hand_rank] returns on one of the hands
    [seen], and no hand seen has a higher category, or the same category
    and cards that compare above. *)
Definition best_of (seen : list (list slot)) (best : Z * list Card) : Prop :=
  (exists c, c ∈ seen /\ _calculate_hand_rank c = Ok best) /\
  forall c r cs, c ∈ seen -> _calculate_hand_rank c = Ok (r, cs) ->
    r < best.1 \/ (r = best.1 /\ _compare_hands cs best.2 <= 0).

(** ** What an action leaves of the table *)

(** The tables [g] and [g'] differ at most in the players, the current
    bet and the last raise. *)
Definition same_table (g g' : Game) : Prop :=
  deck g' = deck g /\ community_cards g' = community_cards g /\
  pot g' = pot g /\ dealer_pos g' = dealer_pos g /\
  current_player_index g' = current_player_index g /\
  stage g' = stage g /\ small_blind g' = small_blind g /\
  big_blind g' = big_blind g /\ is_running g' = is_running g.

(** The player [q] is [p] after an action: the same seat holder with the
    same cards and the same chips and bet taken together; a fold is not
    undone, nor is an all-in, and no chips means all-in. *)
Definition after_action (p q : Player) : Prop :=
  sid q = sid p /\ name q = name p /\ is_bot q = is_bot p /\
  hand q = hand p /\ hand_result q = hand_result p /\
  chips q + bet q = chips p + bet p /\
  (in_hand q = true -> in_hand p = true) /\
  (is_all_in p = true -> is_all_in q = true) /\
  (chips q = 0 -> is_all_in q = true /\ status q = "ALL-IN"%string).

Definition call : ActionData := mkActionData (Some "call"%string) None.
Definition fold : ActionData := mkActionData (Some "fold"%string) None.

(** The seated table before the flop with the blinds of seats 1 and 2
    posted, seat 3 to act. *)
Definition blinds_table : Game :=
  update_player 2 (pay 20)
    (update_player 1 (pay 10)
       (mkGame (players dealt_table) [] [] 0 0 3 20 20 "Pre-Flop" 10 20 true)).

(** ** The deck and the hole cards *)

(** [[Card(s, r) for s in SUITS for r in RANKS]], the deck of
    [Deck.__init__] before it is shuffled. *)
Definition ordered_deck : list Card :=
  s ← SUITS; r ← RANKS; [mkCard s r].

(** [Deck()]: the ordered deck, shuffled.  [random.shuffle] is a parameter:
    any rearrangement of the list. *)
Definition Deck (shuffle : list Card -> list Card) : list Card :=
  shuffle ordered_deck.

(** One pass of the inner loop of [deal_hole_cards], at seat [k]:
    [if p.in_hand: p.hand.append(self.deck.deal())]. *)
Definition deal_hole_card_at (g : Game) (k : nat) : Game :=
  match players g !! k with
  | Some p =>
      if in_hand p then
        let '(card, rest) := Deck_deal (deck g) in
        update_player k (fun p => set_hand (hand p ++ [card]) p) (set_deck rest g)
      else g
  | None => g
  end.

Definition deal_hole_cards (g : Game) : Game :=
  fold_left (fun g _ => fold_left deal_hole_card_at (seq 0 (length (players g))) g)
            (seq 0 2) g.

(** The players after one pass round the table that starts with the j-th
    card from the top of the deck [top]. *)
Fixpoint give (top : list Card) (j : nat) (ps : list Player) : list Player :=
  match ps with
  | [] => []
  | p :: ps' =>
      if in_hand p
      then set_hand (hand p ++ [top !! j]) p :: give top (S j) ps'
      else p :: give top j ps'
  end.

(** ** The hand *)

Definition set_dealer_pos (v : Z) (g : Game) : Game :=
  mkGame (players g) (deck g) (community_cards g) (pot g) v
         (current_player_index g) (current_bet g) (last_raise g) (stage g)
         (small_blind g) (big_blind g) (is_running g).

(** The start of [play_hand]: the players without chips leave the table. *)
Definition remove_broke (g : Game) : Game :=
  set_players (filter (fun p => 0 < chips p) (players g)) g.

(** [play_hand] from the reset of the players to the dealing of the hole
    cards; [new_deck] is the [Deck()] of the hand. *)
Definition start_hand (new_deck : list Card) (g : Game) : result Game :=
  let g := set_players (reset_for_hand <$> players g) g in
  let g := set_current_bet 0 (set_pot 0 (set_community_cards [] (set_deck new_deck g))) in
  d ← py_mod (dealer_pos g + 1) (Z.of_nat (length (players g)));
  let g := set_dealer_pos d g in
  g ← post_blinds g;
  Ok (deal_hole_cards g).

Section PlayHand.

Variable get_bot_action : Game -> Z -> Z -> string -> ActionData.
Variable wait_for_player_action : nat -> Game -> Z -> Z -> ActionData.

(** A betting round and what follows it: [continue] when the round reports
    two contenders or more, [stop] when it does not. *)
Definition round_then (fuel : nat) (g : Game) (stage_name : string)
           (cards_to_deal : Z)
           (continue stop : Game -> option (result Game))
  : option (result Game) :=
  match betting_round get_bot_action wait_for_player_action fuel g
                      stage_name cards_to_deal with
  | None => None
  | Some (Raise e) => Some (Raise e)
  | Some (Ok (g, true, _)) => continue g
  | Some (Ok (g, false, _)) => stop g
  end.

Definition award (g : Game) : option (result Game) :=
  Some (award_pot_to_winner g).

(** The four nested [if]s of [play_hand].  The one on the flop has no
    [else]. *)
Definition play_rounds (fuel : nat) (g : Game) : option (result Game) :=
  round_then fuel g "Pre-Flop" 0
    (fun g => round_then fuel g "Flop" 3
       (fun g => round_then fuel g "Turn" 1
          (fun g => round_then fuel g "River" 1
             (fun g => Some (showdown g))
             award)
          award)
       (fun g => Some (Ok g)))
    award.

Definition play_hand (fuel : nat) (new_deck : list Card) (g : Game)
  : option (result Game) :=
  let g := remove_broke g in
  if (length (players g) <? 2)%nat then Some (Ok g)
  else
    match start_hand new_deck g with
    | Raise e => Some (Raise e)
    | Ok g => play_rounds fuel g
    end.

End PlayHand.

(** ** Example policies *)

(** Check when there is nothing to call, call otherwise. *)
Definition check_or_call (to_call : Z) : ActionData :=
  if to_call =? 0 then check else call.

(** Before the flop call; from the flop on bet 50 into an unopened pot and
    fold to any bet. *)
Definition bet_flop_or_fold (stage_name : string) (to_call : Z) : ActionData :=
  if bool_decide (stage_name = "Pre-Flop"%string) then check_or_call to_call
  else if to_call =? 0 then mkActionData (Some "bet"%string) (Some (Number 50))
  else fold.

(** ** What a betting round keeps *)

(** The holder of a seat before and after: the same player with the same
    cards, not back in the hand after a fold, still all-in after an
    all-in. *)
Definition seat_kept (p q : Player) : Prop :=
  name q = name p /\ is_bot q = is_bot p /\ hand q = hand p /\
  (in_hand q = true -> in_hand p = true) /\
  (is_all_in p = true -> is_all_in q = true).

(** Between [g] and [g'] chips have moved only between the stacks and the
    bets, seat by seat. *)
Definition stakes_kept (g g' : Game) : Prop :=
  sum_chips (players g') + sum_bets (players g')
  = sum_chips (players g) + sum_bets (players g) /\
  pot g' = pot g /\ deck g' = deck g /\
  community_cards g' = community_cards g /\ stage g' = stage g /\
  dealer_pos g' = dealer_pos g /\
  small_blind g' = small_blind g /\ big_blind g' = big_blind g /\
  Forall2 seat_kept (players g) (players g').

(** ** The blinds at the start of a hand *)

(** A player after posting a blind out of the stack. *)
Definition post (blind : Z) (p : Player) : Player :=
  set_bet (Z.min blind (chips p)) (set_chips (chips p - Z.min blind (chips p)) p).

(** How [play_hand] leaves the players before the blinds: everyone in the
    hand, nobody all-in, no bet. *)
Definition ready_for_hand (p : Player) : Prop := can_act p = true /\ bet p = 0.

(** ** The round that does not end *)

(** Fold at seat 3, check at every other seat. *)
Definition fold_at_3 (g : Game) (i to_call : Z) (stage_name : string)
  : ActionData :=
  if i =? 3 then fold else check.

Definition always_check (asked : nat) (g : Game) (i to_call : Z) : ActionData :=
  check.

(** The table after the blinds, once Bot Charlie at seat 3, the first to
    act, has folded and the turn has passed to seat 0. *)
Definition first_folded_table : Game :=
  set_current_player_index 0 (update_player 3 fold_hand blinds_table).

(** ** Example inputs *)

Definition king : Card := mkCard Spades RK.
Definition queen : Card := mkCard Hearts RQ.
Definition jack : Card := mkCard Diamonds RJ.

(** The wheel with a king and a queen beside it: seven cards. *)
Definition seven_cards : list slot :=
  wheel ++ [card RK Hearts; card RQ Hearts].

(** The wheel with a card that the empty deck has dealt. *)
Definition undealt_hand : list slot := None :: wheel.

(** Bot Alice, at seat 1 of [blinds_table], with the small blind posted. *)
Definition small_blind_seat : Player :=
  pay 10 (mkPlayer None "Bot Alice" 1000 true
                   [card R7 Diamonds; card R2 Clubs] 0 true false EmptyString None).

(** The seated table with an ordered deck, before the hole cards. *)
Definition full_deck_table : Game :=
  mkGame (players seated_table) ordered_deck [] 0 0 0 0 0 "Idle" 10 20 true.

(** Bot Charlie, at seat 3 of [first_folded_table]. *)
Definition folded_seat : Player :=
  fold_hand (mkPlayer None "Bot Charlie" 1000 true
                      [card R9 Clubs; card R9 Hearts] 0 true false EmptyString None).

(** Decisions for whole hands: everyone checks or calls; or everyone calls
    before the flop, then bets 50 into an unopened pot and folds to a bet. *)
Definition bots_call (g : Game) (i to_call : Z) (stage_name : string)
  : ActionData := check_or_call to_call.
Definition you_call (asked : nat) (g : Game) (i to_call : Z) : ActionData :=
  check_or_call to_call.
Definition bots_bet_flop (g : Game) (i to_call : Z) (stage_name : string)
  : ActionData := bet_flop_or_fold stage_name to_call.
Definition you_bet_flop (asked : nat) (g : Game) (i to_call : Z) : ActionData :=
  bet_flop_or_fold (stage g) to_call.

(** The table of [blinds_table] after a round before the flop in which
    everyone calls, and the requests the round made (seat, amount to
    call). *)
Definition called_table : Game :=
  Eval vm_compute in
    match betting_round bots_call you_call 100 blinds_table "Pre-Flop" 0 with
    | Some (Ok (g, _, _)) => g
    | _ => blinds_table
    end.

Definition called_requests : list (Z * Z) :=
  Eval vm_compute in
    match betting_round bots_call you_call 100 blinds_table "Pre-Flop" 0 with
    | Some (Ok (_, _, asked)) => asked
    | _ => []
    end.

(** The seated table after a hand in which everyone calls before the flop,
    seat 1 bets the flop and the others fold. *)
Definition flop_ended_table : Game :=
  Eval vm_compute in
    match play_hand bots_bet_flop you_bet_flop 100 ordered_deck seated_table with
    | Some (Ok g) => g
    | _ => seated_table
    end.

(** ** The cards of a hand *)

(** A player holding two hole cards, both dealt from the deck. *)
Definition holds_two (p : Player) : Prop :=
  dealt (hand p) /\ length (hand p) = 2%nat.

(** ** The payload with the cards shown *)

(** The dictionaries of dealt cards. *)
Definition shown (h : list slot) : list (option CardDict) :=
  map (fun c : slot => option_map Card_to_dict c) h.

(** What the payload holds of a player whose cards are shown. *)
Definition open_view (p : Player) (d : PlayerDict) : Prop :=
  d_hand d = shown (hand p) /\
  d_name d = name p /\ d_chips d = chips p /\ d_isBot d = is_bot p /\
  d_bet d = bet p /\ d_inHand d = in_hand p /\ d_status d = status p.

(** What stays true of the table while the loop of [betting_round] runs
    past an opening seat that cannot act: two players or more in the
    hand, every card a dealt one, the turn at a seat of the table, the
    opening seat held by a player unable to act, and the turn away from
    the opening seat unless a seat can act. *)
Definition still_asking (starter : Z) (out : Player) (g : Game) : Prop :=
  (2 <= count_where in_hand (players g))%nat /\
  all_dealt g /\
  0 <= current_player_index g < Z.of_nat (length (players g)) /\
  players g !! Z.to_nat starter = Some out /\
  (current_player_index g <> starter \/
   (1 <= count_where can_act (players g))%nat).

(** * Properties *)

(** ** The result monad and Python indexing *)

Lemma bind_Ok {A B} (m : result A) (f : A -> result B) (b : B) :
  m ≫= f = Ok b -> exists a, m = Ok a /\ f a = Ok b.
Proof. destruct m as [a|e]; simpl; [eauto | discriminate]. Qed.

Lemma py_index_seat {A} (l : list A) (i : Z) :
  0 <= i < Z.of_nat (length l) -> py_index l i = Some (Z.to_nat i).
Proof.
  intros H. unfold py_index.
  destruct (Z.leb_spec 0 i), (Z.ltb_spec i (Z.of_nat (length l))); simpl; auto; lia.
Qed.

Lemma py_get_seat {A} (l : list A) (k : nat) (a : A) :
  l !! k = Some a -> py_get l (Z.of_nat k) = Ok a.
Proof.
  intros H. unfold py_get.
  rewrite py_index_seat by (apply lookup_lt_Some in H; lia).
  rewrite Nat2Z.id, H. reflexivity.
Qed.

Lemma py_get_index {A} (l : list A) (i : Z) (a : A) :
  py_get l i = Ok a -> exists k, py_index l i = Some k /\ l !! k = Some a.
Proof.
  unfold py_get. destruct (py_index l i) as [k|]; [|discriminate].
  destruct (l !! k) eqn:E; [|discriminate]. intros [= ->]. eauto.
Qed.

(** ** The hand ranker on the hands of the specification *)

(** C1. A hand that is both a straight and a flush is ranked 10 when its
    highest card is an ace and 9 otherwise; the ranker reads the highest
    card before it moves the ace of a wheel, so the suited wheel
    A-2-3-4-5 is ranked 10 (Royal Flush), like T-J-Q-K-A, and not 9. *)
Theorem suited_wheel_is_ranked_royal :
  category suited_wheel = Ok 10 /\
  category broadway_flush = Ok 10 /\
  dict_get HAND_NAMES 10 "Unknown"%string = "Royal Flush"%string.
Proof. repeat split; vm_compute; reflexivity. Qed.

(** C2. A full house is returned in plain descending order of card value,
    the three of a kind is not put first: 2-2-2-A-A is ordered A-A-2-2-2,
    and [_compare_hands] puts it above K-K-K-Q-Q. *)
Theorem full_house_is_ordered_by_value :
  _calculate_hand_rank twos_full_of_aces
    = Ok (7, [mkCard Spades RA; mkCard Hearts RA;
              mkCard Spades R2; mkCard Hearts R2; mkCard Diamonds R2]) /\
  _calculate_hand_rank kings_full_of_queens
    = Ok (7, [mkCard Spades RK; mkCard Hearts RK; mkCard Diamonds RK;
              mkCard Spades RQ; mkCard Hearts RQ]) /\
  _compare_hands (ordered_cards twos_full_of_aces)
                 (ordered_cards kings_full_of_queens) = 1.
Proof. repeat split; vm_compute; reflexivity. Qed.

(** C8. The wheel in mixed suits is ranked 5 (Straight), and its ace is
    moved to the front of the ordered cards, the place [_compare_hands]
    reads first: the wheel compares above the six-high straight. *)
Theorem wheel_compares_above_six_high :
  _calculate_hand_rank wheel
    = Ok (5, [mkCard Spades RA; mkCard Hearts R2; mkCard Diamonds R3;
              mkCard Clubs R4; mkCard Spades R5]) /\
  category six_high_straight = Ok 5 /\
  _compare_hands (ordered_cards wheel) (ordered_cards six_high_straight) = 1.
Proof. repeat split; vm_compute; reflexivity. Qed.

(** The suited wheel is ranked 10 in every suit and in whatever order the
    five cards arrive. *)
Lemma royal_in_any_suit_and_order (s : Suit) (ranks : list Rank) :
  ranks ≡ₚ WHEEL -> category ((fun r => card r s) <$> ranks) = Ok 10.
Proof.
  intros Hperm. symmetry in Hperm. apply permutations_Permutation in Hperm.
  set (royal := fun (rs : list Rank) (s' : Suit) =>
                  match category ((fun r => card r s') <$> rs) with
                  | Ok r => r =? 10
                  | Raise _ => false
                  end).
  assert (Hall : forallb (fun rs => forallb (royal rs) SUITS) (permutations WHEEL) = true)
    by (vm_compute; reflexivity).
  rewrite forallb_forall in Hall.
  specialize (Hall ranks ltac:(apply list_elem_of_In; exact Hperm)).
  rewrite forallb_forall in Hall.
  specialize (Hall s ltac:(destruct s; simpl; tauto)).
  unfold royal in Hall.
  destruct (category ((fun r => card r s) <$> ranks)) as [r|]; [|discriminate].
  apply Z.eqb_eq in Hall. congruence.
Qed.

(** ** Collecting the bets *)

Lemma Game_eta (g : Game) :
  mkGame (players g) (deck g) (community_cards g) (pot g) (dealer_pos g)
         (current_player_index g) (current_bet g) (last_raise g) (stage g)
         (small_blind g) (big_blind g) (is_running g) = g.
Proof. destruct g; reflexivity. Qed.

Lemma sum_bets_app (l1 l2 : list Player) :
  sum_bets (l1 ++ l2) = sum_bets l1 + sum_bets l2.
Proof. induction l1 as [|p l1 IH]; simpl; [|rewrite IH]; lia. Qed.

Lemma sum_bets_cleared (l : list Player) : sum_bets (set_bet 0 <$> l) = 0.
Proof. induction l as [|p l IH]; csimpl; [|rewrite IH]; reflexivity. Qed.

(** The loop of [collect_bets], started at the seat after [done]. *)
Lemma collect_bets_from (rest done : list Player) (g : Game) :
  players g = (set_bet 0 <$> done) ++ rest ->
  fold_left collect_bet_at (seq (length done) (length rest)) g
  = set_pot (pot g + sum_bets rest)
      (set_players (set_bet 0 <$> (done ++ rest)) g).
Proof.
  revert done g. induction rest as [|p rest IH]; intros done g Hg.
  - simpl. rewrite app_nil_r in *. rewrite <- Hg.
    unfold set_pot, set_players; simpl. rewrite Z.add_0_r. symmetry. apply Game_eta.
  - simpl.
    assert (Hk : players g !! length done = Some p).
    { rewrite Hg, lookup_app_r by (rewrite length_fmap; lia).
      rewrite length_fmap, Nat.sub_diag. reflexivity. }
    unfold collect_bet_at at 2. rewrite Hk.
    specialize (IH (done ++ [p])
                  (update_player (length done) (set_bet 0)
                                 (set_pot (pot g + bet p) g))).
    rewrite length_app in IH. simpl in IH.
    replace (length done + 1)%nat with (S (length done)) in IH by lia.
    rewrite IH.
    + unfold set_pot, set_players, update_player; simpl.
      rewrite <- app_assoc. simpl. f_equal. lia.
    + unfold update_player, set_players, set_pot; simpl. rewrite Hg.
      replace (length done) with (length (set_bet 0 <$> done) + 0)%nat
        by (rewrite length_fmap; lia).
      rewrite alter_app_r. simpl. rewrite fmap_app, <- app_assoc. reflexivity.
Qed.

Lemma collect_bets_eq (g : Game) :
  collect_bets g
  = set_pot (pot g + sum_bets (players g))
      (set_players (set_bet 0 <$> players g) g).
Proof.
  unfold collect_bets.
  exact (collect_bets_from (players g) [] g eq_refl).
Qed.

Lemma collect_bets_pot_and_bets (g : Game) :
  pot (collect_bets g) = pot g + sum_bets (players g) /\
  Forall (fun p => bet p = 0) (players (collect_bets g)).
Proof.
  rewrite collect_bets_eq. simpl. split; [reflexivity|].
  apply Forall_fmap, Forall_true. intros p. reflexivity.
Qed.

(** C4. [collect_bets] leaves every player with a bet of 0, everything
    else about the players and the table as it was, and adds to the pot
    exactly the sum of the bets there were: the pot plus the sum of the
    bets is the same before and after. *)
Theorem collect_bets_folds_bets_into_pot (g : Game) :
  collect_bets g
  = set_pot (pot g + sum_bets (players g))
      (set_players (set_bet 0 <$> players g) g) /\
  Forall (fun p => bet p = 0) (players (collect_bets g)) /\
  pot (collect_bets g) = pot g + sum_bets (players g) /\
  pot (collect_bets g) + sum_bets (players (collect_bets g))
  = pot g + sum_bets (players g).
Proof.
  rewrite collect_bets_eq. split; [reflexivity|]. simpl.
  split; [|split].
  - apply Forall_fmap, Forall_true. intros p. reflexivity.
  - reflexivity.
  - rewrite sum_bets_cleared. lia.
Qed.

(** ** Bets and raises *)

Lemma py_get_alter {A} (f : A -> A) (l : list A) (i : Z) (k : nat) (a : A) :
  py_index l i = Some k -> l !! k = Some a ->
  py_get (alter f k l) i = Ok (f a).
Proof.
  intros Hi Hk. unfold py_get.
  assert (py_index (alter f k l) i = Some k) as ->.
  { unfold py_index in *. rewrite length_alter. exact Hi. }
  rewrite list_lookup_alter_eq, Hk. reflexivity.
Qed.

Lemma py_index_alter {A} (f : A -> A) (l : list A) (i : Z) (k : nat) :
  py_index (alter f k l) i = py_index l i.
Proof. unfold py_index. rewrite length_alter. reflexivity. Qed.

(** ** Turn order *)

Section Scan.

Variable ps : list Player.
Hypothesis seated : ps <> [].

Let n := Z.of_nat (length ps).

Lemma seats_pos : 0 < n.
Proof. unfold n. destruct ps; [congruence | simpl; lia]. Qed.

Lemma seat_mod_range (a : Z) : 0 <= a mod n < n.
Proof. apply Z.mod_pos_bound, seats_pos. Qed.

Lemma py_mod_seat (a : Z) : py_mod a n = Ok (a mod n).
Proof.
  unfold py_mod. pose proof seats_pos.
  destruct (Z.eqb_spec n 0); [lia | reflexivity].
Qed.

Lemma seat_lookup (a : Z) :
  exists p, ps !! Z.to_nat (a mod n) = Some p /\ py_get ps (a mod n) = Ok p.
Proof.
  pose proof (seat_mod_range a) as Hr.
  destruct (lookup_lt_is_Some_2 ps (Z.to_nat (a mod n))) as [p Hp].
  { unfold n in *. lia. }
  exists p. split; [exact Hp|].
  unfold py_get. rewrite py_index_seat by exact Hr. rewrite Hp. reflexivity.
Qed.

Lemma seat_step (i j : Z) : ((i + 1) mod n + 1 + j) mod n = (i + 1 + (j + 1)) mod n.
Proof.
  rewrite <- Z.add_assoc, Zplus_mod_idemp_l. f_equal. lia.
Qed.

(** What the loop of [get_next_active_player] returns and tests. *)
Lemma scan_seats_spec (iters : nat) : forall i : Z,
  exists tested found,
    scan_seats ps iters i = Ok (tested, found) /\
    (length tested <= iters)%nat /\
    (forall j, (j < length tested)%nat ->
       tested !! j = Some ((i + 1 + Z.of_nat j) mod n)) /\
    match found with
    | Some r =>
        exists m, length tested = S m /\ r = (i + 1 + Z.of_nat m) mod n /\
          acts_at ps r /\
          forall j, (j < m)%nat -> idle_at ps (i + 1 + Z.of_nat j)
    | None =>
        length tested = iters /\
        forall j, (j < iters)%nat -> idle_at ps (i + 1 + Z.of_nat j)
    end.
Proof.
  induction iters as [|iters IH]; intros i.
  - exists [], None. simpl. repeat split; auto; intros; lia.
  - simpl. fold n. rewrite py_mod_seat. cbn [mbind result_bind].
    destruct (seat_lookup (i + 1)) as (p & Hp & Hget). rewrite Hget.
    cbn [mbind result_bind].
    destruct (can_act p) eqn:Hact.
    + exists [(i + 1) mod n], (Some ((i + 1) mod n)). simpl.
      split; [reflexivity|]. split; [lia|]. split.
      * intros j Hj. assert (j = 0%nat) as -> by lia.
        simpl. rewrite Z.add_0_r. reflexivity.
      * exists 0%nat. simpl. rewrite Z.add_0_r. repeat split; auto.
        -- exists p. fold n. rewrite Z.mod_mod by (pose proof seats_pos; lia). auto.
        -- intros; lia.
    + destruct (IH ((i + 1) mod n)) as (tested & found & Hs & Hlen & Hseq & Hf).
      rewrite Hs. cbn [mbind result_bind].
      exists ((i + 1) mod n :: tested), found.
      split; [reflexivity|]. split; [simpl; lia|]. split.
      * intros [|j] Hj; simpl in *.
        -- rewrite Z.add_0_r. reflexivity.
        -- rewrite Hseq by lia. f_equal. rewrite seat_step. f_equal. lia.
      * assert (Hfirst : idle_at ps (i + 1 + Z.of_nat 0)).
        { exists p. fold n. simpl. rewrite Z.add_0_r. auto. }
        assert (Hshift : forall j, idle_at ps ((i + 1) mod n + 1 + Z.of_nat j) ->
                                   idle_at ps (i + 1 + Z.of_nat (S j))).
        { intros j (q & Hq & Hc). exists q. split; [|exact Hc].
          fold n in Hq |- *.
          rewrite <- Hq. f_equal. f_equal. rewrite seat_step. f_equal. lia. }
        destruct found as [r|].
        -- destruct Hf as (m & Hm & Hr & Ha & Hidle).
           exists (S m). simpl. split; [lia|]. split.
           { rewrite Hr, seat_step. f_equal. lia. }
           split; [exact Ha|].
           intros [|j] Hj; [exact Hfirst|]. apply Hshift, Hidle. lia.
        -- destruct Hf as (Hl & Hidle). split; [simpl; lia|].
           intros [|j] Hj; [exact Hfirst|]. apply Hshift, Hidle. lia.
Qed.

(** A run of seats, each the circular successor of the one before, drops
    back once at most in less than two laps. *)
Lemma wraps_run (l : list Z) : forall a : Z,
  0 <= a < n ->
  (forall j, (j < length l)%nat -> l !! j = Some ((a + Z.of_nat j) mod n)) ->
  (a + Z.of_nat (length l) <= n -> wraps l = 0%nat) /\
  (a + Z.of_nat (length l) <= 2 * n -> (wraps l <= 1)%nat).
Proof.
  induction l as [|x l IH]; intros a Ha Hl.
  - simpl. split; intros; lia.
  - assert (Hx : x = a).
    { specialize (Hl 0%nat ltac:(simpl; lia)). simpl in Hl.
      rewrite Z.add_0_r, Z.mod_small in Hl by lia. congruence. }
    subst x.
    assert (Htail : forall j, (j < length l)%nat ->
                              l !! j = Some ((a + 1 + Z.of_nat j) mod n)).
    { intros j Hj. specialize (Hl (S j) ltac:(simpl; lia)). simpl in Hl.
      rewrite Hl. f_equal. f_equal. lia. }
    destruct l as [|y l'].
    { simpl. split; intros; lia. }
    assert (Hy : y = (a + 1) mod n).
    { specialize (Htail 0%nat ltac:(simpl; lia)). simpl in Htail.
      rewrite Z.add_0_r in Htail. congruence. }
    destruct (Z.eq_dec (a + 1) n) as [Hwrap | Hno].
    + (* the successor of the last seat is the first seat *)
      assert (y = 0) as Hy0.
      { rewrite Hy, Hwrap. apply Z.mod_same. lia. }
      destruct (IH 0 ltac:(lia)) as [IH0 _].
      { intros j Hj. rewrite Htail by exact Hj. f_equal.
        rewrite Hwrap. rewrite <- (Z.mod_add (0 + Z.of_nat j) 1 n) by lia.
        f_equal. lia. }
      change (wraps (a :: y :: l'))
        with (if y <=? a then S (wraps (y :: l')) else wraps (y :: l')).
      destruct (Z.leb_spec y a); [|lia].
      simpl length in *. split; intros Hb.
      * lia.
      * rewrite IH0 by lia. lia.
    + destruct (IH (a + 1) ltac:(lia) Htail) as [IH0 IH1].
      assert (y = a + 1) as Hy1.
      { rewrite Hy. apply Z.mod_small. lia. }
      change (wraps (a :: y :: l'))
        with (if y <=? a then S (wraps (y :: l')) else wraps (y :: l')).
      destruct (Z.leb_spec y a); [lia|].
      simpl length in *. split; intros Hb; [apply IH0 | apply IH1]; lia.
Qed.

(** Every seat is met in one lap from anywhere. *)
Lemma lap_meets_seat (i : Z) (k : nat) (p : Player) :
  ps !! k = Some p ->
  exists j, (j < length ps)%nat /\ (i + 1 + Z.of_nat j) mod n = Z.of_nat k.
Proof.
  intros Hk. apply lookup_lt_Some in Hk.
  pose proof (seat_mod_range (Z.of_nat k - i - 1)) as Hr.
  exists (Z.to_nat ((Z.of_nat k - i - 1) mod n)). split; [unfold n in *; lia|].
  rewrite Z2Nat.id by lia.
  rewrite Zplus_mod_idemp_r.
  replace (i + 1 + (Z.of_nat k - i - 1)) with (Z.of_nat k) by lia.
  apply Z.mod_small. unfold n. lia.
Qed.

Lemma idle_lap_all_idle (i : Z) :
  (forall j, (j < S (length ps))%nat -> idle_at ps (i + 1 + Z.of_nat j)) ->
  Forall cannot_act ps.
Proof.
  intros Hidle. apply Forall_lookup. intros k p Hk.
  destruct (lap_meets_seat i k p Hk) as (j & Hj & Hjk).
  destruct (Hidle j ltac:(lia)) as (q & Hq & Hc). fold n in Hq.
  rewrite Hjk, Nat2Z.id, Hk in Hq. congruence.
Qed.

End Scan.

(** [get_next_active_player] on a table with at least one seat. *)
Lemma next_active_seat_seated (g : Game) (start_index : Z) :
  players g <> [] -> next_active_seat_claim g start_index.
Proof.
  intros Hps. unfold next_active_seat_claim.
  set (ps := players g). set (n := Z.of_nat (length ps)).
  pose proof (seats_pos ps Hps) as Hn. fold n in Hn.
  destruct (scan_seats_spec ps Hps (S (length ps)) start_index)
    as (tested & found & Hs & Hlen & Hseq & Hf).
  fold n in Hseq.
  exists (default start_index found), tested.
  unfold get_next_active_player, seats_tested. fold ps. rewrite Hs.
  cbn [mbind result_bind].
  split; [reflexivity|]. split; [reflexivity|]. split; [exact Hlen|].
  split; [exact Hseq|]. split.
  - (* one drop at most *)
    destruct (wraps_run ps tested ((start_index + 1) mod n)) as [_ Hw].
    + apply seat_mod_range, Hps.
    + intros j Hj. rewrite Hseq by exact Hj. f_equal. fold n.
      rewrite Zplus_mod_idemp_l. reflexivity.
    + apply Hw. fold n.
      pose proof (seat_mod_range ps Hps (start_index + 1)) as Hr. fold n in Hr.
      unfold n in *. lia.
  - destruct found as [r|]; simpl.
    + left. destruct Hf as (m & Hm & Hr & Ha & Hidle). fold n in Hr.
      assert (Hmn : Z.of_nat m < n).
      { (* a full lap without a seat that acts would make [r] idle *)
        destruct (Z.lt_ge_cases (Z.of_nat m) n) as [|Hge]; [assumption|].
        assert (m = length ps) by (unfold n in *; lia). subst m.
        exfalso. destruct (Hidle 0%nat ltac:(unfold n in *; lia)) as (q & Hq & Hc).
        destruct Ha as (p & Hp & Hact). unfold cannot_act in Hc.
        fold n in Hq, Hp.
        assert (r mod n = (start_index + 1 + Z.of_nat 0) mod n) as Heq.
        { rewrite Hr. fold n. rewrite Z.mod_mod by lia.
          rewrite <- (Z.mod_add (start_index + 1 + Z.of_nat 0) 1 n) by lia.
          f_equal. unfold n. lia. }
        rewrite Heq in Hp. congruence. }
      exists (Z.of_nat m + 1). split; [lia|]. split.
      { rewrite Hr. f_equal. lia. }
      split.
      * destruct Ha as (p & Hp & Hact). exists p. split; [|exact Hact].
        fold n in Hp. rewrite <- Hp. f_equal. f_equal.
        rewrite Hr, Z.mod_mod by lia. reflexivity.
      * intros j Hj.
        destruct (Hidle (Z.to_nat (j - 1)) ltac:(lia)) as (q & Hq & Hc).
        exists q. split; [|exact Hc]. fold n in Hq. rewrite <- Hq.
        f_equal. f_equal. f_equal. lia.
    + right. destruct Hf as (_ & Hidle). split; [|reflexivity].
      apply (idle_lap_all_idle ps Hps start_index). exact Hidle.
Qed.

(** C6, the empty table. With no seat at the table,
    [get_next_active_player] raises [ZeroDivisionError] where the
    statement has it return the start index. *)
Lemma next_active_seat_no_seats :
  get_next_active_player new_Game 0 = Raise ZeroDivisionError /\
  ~ next_active_seat_claim new_Game 0.
Proof.
  split; [reflexivity|].
  intros (r & tested & Hr & _). vm_compute in Hr. discriminate.
Qed.

(** C6. On every table with at least one seat and from every
    start index, [get_next_active_player] returns; it tests at most seats+1
    seats, going forward round the table and dropping back to the first
    seat at most once; the seat it returns is the first one that is in the
    hand and not all-in, so never a folded or all-in one, and when no such
    seat exists it returns the start index unchanged. *)
Theorem next_active_seat_correct (g : Game) (start_index : Z) :
  players g <> [] -> next_active_seat_claim g start_index.
Proof. apply next_active_seat_seated. Qed.

(** ** The payload of [get_state] *)

Lemma hand_to_dicts_dealt (h : list slot) :
  dealt h -> exists ds, hand_to_dicts h = Ok ds.
Proof.
  induction 1 as [|c h [x ->] _ (ds & IH)]; simpl.
  - eauto.
  - rewrite IH. simpl. eauto.
Qed.

Lemma Player_to_dict_hidden (p : Player) :
  (is_bot p && in_hand p = false -> dealt (hand p)) ->
  exists d, Player_to_dict p (false || negb (in_hand p)) = Ok d /\
            redacted_view p d.
Proof.
  intros Hd. unfold Player_to_dict, redacted_view.
  destruct (is_bot p) eqn:Hb, (in_hand p) eqn:Hi; simpl in *.
  1: eexists; split; [reflexivity | reflexivity].
  all: destruct (hand_to_dicts_dealt (hand p) (Hd eq_refl)) as (ds & Hds);
       rewrite Hds; simpl; eexists; split; [reflexivity | reflexivity].
Qed.

Lemma players_to_dicts_hidden (ps : list Player) :
  Forall (fun p => is_bot p && in_hand p = false -> dealt (hand p)) ps ->
  exists ds, players_to_dicts ps false = Ok ds /\
    forall k p, ps !! k = Some p ->
      exists d, ds !! k = Some d /\ redacted_view p d.
Proof.
  induction 1 as [|p ps Hp _ (ds & Hds & IH)].
  - exists []. split; [reflexivity|]. intros k p Hk. discriminate.
  - destruct (Player_to_dict_hidden p Hp) as (d & Hd & Hv).
    exists (d :: ds). split.
    + cbn [players_to_dicts]. rewrite Hd. cbn [mbind result_bind].
      rewrite Hds. reflexivity.
    + intros [|k] q Hk; simpl in Hk.
      * injection Hk as <-. exists d. auto.
      * apply IH, Hk.
Qed.

(** C9, two tables. The payload is one for all recipients; it shows
    the cards of a bot that has folded, and it puts two placeholders for a
    bot that holds no card yet. *)
Lemma redaction_shows_folded_bot :
  ~ redaction_claim folded_bot_table 0 /\ ~ redaction_claim seated_table 0.
Proof.
  split; intros (payload & Hp & H).
  - destruct (H 1%nat _ eq_refl) as (d & Hd & Hh).
    vm_compute in Hp. injection Hp as <-.
    vm_compute in Hd. injection Hd as <-.
    vm_compute in Hh. discriminate.
  - destruct (H 1%nat _ eq_refl) as (d & Hd & Hh).
    vm_compute in Hp. injection Hp as <-.
    vm_compute in Hd. injection Hd as <-.
    vm_compute in Hh. discriminate.
Qed.

(** C9. In the payload that [get_state] makes without
    [show_all_cards], the hole cards of a player appear when the player is
    not a bot or is no longer in the hand; the cards of a bot that is in
    the hand are replaced with two empty placeholders, whatever the number
    of cards it holds. *)
Theorem get_state_redacts_bots_in_hand (g : Game) :
  shown_cards_dealt g ->
  exists payload,
    get_state g false = Ok payload /\
    forall k p, players g !! k = Some p ->
      exists d, s_players payload !! k = Some d /\ redacted_view p d.
Proof.
  intros [Hcc Hps].
  destruct (players_to_dicts_hidden (players g) Hps) as (ds & Hds & Hview).
  destruct (hand_to_dicts_dealt _ Hcc) as (cc & Hc).
  unfold get_state. rewrite Hds. cbn [mbind result_bind]. rewrite Hc.
  cbn [mbind result_bind]. eexists. split; [reflexivity|]. exact Hview.
Qed.

(** ** Sending the state *)

Lemma players_to_dicts_dealt (ps : list Player) (show_all_cards : bool) :
  Forall (fun p => dealt (hand p)) ps ->
  exists ds, players_to_dicts ps show_all_cards = Ok ds.
Proof.
  induction 1 as [|p ps Hp _ (ds & Hds)]; [exists []; reflexivity|].
  cbn [players_to_dicts]. unfold Player_to_dict.
  destruct (hand_to_dicts_dealt (hand p) Hp) as (h & Hh).
  destruct (_ || negb (is_bot p)); [rewrite Hh|];
    cbn [mbind result_bind]; rewrite Hds; cbn [mbind result_bind]; eauto.
Qed.

(** With every card a dealt one the payload is built, and sent. *)
Lemma emit_all_dealt (g : Game) (show_all_cards : bool) :
  all_dealt g -> emit_game_state g show_all_cards = Ok tt.
Proof.
  intros [Hcc Hps]. unfold emit_game_state, get_state.
  destruct (players_to_dicts_dealt (players g) show_all_cards Hps) as (ds & ->).
  destruct (hand_to_dicts_dealt _ Hcc) as (cc & ->).
  reflexivity.
Qed.

Lemma all_dealt_hands (g g' : Game) :
  community_cards g' = community_cards g ->
  hand <$> players g' = hand <$> players g ->
  all_dealt g -> all_dealt g'.
Proof.
  intros Hcc Hh [H1 H2]. split; [rewrite Hcc; exact H1|].
  apply (Forall_fmap hand (fun h => dealt h)). rewrite Hh.
  apply Forall_fmap. exact H2.
Qed.

Lemma hands_alter (f : Player -> Player) (k : nat) (ps : list Player) :
  (forall p, hand (f p) = hand p) -> hand <$> alter f k ps = hand <$> ps.
Proof.
  intros Hf.
  rewrite (list_fmap_alter hand f id) by (apply Forall_true; intros p; apply Hf).
  apply list_alter_id. reflexivity.
Qed.

Lemma all_dealt_update (k : nat) (f : Player -> Player) (g : Game) :
  (forall p, hand (f p) = hand p) ->
  all_dealt g -> all_dealt (update_player k f g).
Proof.
  intros Hf. apply all_dealt_hands; [reflexivity|].
  unfold update_player; simpl. apply hands_alter, Hf.
Qed.

(** ** Bets and raises *)

(** The state is sent after an action that has kept the cards. *)
Lemma emit_after_action (g g2 : Game) :
  all_dealt g ->
  community_cards g2 = community_cards g ->
  hand <$> players g2 = hand <$> players g ->
  emit_game_state g2 false = Ok tt.
Proof.
  intros Hd Hcc Hh. apply emit_all_dealt, (all_dealt_hands g); assumption.
Qed.

Ltac cards_kept :=
  try reflexivity;
  unfold update_player, set_current_bet, set_last_raise;
  cbn [players community_cards set_players];
  rewrite ?hands_alter by reflexivity; reflexivity.


(** C3, on two tables.  A raise to 50 below zero is taken as it is: the
    bet of the player becomes -50, which is no legal bet, and 50 chips
    come to the stack.  And on a board that holds a card of the empty
    deck the action raises [AttributeError] when it sends the state. *)
Lemma bet_below_zero_is_not_clamped :
  ~ clamping_claim seated_table 0 "raise" (-50) /\
  ~ clamping_claim undealt_board 0 "raise" 100.
Proof.
  split; intros H; destruct (H you eq_refl) as (g' & r & p' & Hh & Hp' & Hn & _).
  - vm_compute in Hh. injection Hh as <- <-.
    vm_compute in Hp'. injection Hp' as <-.
    destruct Hn as [[H0 _] _]. vm_compute in H0. apply H0. reflexivity.
  - vm_compute in Hh. discriminate.
Qed.


(** ** Blinds *)

Lemma get_next_active_player_seated (g : Game) (s r : Z) :
  get_next_active_player g s = Ok r -> players g <> [].
Proof.
  intros H Hps. unfold get_next_active_player in H. rewrite Hps in H.
  simpl in H. discriminate.
Qed.

Lemma first_to_act_seat (ps : list Player) (s r : Z) :
  ps <> [] -> first_to_act ps s r ->
  0 <= r < Z.of_nat (length ps) /\
  exists p, ps !! Z.to_nat r = Some p /\ can_act p = true.
Proof.
  intros Hps (k & _ & -> & Hp & _). split; [|exact Hp].
  apply seat_mod_range, Hps.
Qed.

(** The seat that [get_next_active_player] returns: one that can act, or
    the start index when no seat can. *)
Lemma get_next_active_player_cases (g : Game) (s r : Z) :
  get_next_active_player g s = Ok r ->
  (0 <= r < Z.of_nat (length (players g)) /\
   exists p, players g !! Z.to_nat r = Some p /\ can_act p = true) \/
  (Forall cannot_act (players g) /\ r = s).
Proof.
  intros H. pose proof (get_next_active_player_seated g s r H) as Hps.
  destruct (next_active_seat_seated g s Hps) as (r' & tested & Hr & _ & _ & _ & _ & Hcase).
  rewrite H in Hr. injection Hr as <-.
  destruct Hcase as [Hfirst | Hnone]; [left | right; exact Hnone].
  apply (first_to_act_seat _ s); assumption.
Qed.

(** The seat before one that can act hands the turn to it. *)
Lemma get_next_active_player_next (g : Game) (s : Z) (p : Player) :
  0 <= s < Z.of_nat (length (players g)) ->
  players g !! Z.to_nat s = Some p -> can_act p = true ->
  get_next_active_player g (s - 1) = Ok s.
Proof.
  intros Hs Hp Hact. unfold get_next_active_player. cbn [scan_seats].
  replace (s - 1 + 1) with s by lia.
  unfold py_mod. destruct (Z.eqb_spec (Z.of_nat (length (players g))) 0); [lia|].
  cbn [mbind result_bind]. rewrite Z.mod_small by lia.
  unfold py_get. rewrite py_index_seat by lia. rewrite Hp.
  cbn [mbind result_bind]. rewrite Hact. reflexivity.
Qed.

Lemma cannot_act_not_can (ps : list Player) (k : nat) (p : Player) :
  Forall cannot_act ps -> ps !! k = Some p -> can_act p = true -> False.
Proof.
  intros Hall Hk Hact. rewrite Forall_lookup in Hall.
  specialize (Hall k p Hk). unfold cannot_act in Hall. congruence.
Qed.

(** A check by a player without chips marks the player all-in. *)
Lemma check_marks_all_in (g : Game) (i : Z) (p : Player) :
  py_get (players g) i = Ok p -> chips p = 0 -> all_dealt g ->
  exists g' q, handle_player_action g i check = Ok (g', false) /\
               py_get (players g') i = Ok q /\
               q = set_status "ALL-IN" (set_is_all_in true p) /\
               is_all_in q = true /\ status q = "ALL-IN"%string /\
               chips q = 0 /\ bet q = bet p /\ in_hand q = in_hand p.
Proof.
  intros Hp Hc Hdealt. destruct (py_get_index _ _ _ Hp) as (k & Hi & Hk).
  unfold handle_player_action. rewrite Hi, Hp. cbn [mbind result_bind].
  simpl bool_decide. cbv beta iota zeta. rewrite Hp. cbn [mbind result_bind].
  rewrite Hc. cbn [Z.eqb].
  change (amount_of check) with (@Ok Z 0). cbn [mbind result_bind].
  rewrite (emit_after_action g _ Hdealt) by cards_kept.
  cbn [mbind result_bind]. eexists _, _. split; [reflexivity|].
  split; [apply (py_get_alter go_all_in _ _ _ p Hi Hk)|].
  unfold go_all_in. simpl. auto 10.
Qed.

Lemma post_blind_posted (blind : Z) (p : Player) :
  can_act p = true ->
  blind_posted blind p (set_bet (Z.min blind (chips p))
                          (set_chips (chips p - Z.min blind (chips p)) p)).
Proof.
  intros Hact. unfold can_act in Hact.
  apply andb_true_iff in Hact as [Hin Hall]. apply negb_true_iff in Hall.
  unfold blind_posted; simpl. repeat split; auto; lia.
Qed.

(** C10. When the small blind and the big blind fall on two seats,
    [post_blinds] clamps each blind to the stack of its seat: a stack no
    larger than the blind leaves the player with no chips and a bet equal
    to the stack.  It leaves [is_all_in] false and the status as it was,
    so [get_next_active_player] still selects the seat.  The flag is set
    inside [handle_player_action]: when every card on the table is a
    dealt one, so that the state can be sent, a later check of the player
    without chips returns and leaves the player with [is_all_in] true and
    the status ["ALL-IN"]. *)
Theorem post_blinds_leaves_short_stack_active (g : Game) (sb bb : Z) :
  get_next_active_player g (dealer_pos g) = Ok sb ->
  get_next_active_player g sb = Ok bb ->
  sb <> bb ->
  exists g' p_sb p_bb q_sb q_bb,
    post_blinds g = Ok g' /\
    players g !! Z.to_nat sb = Some p_sb /\
    players g !! Z.to_nat bb = Some p_bb /\
    players g' !! Z.to_nat sb = Some q_sb /\
    players g' !! Z.to_nat bb = Some q_bb /\
    blind_posted (small_blind g) p_sb q_sb /\
    blind_posted (big_blind g) p_bb q_bb /\
    get_next_active_player g' (sb - 1) = Ok sb /\
    get_next_active_player g' (bb - 1) = Ok bb /\
    (chips q_sb = 0 -> all_dealt g ->
     exists g'' q, handle_player_action g' sb check = Ok (g'', false) /\
                   py_get (players g'') sb = Ok q /\
                   q = set_status "ALL-IN" (set_is_all_in true q_sb) /\
                   is_all_in q = true /\ status q = "ALL-IN"%string /\
                   chips q = 0 /\ bet q = bet q_sb /\ in_hand q = in_hand q_sb) /\
    (chips q_bb = 0 -> all_dealt g ->
     exists g'' q, handle_player_action g' bb check = Ok (g'', false) /\
                   py_get (players g'') bb = Ok q /\
                   q = set_status "ALL-IN" (set_is_all_in true q_bb) /\
                   is_all_in q = true /\ status q = "ALL-IN"%string /\
                   chips q = 0 /\ bet q = bet q_bb /\ in_hand q = in_hand q_bb).
Proof.
  intros Hsb Hbb Hne.
  pose proof (get_next_active_player_seated _ _ _ Hsb) as Hps.
  (* both blinds fall on seats that can act *)
  assert (Hsb_seat : 0 <= sb < Z.of_nat (length (players g)) /\
            exists p, players g !! Z.to_nat sb = Some p /\ can_act p = true).
  { destruct (get_next_active_player_cases _ _ _ Hsb) as [H | [Hnone ->]]; [exact H|].
    destruct (get_next_active_player_cases _ _ _ Hbb) as [(_ & p & Hp & Hact) | [_ Heq]].
    - destruct (cannot_act_not_can _ _ _ Hnone Hp Hact).
    - congruence. }
  destruct Hsb_seat as (Hsr & p_sb & Hpsb & Hact_sb).
  assert (Hbb_seat : 0 <= bb < Z.of_nat (length (players g)) /\
            exists p, players g !! Z.to_nat bb = Some p /\ can_act p = true).
  { destruct (get_next_active_player_cases _ _ _ Hbb) as [H | [Hnone _]]; [exact H|].
    destruct (cannot_act_not_can _ _ _ Hnone Hpsb Hact_sb). }
  destruct Hbb_seat as (Hbr & p_bb & Hpbb & Hact_bb).
  assert (Hk : Z.to_nat sb <> Z.to_nat bb) by lia.
  set (f_sb := fun p : Player =>
                 set_bet (Z.min (small_blind g) (chips p_sb))
                   (set_chips (chips p - Z.min (small_blind g) (chips p_sb)) p)).
  set (f_bb := fun p : Player =>
                 set_bet (Z.min (big_blind g) (chips p_bb))
                   (set_chips (chips p - Z.min (big_blind g) (chips p_bb)) p)).
  set (g1 := post_blind (Z.to_nat sb) (Z.min (small_blind g) (chips p_sb)) g).
  set (g2 := post_blind (Z.to_nat bb) (Z.min (big_blind g) (chips p_bb)) g1).
  assert (Hlen1 : length (players g1) = length (players g)).
  { unfold g1, post_blind, update_player; simpl. apply length_alter. }
  assert (Hlen2 : length (players g2) = length (players g)).
  { unfold g2, post_blind, update_player; simpl. rewrite length_alter. exact Hlen1. }
  assert (H1sb : players g1 !! Z.to_nat sb = Some (f_sb p_sb)).
  { unfold g1, post_blind, update_player; simpl.
    rewrite list_lookup_alter_eq, Hpsb. reflexivity. }
  assert (H1bb : players g1 !! Z.to_nat bb = Some p_bb).
  { unfold g1, post_blind, update_player; simpl.
    rewrite list_lookup_alter_ne by exact Hk. exact Hpbb. }
  assert (H2sb : players g2 !! Z.to_nat sb = Some (f_sb p_sb)).
  { unfold g2, post_blind, update_player; cbn [players set_players].
    rewrite list_lookup_alter_ne by auto. exact H1sb. }
  assert (H2bb : players g2 !! Z.to_nat bb = Some (f_bb p_bb)).
  { unfold g2, post_blind, update_player; cbn [players set_players].
    rewrite list_lookup_alter_eq, H1bb. reflexivity. }
  assert (Hps2 : players g2 <> []).
  { intros E. rewrite E in Hlen2. destruct (players g); [congruence | discriminate]. }
  destruct (next_active_seat_seated g2 bb Hps2) as (next & _ & Hnext & _).
  set (g' := set_current_player_index next
               (set_last_raise (big_blind g2) (set_current_bet (big_blind g2) g2))).
  assert (Hg_sb : py_get (players g) sb = Ok p_sb).
  { unfold py_get. rewrite py_index_seat by exact Hsr. rewrite Hpsb. reflexivity. }
  assert (Hg_bb : py_get (players g1) bb = Ok p_bb).
  { unfold py_get. rewrite py_index_seat by (rewrite Hlen1; exact Hbr).
    rewrite H1bb. reflexivity. }
  assert (Hpost : post_blinds g = Ok g').
  { unfold post_blinds. rewrite Hsb. cbn [mbind result_bind]. rewrite Hbb.
    cbn [mbind result_bind]. rewrite Hg_sb. cbn [mbind result_bind].
    rewrite (py_index_seat (players g) sb) by exact Hsr. cbv iota. fold g1.
    rewrite Hg_bb. cbn [mbind result_bind].
    rewrite (py_index_seat (players g1) bb) by (rewrite Hlen1; exact Hbr).
    cbv iota. replace (big_blind g1) with (big_blind g) by reflexivity. fold g2.
    rewrite Hnext. reflexivity. }
  assert (Hact_sb' : can_act (f_sb p_sb) = true) by exact Hact_sb.
  assert (Hact_bb' : can_act (f_bb p_bb) = true) by exact Hact_bb.
  exists g', p_sb, p_bb, (f_sb p_sb), (f_bb p_bb).
  split; [exact Hpost|]. split; [exact Hpsb|]. split; [exact Hpbb|].
  split; [exact H2sb|]. split; [exact H2bb|].
  split; [apply post_blind_posted, Hact_sb|].
  split; [apply post_blind_posted, Hact_bb|].
  split.
  { apply (get_next_active_player_next g' sb (f_sb p_sb)); auto.
    change (players g') with (players g2). rewrite Hlen2. exact Hsr. }
  split.
  { apply (get_next_active_player_next g' bb (f_bb p_bb)); auto.
    change (players g') with (players g2). rewrite Hlen2. exact Hbr. }
  assert (Hdealt' : all_dealt g -> all_dealt g').
  { intros Hdealt. apply (all_dealt_hands g); [reflexivity | | exact Hdealt].
    unfold g', g2, g1, post_blind, update_player. cbn [players set_players
      set_current_player_index set_last_raise set_current_bet].
    rewrite !hands_alter by reflexivity. reflexivity. }
  split; intros Hz Hdealt; apply check_marks_all_in; auto;
    change (players g') with (players g2);
    unfold py_get; rewrite py_index_seat by (rewrite Hlen2; assumption).
  - rewrite H2sb. reflexivity.
  - rewrite H2bb. reflexivity.
Qed.

(** After [play_hand] has reset two players or more, everyone can act and
    the two blinds fall on the two seats after the button. *)
Lemma blinds_fall_on_two_seats (g : Game) :
  (2 <= length (players g))%nat ->
  Forall (fun p => can_act p = true) (players g) ->
  let n := Z.of_nat (length (players g)) in
  get_next_active_player g (dealer_pos g) = Ok ((dealer_pos g + 1) mod n) /\
  get_next_active_player g ((dealer_pos g + 1) mod n)
  = Ok (((dealer_pos g + 1) mod n + 1) mod n) /\
  (dealer_pos g + 1) mod n <> ((dealer_pos g + 1) mod n + 1) mod n.
Proof.
  intros Hlen Hall n.
  assert (Hps : players g <> []) by (destruct (players g); [simpl in Hlen; lia | discriminate]).
  assert (Hnext : forall s, get_next_active_player g s = Ok ((s + 1) mod n)).
  { intros s. unfold get_next_active_player. cbn [scan_seats]. fold n.
    unfold n. rewrite py_mod_seat by exact Hps. cbn [mbind result_bind].
    destruct (seat_lookup (players g) Hps (s + 1)) as (p & Hp & Hget).
    rewrite Hget. cbn [mbind result_bind].
    rewrite Forall_lookup in Hall. rewrite (Hall _ _ Hp). reflexivity. }
  split; [apply Hnext|]. split; [apply Hnext|].
  pose proof (seat_mod_range (players g) Hps (dealer_pos g + 1)) as Hr. fold n in Hr.
  intros E.
  destruct (Z.eq_dec ((dealer_pos g + 1) mod n + 1) n) as [Hw | Hw].
  - rewrite Hw, Z.mod_same in E by lia. unfold n in *. lia.
  - rewrite (Z.mod_small ((dealer_pos g + 1) mod n + 1) n) in E by lia. lia.
Qed.

(** ** The betting round *)

Lemma deal_community_keeps (n : nat) : forall g : Game,
  players (deal_community n g) = players g /\
  pot (deal_community n g) = pot g /\
  current_bet (deal_community n g) = current_bet g.
Proof.
  induction n as [|n IH]; intros g; simpl; [auto|].
  destruct (Deck_deal (deck g)) as [card rest].
  destruct (IH (set_community_cards (community_cards g ++ [card]) (set_deck rest g)))
    as (-> & -> & ->).
  auto.
Qed.

Lemma count_where_cleared (ps : list Player) :
  count_where can_act (set_bet 0 <$> ps) = count_where can_act ps.
Proof.
  unfold count_where. induction ps as [|p ps IH]; [reflexivity|].
  rewrite fmap_cons, !filter_cons.
  change (can_act (set_bet 0 p)) with (can_act p).
  destruct (decide (can_act p = true)); simpl; rewrite IH; reflexivity.
Qed.

Lemma seats_from_cleared (ps : list Player) : forall k,
  seats_from in_hand k (set_bet 0 <$> ps) = seats_from in_hand k ps.
Proof.
  induction ps as [|p ps IH]; intros k; [reflexivity|].
  rewrite fmap_cons. simpl. rewrite IH. reflexivity.
Qed.

Lemma seats_from_length (f : Player -> bool) (ps : list Player) : forall k,
  length (seats_from f k ps) = count_where f ps.
Proof.
  unfold count_where. induction ps as [|p ps IH]; intros k; [reflexivity|].
  simpl. rewrite filter_cons.
  destruct (f p) eqn:E; destruct (decide (f p = true)); try congruence;
    simpl; rewrite IH; reflexivity.
Qed.

Lemma several_in_hand_collect (g : Game) :
  several_in_hand (collect_bets g) = several_in_hand g.
Proof.
  unfold several_in_hand, seats_where. rewrite collect_bets_eq. simpl.
  rewrite seats_from_cleared. reflexivity.
Qed.

Lemma several_in_hand_count (g : Game) :
  several_in_hand g = true <-> (2 <= count_where in_hand (players g))%nat.
Proof.
  unfold several_in_hand, seats_where. rewrite seats_from_length.
  rewrite Nat.ltb_lt. lia.
Qed.

(** Where [betting_round] stands once it has reset the round and dealt the
    community cards. *)
Lemma begin_round_spec (g : Game) (stage_name : string) (cards_to_deal : Z) :
  stage_name = "Pre-Flop"%string \/ players g <> [] ->
  exists g0,
    begin_round g stage_name cards_to_deal = Ok g0 /\
    players g0 = (if bool_decide (stage_name = "Pre-Flop"%string)
                  then players g else set_bet 0 <$> players g) /\
    pot g0 = pot g /\
    current_bet g0 = (if bool_decide (stage_name = "Pre-Flop"%string)
                      then current_bet g else 0).
Proof.
  intros Hstage. unfold begin_round.
  destruct (decide (stage_name = "Pre-Flop"%string)) as [E | E].
  - rewrite (bool_decide_eq_false_2 (stage_name <> "Pre-Flop"%string)) by tauto.
    rewrite (bool_decide_eq_true_2 _ E). cbn [mbind result_bind].
    eexists. split; [reflexivity|].
    destruct (0 <? cards_to_deal).
    + destruct (deal_community_keeps (Z.to_nat cards_to_deal)
                  (set_deck (Deck_deal (deck (set_stage stage_name g))).2
                            (set_stage stage_name g))) as (-> & -> & ->).
      auto.
    + auto.
  - rewrite (bool_decide_eq_true_2 (stage_name <> "Pre-Flop"%string) E).
    rewrite (bool_decide_eq_false_2 _ E).
    destruct Hstage as [? | Hps]; [contradiction|].
    set (g1 := set_players (set_bet 0 <$> players (set_last_raise
                 (big_blind (set_current_bet 0 (set_stage stage_name g)))
                 (set_current_bet 0 (set_stage stage_name g))))
                 (set_last_raise
                    (big_blind (set_current_bet 0 (set_stage stage_name g)))
                    (set_current_bet 0 (set_stage stage_name g)))).
    assert (Hps1 : players g1 <> []).
    { unfold g1; simpl. destruct (players g); [congruence | discriminate]. }
    destruct (next_active_seat_seated g1 (dealer_pos g1) Hps1) as (i & _ & Hi & _).
    cbv zeta. fold g1. rewrite Hi. cbn [mbind result_bind].
    eexists. split; [reflexivity|].
    destruct (0 <? cards_to_deal).
    + destruct (deal_community_keeps (Z.to_nat cards_to_deal)
                  (set_deck (Deck_deal (deck (set_current_player_index i g1))).2
                            (set_current_player_index i g1))) as (-> & -> & ->).
      auto.
    + auto.
Qed.

(** C7. A betting round that starts with fewer than two seats able to act
    and with no bet open (the current bet is zero before the flop; the
    later rounds reset it) asks nobody for an action: it collects the bets
    of the round into the pot and reports whether two or more players are
    still in the hand. *)
Theorem betting_round_closes_without_action
        (get_bot_action : Game -> Z -> Z -> string -> ActionData)
        (wait_for_player_action : nat -> Game -> Z -> Z -> ActionData)
        (fuel : nat) (g : Game) (stage_name : string) (cards_to_deal : Z) :
  players g <> [] ->
  (count_where can_act (players g) < 2)%nat ->
  (stage_name = "Pre-Flop"%string -> current_bet g = 0) ->
  exists g0,
    begin_round g stage_name cards_to_deal = Ok g0 /\
    betting_round get_bot_action wait_for_player_action fuel g stage_name
                  cards_to_deal
    = Some (Ok (collect_bets g0, several_in_hand g, [])) /\
    players g0 = (if bool_decide (stage_name = "Pre-Flop"%string)
                  then players g else set_bet 0 <$> players g) /\
    pot (collect_bets g0) = pot g + sum_bets (players g0) /\
    Forall (fun p => bet p = 0) (players (collect_bets g0)) /\
    (several_in_hand g = true <-> (2 <= count_where in_hand (players g))%nat).
Proof.
  intros Hps Hfew Hbet.
  destruct (begin_round_spec g stage_name cards_to_deal (or_intror Hps))
    as (g0 & Hbegin & Hplayers & Hpot & Hcur).
  exists g0. split; [exact Hbegin|].
  assert (Hcount : count_where can_act (players g0) = count_where can_act (players g)).
  { rewrite Hplayers. destruct (bool_decide _); [reflexivity | apply count_where_cleared]. }
  assert (Hzero : current_bet g0 = 0).
  { rewrite Hcur. destruct (bool_decide_reflect (stage_name = "Pre-Flop"%string)); auto. }
  assert (Hsev : several_in_hand g0 = several_in_hand g).
  { unfold several_in_hand, seats_where. rewrite Hplayers.
    destruct (bool_decide _); [reflexivity | rewrite seats_from_cleared; reflexivity]. }
  split.
  { unfold betting_round. rewrite Hbegin.
    rewrite Hcount, Hzero.
    destruct (Nat.ltb_spec (count_where can_act (players g)) 2); [|lia].
    cbn [andb Z.eqb]. rewrite several_in_hand_collect, Hsev. reflexivity. }
  split; [exact Hplayers|].
  destruct (collect_bets_pot_and_bets g0) as (Hp & Hb).
  split; [rewrite Hp, Hpot; reflexivity|].
  split; [exact Hb|].
  apply several_in_hand_count.
Qed.

(** ** The hand ranker returns *)

Lemma insert_sorted_Permutation {A} (before : A -> A -> bool) (x : A) (l : list A) :
  insert_sorted before x l ≡ₚ x :: l.
Proof.
  induction l as [|y l IH]; simpl; [reflexivity|].
  destruct (before x y); [reflexivity|].
  rewrite IH. apply Permutation_swap.
Qed.

Lemma sorted_from_Permutation {A} (before : A -> A -> bool) (l : list A) :
  forall acc,
    fold_left (fun acc x => insert_sorted before x acc) l acc ≡ₚ l ++ acc.
Proof.
  induction l as [|x l IH]; intros acc; simpl; [reflexivity|].
  rewrite IH, insert_sorted_Permutation. symmetry. apply Permutation_middle.
Qed.

Lemma sorted_Permutation {A} (before : A -> A -> bool) (l : list A) :
  sorted before l ≡ₚ l.
Proof.
  unfold sorted. rewrite sorted_from_Permutation, app_nil_r. reflexivity.
Qed.

Lemma sorted_length {A} (before : A -> A -> bool) (l : list A) :
  length (sorted before l) = length l.
Proof. apply Permutation_length, sorted_Permutation. Qed.

Lemma cards_of_dealt (h : list slot) :
  dealt h -> exists cs, cards_of h = Ok cs /\ length cs = length h.
Proof.
  induction 1 as [|c h [x ->] _ (cs & IH & Hlen)]; simpl.
  - eauto.
  - rewrite IH. simpl. eexists. split; [reflexivity|]. simpl. lia.
Qed.

Lemma py_get_head {A} (x : A) (l : list A) : py_get (x :: l) 0 = Ok x.
Proof.
  unfold py_get. rewrite py_index_seat by (simpl; lia). reflexivity.
Qed.

Lemma py_get_elem_of {A} (l : list A) (i : Z) (a : A) :
  py_get l i = Ok a -> a ∈ l.
Proof.
  intros H. destruct (py_get_index _ _ _ H) as (k & _ & Hk).
  apply list_elem_of_lookup. eauto.
Qed.

Lemma all_consecutive_five (values : list Z) :
  length values = 5%nat -> exists b, all_consecutive (seq 0 4) values = Ok b.
Proof.
  intros H.
  destruct values as [|v0 [|v1 [|v2 [|v3 [|v4 [|]]]]]]; simpl in H; try discriminate.
  cbv -[Z.sub Z.eqb].
  destruct (v0 - 1 =? v1); [|eauto].
  destruct (v1 - 1 =? v2); [|eauto].
  destruct (v2 - 1 =? v3); [|eauto].
  destruct (v3 - 1 =? v4); eauto.
Qed.

Lemma counter_add_cons (r : Rank) (counts : list (Rank * Z)) :
  exists rc rest, counter_add r counts = rc :: rest.
Proof.
  destruct counts as [|[r' c] rest]; simpl; [eauto|].
  destruct (bool_decide (r' = r)); eauto.
Qed.

Lemma Counter_from_cons (ranks : list Rank) : forall acc rc rest,
  acc = rc :: rest ->
  exists rc' rest',
    fold_left (fun counts r => counter_add r counts) ranks acc = rc' :: rest'.
Proof.
  induction ranks as [|r ranks IH]; intros acc rc rest ->; simpl; [eauto|].
  destruct (counter_add_cons r (rc :: rest)) as (rc' & rest' & E).
  apply (IH _ rc' rest' E).
Qed.

Lemma Counter_cons (r : Rank) (ranks : list Rank) :
  exists rc rest, Counter (r :: ranks) = rc :: rest.
Proof.
  unfold Counter. cbn [fold_left].
  destruct (counter_add_cons r []) as (rc & rest & E).
  apply (Counter_from_cons ranks _ rc rest E).
Qed.

(** The rank that occurs a given number of times, when that number is
    among the counts. *)
Lemma rank_with_count (counts : list (Rank * Z)) (m : Z) :
  m ∈ snd <$> counts ->
  exists r, py_get (fst <$> filter (fun rc => rc.2 = m) counts) 0 = Ok r.
Proof.
  intros H. apply list_elem_of_fmap in H as ([r c] & Hm & Hin). simpl in Hm. subst m.
  assert (Hf : (r, c) ∈ filter (fun rc : Rank * Z => rc.2 = c) counts).
  { apply list_elem_of_filter. auto. }
  destruct (filter (fun rc : Rank * Z => rc.2 = c) counts) as [|rc l].
  - inversion Hf.
  - rewrite fmap_cons. rewrite py_get_head. eauto.
Qed.

Lemma py_get_first {A} (l : list A) :
  (0 < length l)%nat -> exists x, py_get l 0 = Ok x.
Proof.
  destruct l as [|x l]; simpl; [lia|]. intros _. rewrite py_get_head. eauto.
Qed.

Lemma Counter_first (ranks : list Rank) :
  (0 < length ranks)%nat -> exists rc rest, Counter ranks = rc :: rest.
Proof.
  destruct ranks as [|r ranks]; simpl; [lia|]. intros _. apply Counter_cons.
Qed.

(** On five cards [_calculate_hand_rank] raises nothing and returns one of
    the ten categories. *)
Lemma _calculate_hand_rank_returns (h : list slot) :
  dealt h -> length h = 5%nat ->
  exists rank_val cards,
    _calculate_hand_rank h = Ok (rank_val, cards) /\ 1 <= rank_val <= 10.
Proof.
  intros Hd Hlen. unfold _calculate_hand_rank.
  destruct (cards_of_dealt h Hd) as (cs & -> & Hcs). cbn [mbind result_bind].
  set (hand1 := sorted (fun x y => value y <? value x) cs).
  assert (Hh1 : length hand1 = 5%nat).
  { unfold hand1. rewrite sorted_length. congruence. }
  destruct (all_consecutive_five (value <$> hand1)) as (consecutive & ->).
  { rewrite length_fmap. exact Hh1. }
  cbn [mbind result_bind].
  set (is_straight := consecutive || set_eq (rank <$> hand1) WHEEL).
  set (is_flush := bool_decide (length (remove_dups (suit <$> hand1)) = 1%nat)).
  set (hand2 := if is_straight && set_eq (rank <$> hand1) WHEEL then _ else hand1).
  destruct (py_get_first (value <$> hand1)) as (v0 & Hv0).
  { rewrite length_fmap. lia. }
  destruct (is_straight && is_flush).
  { rewrite Hv0. cbn [mbind result_bind].
    destruct (v0 =? 14); eexists; eexists; (split; [reflexivity | lia]). }
  destruct (Counter_first (rank <$> hand1)) as (rc & rest & Hcounts).
  { rewrite length_fmap. lia. }
  set (counts := Counter (rank <$> hand1)) in *.
  set (counts_vals := sorted (fun x y => y <? x) (snd <$> counts)).
  assert (Hperm : counts_vals ≡ₚ snd <$> counts) by apply sorted_Permutation.
  destruct counts_vals as [|m vals] eqn:Evals.
  { apply Permutation_length in Hperm. rewrite Hcounts in Hperm. discriminate. }
  rewrite py_get_head. cbn [mbind result_bind].
  assert (Hm : m ∈ snd <$> counts).
  { rewrite <- Hperm. left. }
  destruct (rank_with_count counts m Hm) as (r & Hr).
  destruct (Z.eqb_spec m 4) as [-> | _].
  { rewrite Hr. cbn [mbind result_bind]. eexists; eexists; (split; [reflexivity | lia]). }
  destruct (bool_decide (m :: vals = [3; 2])).
  { eexists; eexists; (split; [reflexivity | lia]). }
  destruct is_flush.
  { eexists; eexists; (split; [reflexivity | lia]). }
  destruct is_straight.
  { eexists; eexists; (split; [reflexivity | lia]). }
  destruct (Z.eqb_spec m 3) as [-> | _].
  { rewrite Hr. cbn [mbind result_bind]. eexists; eexists; (split; [reflexivity | lia]). }
  destruct (bool_decide (m :: vals = [2; 2; 1])).
  { eexists; eexists; (split; [reflexivity | lia]). }
  destruct (Z.eqb_spec m 2) as [-> | _].
  { rewrite Hr. cbn [mbind result_bind]. eexists; eexists; (split; [reflexivity | lia]). }
  eexists; eexists; (split; [reflexivity | lia]).
Qed.

(** ** The best of seven *)

Lemma combinations_spec {A} (l : list A) : forall (k : nat) (c : list A),
  c ∈ combinations k l -> length c = k /\ forall x, x ∈ c -> x ∈ l.
Proof.
  induction l as [|x t IH]; intros [|k] c Hc; simpl in Hc.
  - apply list_elem_of_singleton in Hc as ->. split; [reflexivity|]. intros y Hy. inversion Hy.
  - inversion Hc.
  - apply list_elem_of_singleton in Hc as ->. split; [reflexivity|]. intros y Hy. inversion Hy.
  - apply elem_of_app in Hc as [Hc | Hc].
    + apply list_elem_of_fmap in Hc as (c' & -> & Hc').
      destruct (IH _ _ Hc') as [Hlen Hin]. split; [simpl; lia|].
      intros y Hy. apply elem_of_cons in Hy as [-> | Hy]; [left | right; auto].
    + destruct (IH _ _ Hc) as [Hlen Hin]. split; [exact Hlen|].
      intros y Hy. right. auto.
Qed.

Lemma combinations_first {A} (l : list A) : forall k : nat,
  (k <= length l)%nat -> exists c rest, combinations k l = c :: rest.
Proof.
  induction l as [|x t IH]; intros [|k] Hk; simpl in *; eauto; [lia|].
  destruct (IH k ltac:(lia)) as (c & rest & ->).
  rewrite fmap_cons. simpl. eauto.
Qed.

(** The search keeps the highest category seen. *)
Lemma evaluate_loop_returns (combos : list (list slot)) :
  Forall (fun c => dealt c /\ length c = 5%nat) combos ->
  forall best, exists best',
    for_each evaluate_step best combos = Ok best' /\
    best.1 <= best'.1 /\
    (combos <> [] -> 1 <= best'.1).
Proof.
  induction 1 as [|c combos [Hd Hlen] _ IH]; intros best.
  - exists best. split; [reflexivity|]. split; [lia | congruence].
  - destruct (_calculate_hand_rank_returns c Hd Hlen) as (r & cs & Hr & Hrange).
    assert (Hstep : exists best1, evaluate_step best c = Ok best1 /\
                                  best.1 <= best1.1 /\ 1 <= best1.1).
    { unfold evaluate_step. rewrite Hr. cbn [mbind result_bind].
      destruct (Z.ltb_spec best.1 r).
      - eexists. split; [reflexivity|]. simpl. lia.
      - destruct ((r =? best.1) && (0 <? _compare_hands cs best.2)).
        + eexists. split; [reflexivity|]. simpl. lia.
        + eexists. split; [reflexivity|]. lia. }
    destruct Hstep as (best1 & Hs & Hle & Hone).
    destruct (IH best1) as (best' & Hf & Hle' & _).
    exists best'. cbn [for_each]. rewrite Hs. cbn [mbind result_bind].
    split; [exact Hf|]. split; intros; lia.
Qed.

(** On five cards or more [evaluate_hand] raises nothing and finds a
    category. *)
Lemma evaluate_hand_returns (h : list slot) :
  dealt h -> (5 <= length h)%nat ->
  exists rank_val cards nm,
    evaluate_hand h = Ok (rank_val, cards, nm) /\ 1 <= rank_val.
Proof.
  intros Hd Hlen. unfold evaluate_hand.
  destruct (evaluate_loop_returns (combinations 5 h)) with (best := (-1, @nil Card))
    as ([r cs] & Hf & _ & Hone).
  { apply Forall_forall. intros c Hc.
    destruct (combinations_spec h 5 c Hc) as [Hl Hin]. split; [|exact Hl].
    apply Forall_forall. intros x Hx. unfold dealt in Hd.
    rewrite Forall_forall in Hd. auto. }
  rewrite Hf. cbn [mbind result_bind].
  eexists; eexists; eexists. split; [reflexivity|].
  apply Hone. destruct (combinations_first h 5 Hlen) as (c & rest & ->). discriminate.
Qed.

(** ** Showdown *)

Lemma seats_from_spec (f : Player -> bool) (ps : list Player) : forall s k,
  k ∈ seats_from f s ps ->
  (s <= k)%nat /\ exists p, ps !! (k - s)%nat = Some p /\ f p = true.
Proof.
  induction ps as [|p ps IH]; intros s k Hk; simpl in Hk; [inversion Hk|].
  assert (Hrest : k ∈ seats_from f (S s) ps ->
                  (s <= k)%nat /\ exists q, (p :: ps) !! (k - s)%nat = Some q /\ f q = true).
  { intros H. destruct (IH _ _ H) as (Hle & q & Hq & Hf). split; [lia|].
    exists q. split; [|exact Hf].
    replace (k - s)%nat with (S (k - S s)) by lia. exact Hq. }
  destruct (f p) eqn:E; [|auto].
  apply elem_of_cons in Hk as [-> | Hk]; [|auto].
  split; [lia|]. exists p. rewrite Nat.sub_diag. auto.
Qed.

Lemma seats_from_NoDup (f : Player -> bool) (ps : list Player) : forall s,
  NoDup (seats_from f s ps).
Proof.
  induction ps as [|p ps IH]; intros s; simpl; [constructor|].
  destruct (f p); [|apply IH].
  apply NoDup_cons. split; [|apply IH].
  intros H. apply seats_from_spec in H as [H _]. lia.
Qed.

Lemma seats_where_spec (f : Player -> bool) (ps : list Player) (k : nat) :
  k ∈ seats_where f ps -> exists p, ps !! k = Some p /\ f p = true.
Proof.
  intros H. apply seats_from_spec in H as (_ & p & Hp & Hf).
  rewrite Nat.sub_0_r in Hp. eauto.
Qed.

Lemma forget_result_set (res : Z * list Card * string) (p : Player) :
  forget_result (set_hand_result res p) = forget_result p.
Proof. reflexivity. Qed.

Lemma same_stakes_lookup (g0 g : Game) (k : nat) (p0 : Player) :
  same_stakes g0 g -> players g0 !! k = Some p0 ->
  exists p, players g !! k = Some p /\ forget_result p = forget_result p0.
Proof.
  intros (Hps & _) Hk.
  assert (H : (forget_result <$> players g) !! k = Some (forget_result p0)).
  { rewrite Hps, list_lookup_fmap, Hk. reflexivity. }
  rewrite list_lookup_fmap in H.
  destruct (players g !! k) as [p|]; simpl in H; [|discriminate].
  exists p. split; [reflexivity | congruence].
Qed.

Lemma same_stakes_update (g0 g : Game) (k : nat) (res : Z * list Card * string) :
  same_stakes g0 g -> same_stakes g0 (update_player k (set_hand_result res) g).
Proof.
  intros (Hps & Hpot & Hcc). split; [|split]; [|exact Hpot|exact Hcc].
  unfold update_player; simpl.
  rewrite (list_fmap_alter forget_result (set_hand_result res) id)
    by (apply Forall_true; intros; reflexivity).
  rewrite list_alter_id by (intros; reflexivity). exact Hps.
Qed.

Lemma results_known_update (g : Game) (k : nat) (res : Z * list Card * string)
      (p : Player) (winners : list nat) :
  players g !! k = Some p ->
  (forall w, w ∈ winners -> w = k \/
     exists q, players g !! w = Some q /\ is_Some (hand_result q)) ->
  results_known (update_player k (set_hand_result res) g) winners.
Proof.
  intros Hk Hws w Hw. unfold update_player; simpl.
  destruct (decide (w = k)) as [-> | Hne].
  - rewrite list_lookup_alter_eq, Hk. simpl. eexists. split; [reflexivity|].
    simpl. eauto.
  - rewrite list_lookup_alter_ne by auto.
    destruct (Hws w Hw) as [? | H]; [congruence | exact H].
Qed.

(** One contender more in the loop of [showdown]. *)
Lemma showdown_step_returns (g0 g : Game) (done winners : list nat)
      (best_rank : Z) (k : nat) (p0 : Player) :
  same_stakes g0 g ->
  players g0 !! k = Some p0 ->
  dealt (hand p0 ++ community_cards g0) ->
  (5 <= length (hand p0 ++ community_cards g0))%nat ->
  winners `sublist_of` done ->
  results_known g winners ->
  (winners = [] /\ best_rank = -1) \/ (winners <> [] /\ 1 <= best_rank) ->
  exists g' winners' best_rank',
    showdown_step (g, winners, best_rank) k = Ok (g', winners', best_rank') /\
    same_stakes g0 g' /\
    winners' `sublist_of` done ++ [k] /\
    results_known g' winners' /\
    winners' <> [] /\ 1 <= best_rank'.
Proof.
  intros Hsame Hk Hd Hlen Hsub Hknown Hinv.
  destruct (same_stakes_lookup g0 g k p0 Hsame Hk) as (p & Hp & Hforget).
  assert (Hhand : hand p = hand p0).
  { change (hand (forget_result p) = hand (forget_result p0)). congruence. }
  destruct Hsame as (Hps & Hpot & Hcc).
  destruct (evaluate_hand_returns (hand p0 ++ community_cards g0) Hd Hlen)
    as (rank_val & cards & nm & Heval & Hone).
  unfold showdown_step. rewrite (py_get_seat _ _ _ Hp). cbn [mbind result_bind].
  rewrite Hhand, Hcc, Heval. cbn [mbind result_bind].
  set (g' := update_player k (set_hand_result (rank_val, cards, nm)) g).
  assert (Hsame' : same_stakes g0 g').
  { apply same_stakes_update. split; [|split]; assumption. }
  assert (Hone_k : [k] `sublist_of` done ++ [k]).
  { apply sublist_inserts_l. reflexivity. }
  assert (Hknown_k : results_known g' [k]).
  { apply (results_known_update g k _ p); [exact Hp|].
    intros w Hw. apply list_elem_of_singleton in Hw. auto. }
  destruct (Z.ltb_spec best_rank rank_val) as [Hlt | Hge].
  { exists g', [k], rank_val.
    split; [reflexivity|]. split; [exact Hsame'|]. split; [exact Hone_k|].
    split; [exact Hknown_k|]. split; [discriminate | lia]. }
  destruct (Z.eqb_spec rank_val best_rank) as [Heq | Hne].
  - (* a tie in category: the cards decide *)
    destruct Hinv as [[_ Hb] | [Hw Hb]]; [lia|].
    destruct winners as [|w0 ws]; [congruence|].
    rewrite py_get_head. cbn [mbind result_bind].
    assert (Hknown' : results_known g' (w0 :: ws)).
    { apply (results_known_update g k _ p); [exact Hp|]. intros w Hin. right. auto. }
    destruct (Hknown' w0 ltac:(left)) as (pw & Hpw & [[[r0 best_cards] nm0] Hres]).
    rewrite (py_get_seat _ _ _ Hpw). cbn [mbind result_bind]. rewrite Hres.
    destruct (_compare_hands cards best_cards =? 1).
    { exists g', [k], best_rank.
      split; [reflexivity|]. split; [exact Hsame'|]. split; [exact Hone_k|].
      split; [exact Hknown_k|]. split; [discriminate | lia]. }
    destruct (_compare_hands cards best_cards =? 0).
    + exists g', ((w0 :: ws) ++ [k]), best_rank.
      split; [reflexivity|]. split; [exact Hsame'|].
      split; [apply sublist_app; [exact Hsub | reflexivity]|].
      split; [|split; [discriminate | lia]].
      apply (results_known_update g k _ p); [exact Hp|].
      intros w Hin. apply elem_of_app in Hin as [Hin | Hin].
      * right. auto.
      * left. apply list_elem_of_singleton in Hin. exact Hin.
    + exists g', (w0 :: ws), best_rank.
      split; [reflexivity|]. split; [exact Hsame'|].
      split; [apply sublist_inserts_r; exact Hsub|].
      split; [exact Hknown'|]. split; [discriminate | lia].
  - destruct Hinv as [[_ Hb] | [Hw Hb]]; [lia|].
    exists g', winners, best_rank.
    split; [reflexivity|]. split; [exact Hsame'|].
    split; [apply sublist_inserts_r; exact Hsub|].
    split; [|split; [exact Hw | lia]].
    apply (results_known_update g k _ p); [exact Hp|]. intros w Hin. right. auto.
Qed.

(** The whole loop, from the contenders [done] already seen. *)
Lemma showdown_loop_returns (g0 : Game) (rest : list nat) :
  Forall (fun k => exists p0, players g0 !! k = Some p0 /\
                     dealt (hand p0 ++ community_cards g0) /\
                     (5 <= length (hand p0 ++ community_cards g0))%nat) rest ->
  forall g done winners best_rank,
    same_stakes g0 g ->
    winners `sublist_of` done ->
    results_known g winners ->
    (winners = [] /\ best_rank = -1) \/ (winners <> [] /\ 1 <= best_rank) ->
    exists g1 winners1 best_rank1,
      for_each showdown_step (g, winners, best_rank) rest
      = Ok (g1, winners1, best_rank1) /\
      same_stakes g0 g1 /\
      winners1 `sublist_of` done ++ rest /\
      (rest <> [] -> winners1 <> []).
Proof.
  induction 1 as [|k rest (p0 & Hk & Hd & Hlen) _ IH];
    intros g done winners best_rank Hsame Hsub Hknown Hinv.
  - exists g, winners, best_rank. rewrite app_nil_r.
    split; [reflexivity|]. split; [exact Hsame|]. split; [exact Hsub|].
    intros E. congruence.
  - destruct (showdown_step_returns g0 g done winners best_rank k p0
                Hsame Hk Hd Hlen Hsub Hknown Hinv)
      as (g' & winners' & best' & Hstep & Hsame' & Hsub' & Hknown' & Hne & Hone).
    destruct (IH g' (done ++ [k]) winners' best' Hsame' Hsub' Hknown'
                 (or_intror (conj Hne Hone)))
      as (g1 & winners1 & best1 & Hloop & Hsame1 & Hsub1 & Hrest).
    exists g1, winners1, best1. cbn [for_each]. rewrite Hstep.
    cbn [mbind result_bind]. split; [exact Hloop|]. split; [exact Hsame1|].
    split; [rewrite <- app_assoc in Hsub1; exact Hsub1|].
    intros _. destruct rest as [|k' rest'].
    + simpl in Hloop. injection Hloop as <- <- <-. exact Hne.
    + apply Hrest. discriminate.
Qed.

Lemma same_stakes_refl (g : Game) : same_stakes g g.
Proof. repeat split. Qed.

(** The co-winners that [showdown] finds. *)
Lemma showdown_winners_returns (g : Game) :
  contenders_hold_cards g ->
  (1 <= count_where in_hand (players g))%nat ->
  exists g1 winners,
    showdown_winners g = Ok (g1, winners) /\
    same_stakes g g1 /\
    winners <> [] /\ NoDup winners /\
    forall w, w ∈ winners -> exists p, players g !! w = Some p /\ in_hand p = true.
Proof.
  intros Hcards Hcount. unfold showdown_winners.
  set (contenders := seats_where in_hand (players g)).
  destruct (showdown_loop_returns g contenders) with
      (g := g) (done := @nil nat) (winners := @nil nat) (best_rank := -1)
    as (g1 & winners & best & Hloop & Hsame & Hsub & Hne).
  { apply Forall_forall. intros k Hk.
    destruct (seats_where_spec _ _ _ Hk) as (p & Hp & Hin).
    exists p. split; [exact Hp|].
    unfold contenders_hold_cards in Hcards. rewrite Forall_lookup in Hcards.
    apply (Hcards k p Hp Hin). }
  { apply same_stakes_refl. }
  { reflexivity. }
  { intros w Hw. inversion Hw. }
  { left. auto. }
  rewrite Hloop. cbn [mbind result_bind]. exists g1, winners.
  split; [reflexivity|]. split; [exact Hsame|]. simpl in Hsub.
  split.
  { apply Hne. intros E. unfold contenders, seats_where in E.
    pose proof (seats_from_length in_hand (players g) 0) as Hl.
    rewrite E in Hl. simpl in Hl. lia. }
  split.
  { apply (sublist_NoDup winners contenders); [apply seats_from_NoDup | exact Hsub]. }
  intros w Hw. apply seats_where_spec. apply (elem_of_sublist _ _ _ Hw Hsub).
Qed.

(** *** Paying the winners *)

Lemma pay_winners_keeps (winnings : Z) (winners : list nat) : forall g,
  pot (pay_winners winnings winners g) = pot g /\
  length (players (pay_winners winnings winners g)) = length (players g).
Proof.
  induction winners as [|w ws IH]; intros g; [auto|].
  unfold pay_winners in *. cbn [fold_left].
  destruct (IH (update_player w (win winnings) g)) as [-> ->].
  unfold update_player; simpl. rewrite length_alter. auto.
Qed.

Lemma pay_winners_lookup (winnings : Z) (winners : list nat) :
  NoDup winners -> forall g k,
    players (pay_winners winnings winners g) !! k
    = (if bool_decide (k ∈ winners) then win winnings else id) <$> players g !! k.
Proof.
  induction 1 as [|w ws Hw _ IH]; intros g k.
  - simpl. rewrite option_fmap_id. reflexivity.
  - unfold pay_winners in *. cbn [fold_left]. rewrite IH.
    unfold update_player; simpl.
    destruct (decide (k = w)) as [-> | Hne].
    + rewrite list_lookup_alter_eq.
      rewrite (bool_decide_eq_false_2 _ Hw).
      rewrite (bool_decide_eq_true_2 (w ∈ w :: ws)) by left.
      rewrite option_fmap_id. reflexivity.
    + rewrite list_lookup_alter_ne by auto.
      destruct (bool_decide_reflect (k ∈ ws)) as [Hin | Hnin].
      * rewrite (bool_decide_eq_true_2 (k ∈ w :: ws)) by (right; exact Hin).
        reflexivity.
      * rewrite (bool_decide_eq_false_2 (k ∈ w :: ws)); [reflexivity|].
        rewrite elem_of_cons. tauto.
Qed.

Lemma sum_chips_win (winnings : Z) (ps : list Player) : forall k p,
  ps !! k = Some p ->
  sum_chips (alter (win winnings) k ps) = sum_chips ps + winnings.
Proof.
  induction ps as [|q ps IH]; intros [|k] p Hk; simpl in Hk; try discriminate.
  - simpl. lia.
  - change (alter (win winnings) (S k) (q :: ps))
      with (q :: alter (win winnings) k ps).
    simpl. rewrite (IH k p Hk). lia.
Qed.

Lemma sum_chips_pay (winnings : Z) (winners : list nat) : forall g,
  (forall w, w ∈ winners -> is_Some (players g !! w)) ->
  sum_chips (players (pay_winners winnings winners g))
  = sum_chips (players g) + Z.of_nat (length winners) * winnings.
Proof.
  induction winners as [|w ws IH]; intros g Hws.
  - simpl. lia.
  - unfold pay_winners in *. cbn [fold_left]. rewrite IH.
    + destruct (Hws w ltac:(left)) as [p Hp].
      unfold update_player; simpl. rewrite (sum_chips_win _ _ _ _ Hp).
      simpl length. lia.
    + intros w' Hw'. unfold update_player; simpl.
      apply lookup_lt_is_Some. rewrite length_alter.
      apply lookup_lt_is_Some. apply Hws. right. exact Hw'.
Qed.

Lemma sum_chips_forget (ps : list Player) :
  sum_chips (forget_result <$> ps) = sum_chips ps.
Proof. induction ps as [|p ps IH]; csimpl; [|rewrite IH]; reflexivity. Qed.

Lemma hands_forget (ps : list Player) :
  hand <$> (forget_result <$> ps) = hand <$> ps.
Proof. induction ps as [|p ps IH]; csimpl; [|rewrite IH]; reflexivity. Qed.

Lemma pay_winners_hands (winnings : Z) (winners : list nat) : forall g,
  hand <$> players (pay_winners winnings winners g) = hand <$> players g /\
  community_cards (pay_winners winnings winners g) = community_cards g.
Proof.
  induction winners as [|w ws IH]; intros g; [auto|].
  unfold pay_winners in *. cbn [fold_left].
  destruct (IH (update_player w (win winnings) g)) as (-> & ->).
  unfold update_player; simpl. split; [|reflexivity].
  apply hands_alter. reflexivity.
Qed.

(** The table that the loop of [showdown] leaves holds the cards it
    held. *)
Lemma same_stakes_dealt (g g1 : Game) :
  same_stakes g g1 -> all_dealt g -> all_dealt g1.
Proof.
  intros (Hps & _ & Hcc). apply all_dealt_hands; [exact Hcc|].
  rewrite <- (hands_forget (players g1)), Hps. apply hands_forget.
Qed.

(** C5. At a showdown between players who hold their cards, with every
    card on the table a dealt one, so that the state can be sent,
    [showdown] finds one co-winner or more, adds to the chips of each the pot divided
    by their number with the integer division that rounds down, leaves the
    chips of everyone else as they were, and resets the pot to 0: the
    remainder of the division goes to nobody, so a pot of 101 split between
    two pays 50 to each. *)
Theorem showdown_splits_pot_by_floor_division (g : Game) :
  (2 <= count_where in_hand (players g))%nat ->
  contenders_hold_cards g ->
  all_dealt g ->
  exists g1 winners g',
    showdown_winners g = Ok (g1, winners) /\
    showdown g = Ok g' /\
    winners <> [] /\ NoDup winners /\
    (forall w, w ∈ winners -> exists p, players g !! w = Some p /\ in_hand p = true) /\
    pot g' = 0 /\
    (forall k p, players g !! k = Some p ->
       exists p', players g' !! k = Some p' /\
         chips p' = chips p + (if bool_decide (k ∈ winners)
                               then pot g / Z.of_nat (length winners) else 0)) /\
    sum_chips (players g')
    = sum_chips (players g) + pot g - pot g mod Z.of_nat (length winners) /\
    (pot g = 101 -> length winners = 2%nat ->
     forall w p, w ∈ winners -> players g !! w = Some p ->
       exists p', players g' !! w = Some p' /\ chips p' = chips p + 50).
Proof.
  intros Hcount Hcards Hdealt.
  destruct (showdown_winners_returns g Hcards ltac:(lia))
    as (g1 & winners & Hwin & Hsame & Hne & Hnodup & Hin).
  set (n := Z.of_nat (length winners)).
  assert (Hn : 0 < n).
  { unfold n. destruct winners; [congruence | simpl; lia]. }
  set (winnings := pot g / n).
  set (g' := set_pot 0 (pay_winners winnings winners g1)).
  assert (Hshow : showdown g = Ok g').
  { unfold showdown. rewrite (emit_all_dealt g true Hdealt).
    cbn [mbind result_bind].
    pose proof (seats_from_length in_hand (players g) 0) as Hl.
    fold (seats_where in_hand (players g)) in Hl. rewrite Hl.
    destruct (Nat.ltb_spec (count_where in_hand (players g)) 2); [lia|].
    rewrite Hwin. cbn [mbind result_bind]. unfold py_floordiv. fold n.
    destruct (Z.eqb_spec n 0); [lia|]. cbn [mbind result_bind].
    assert (Hpot : pot g1 = pot g) by apply Hsame. rewrite Hpot.
    fold winnings. fold g'.
    rewrite (emit_all_dealt g' false); [reflexivity|].
    apply (all_dealt_hands g1); [| |exact (same_stakes_dealt g g1 Hsame Hdealt)].
    - unfold g'. cbn [community_cards set_pot]. apply pay_winners_hands.
    - unfold g'. cbn [players set_pot]. apply pay_winners_hands. }
  assert (Hchips : forall k p, players g !! k = Some p ->
            exists p', players g' !! k = Some p' /\
              chips p' = chips p + (if bool_decide (k ∈ winners) then winnings else 0)).
  { intros k p Hk.
    destruct (same_stakes_lookup g g1 k p Hsame Hk) as (p1 & Hp1 & Hforget).
    assert (Hc : chips p1 = chips p).
    { change (chips (forget_result p1) = chips (forget_result p)). congruence. }
    unfold g'. cbn [players set_pot].
    rewrite (pay_winners_lookup winnings winners Hnodup), Hp1. simpl.
    eexists. split; [reflexivity|].
    destruct (bool_decide (k ∈ winners)); simpl; lia. }
  exists g1, winners, g'.
  split; [exact Hwin|]. split; [exact Hshow|]. split; [exact Hne|].
  split; [exact Hnodup|]. split; [exact Hin|]. split; [reflexivity|].
  split; [exact Hchips|]. split.
  - unfold g'. cbn [players set_pot]. rewrite sum_chips_pay.
    + destruct Hsame as (Hps & _).
      rewrite <- (sum_chips_forget (players g1)), Hps, sum_chips_forget.
      fold n. unfold winnings. pose proof (Z.div_mod (pot g) n ltac:(lia)). lia.
    + intros w Hw. destruct (Hin w Hw) as (p & Hp & _).
      destruct (same_stakes_lookup g g1 w p Hsame Hp) as (p1 & Hp1 & _). eauto.
  - intros Hpot Hlen w p Hw Hp.
    destruct (Hchips w p Hp) as (p' & Hp' & Hc). exists p'. split; [exact Hp'|].
    rewrite Hc, (bool_decide_eq_true_2 _ Hw). unfold winnings, n.
    rewrite Hpot, Hlen. reflexivity.
Qed.

(** ** The statements at example tables *)


Lemma showdown_splits_pot_by_floor_division_witness :
  (2 <= count_where in_hand (players two_winners_table))%nat /\
  contenders_hold_cards two_winners_table /\
  all_dealt two_winners_table /\
  exists g1 winners g',
    showdown_winners two_winners_table = Ok (g1, winners) /\
    showdown two_winners_table = Ok g' /\
    winners <> [] /\ NoDup winners /\
    (forall w, w ∈ winners ->
       exists p, players two_winners_table !! w = Some p /\ in_hand p = true) /\
    pot g' = 0 /\
    (forall k p, players two_winners_table !! k = Some p ->
       exists p', players g' !! k = Some p' /\
         chips p' = chips p + (if bool_decide (k ∈ winners)
                               then pot two_winners_table / Z.of_nat (length winners)
                               else 0)) /\
    sum_chips (players g')
    = sum_chips (players two_winners_table) + pot two_winners_table
      - pot two_winners_table mod Z.of_nat (length winners) /\
    (pot two_winners_table = 101 -> length winners = 2%nat ->
     forall w p, w ∈ winners -> players two_winners_table !! w = Some p ->
       exists p', players g' !! w = Some p' /\ chips p' = chips p + 50).
Proof.
  assert (H1 : (2 <= count_where in_hand (players two_winners_table))%nat)
    by (vm_compute; lia).
  assert (H2 : contenders_hold_cards two_winners_table)
    by (apply (bool_decide_unpack _); vm_compute; exact I).
  assert (H3 : all_dealt two_winners_table)
    by (apply (bool_decide_unpack _); vm_compute; exact I).
  split; [exact H1|]. split; [exact H2|]. split; [exact H3|].
  apply (showdown_splits_pot_by_floor_division two_winners_table H1 H2 H3).
Defined.

(** The pot of 101 between the two who tie: 50 each, one chip lost. *)
Example odd_pot_between_two :
  (fun g => (chips <$> players g, pot g)) <$>
    (match showdown two_winners_table with Ok g => Some g | Raise _ => None end)
  = Some ([1050; 1000; 1050; 1000], 0).
Proof. vm_compute. reflexivity. Qed.

Lemma next_active_seat_correct_witness :
  players seated_table <> [] /\ next_active_seat_claim seated_table 3.
Proof.
  assert (H : players seated_table <> []) by (vm_compute; discriminate).
  split; [exact H|].
  apply (next_active_seat_correct seated_table 3 H).
Defined.

Lemma betting_round_closes_without_action_witness :
  players all_in_table <> [] /\
  (count_where can_act (players all_in_table) < 2)%nat /\
  ("Turn"%string = "Pre-Flop"%string -> current_bet all_in_table = 0) /\
  exists g0,
    begin_round all_in_table "Turn" 1 = Ok g0 /\
    betting_round (fun _ _ _ _ => check) (fun _ _ _ _ => check) 0
                  all_in_table "Turn" 1
    = Some (Ok (collect_bets g0, several_in_hand all_in_table, [])) /\
    players g0 = (if bool_decide ("Turn"%string = "Pre-Flop"%string)
                  then players all_in_table
                  else set_bet 0 <$> players all_in_table) /\
    pot (collect_bets g0) = pot all_in_table + sum_bets (players g0) /\
    Forall (fun p => bet p = 0) (players (collect_bets g0)) /\
    (several_in_hand all_in_table = true <->
     (2 <= count_where in_hand (players all_in_table))%nat).
Proof.
  assert (H1 : players all_in_table <> []) by (vm_compute; discriminate).
  assert (H2 : (count_where can_act (players all_in_table) < 2)%nat)
    by (vm_compute; lia).
  assert (H3 : "Turn"%string = "Pre-Flop"%string -> current_bet all_in_table = 0)
    by (intros _; reflexivity).
  split; [exact H1|]. split; [exact H2|]. split; [exact H3|].
  apply (betting_round_closes_without_action
           (fun _ _ _ _ => check) (fun _ _ _ _ => check) 0
           all_in_table "Turn" 1 H1 H2 H3).
Defined.

Lemma get_state_redacts_bots_in_hand_witness :
  shown_cards_dealt folded_bot_table /\
  exists payload,
    get_state folded_bot_table false = Ok payload /\
    forall k p, players folded_bot_table !! k = Some p ->
      exists d, s_players payload !! k = Some d /\ redacted_view p d.
Proof.
  assert (H : shown_cards_dealt folded_bot_table)
    by (apply (bool_decide_unpack _); vm_compute; exact I).
  split; [exact H|].
  apply (get_state_redacts_bots_in_hand folded_bot_table H).
Defined.

Lemma post_blinds_leaves_short_stack_active_witness :
  get_next_active_player short_stack_table (dealer_pos short_stack_table) = Ok 1 /\
  get_next_active_player short_stack_table 1 = Ok 2 /\
  1 <> 2 /\
  exists g' p_sb p_bb q_sb q_bb,
    post_blinds short_stack_table = Ok g' /\
    players short_stack_table !! Z.to_nat 1 = Some p_sb /\
    players short_stack_table !! Z.to_nat 2 = Some p_bb /\
    players g' !! Z.to_nat 1 = Some q_sb /\
    players g' !! Z.to_nat 2 = Some q_bb /\
    blind_posted (small_blind short_stack_table) p_sb q_sb /\
    blind_posted (big_blind short_stack_table) p_bb q_bb /\
    get_next_active_player g' (1 - 1) = Ok 1 /\
    get_next_active_player g' (2 - 1) = Ok 2 /\
    (chips q_sb = 0 -> all_dealt short_stack_table ->
     exists g'' q, handle_player_action g' 1 check = Ok (g'', false) /\
                   py_get (players g'') 1 = Ok q /\
                   q = set_status "ALL-IN" (set_is_all_in true q_sb) /\
                   is_all_in q = true /\ status q = "ALL-IN"%string /\
                   chips q = 0 /\ bet q = bet q_sb /\ in_hand q = in_hand q_sb) /\
    (chips q_bb = 0 -> all_dealt short_stack_table ->
     exists g'' q, handle_player_action g' 2 check = Ok (g'', false) /\
                   py_get (players g'') 2 = Ok q /\
                   q = set_status "ALL-IN" (set_is_all_in true q_bb) /\
                   is_all_in q = true /\ status q = "ALL-IN"%string /\
                   chips q = 0 /\ bet q = bet q_bb /\ in_hand q = in_hand q_bb).
Proof.
  assert (H1 : get_next_active_player short_stack_table
                 (dealer_pos short_stack_table) = Ok 1) by reflexivity.
  assert (H2 : get_next_active_player short_stack_table 1 = Ok 2) by reflexivity.
  assert (H3 : 1 <> 2) by lia.
  split; [exact H1|]. split; [exact H2|]. split; [exact H3|].
  apply (post_blinds_leaves_short_stack_active short_stack_table 1 2 H1 H2 H3).
Defined.

(** The blinds at the short-stack table: seat 1 posts its five chips,
    seat 2 its twenty; neither is marked all-in, and the turn goes on to
    seat 3 and comes back to them. *)
Example short_stacks_post_blinds :
  (fun g => ((fun p => (chips p, bet p, is_all_in p)) <$> players g,
             current_player_index g)) <$>
    (match post_blinds short_stack_table with Ok g => Some g | Raise _ => None end)
  = Some ([(1000, 0, false); (0, 5, false); (0, 20, false); (1000, 0, false)], 3).
Proof. vm_compute. reflexivity. Qed.

(** * Further properties of the engine *)

(** ** The comparator *)

Lemma _compare_hands_swap (a : list Card) : forall b,
  _compare_hands b a = - _compare_hands a b.
Proof.
  induction a as [|x a IH]; intros [|y b]; simpl; try reflexivity.
  destruct (Z.ltb_spec (value x) (value y)), (Z.ltb_spec (value y) (value x));
    try lia; auto.
Qed.

Lemma _compare_hands_values (a : list Card) : forall b,
  _compare_hands a b = -1 \/ _compare_hands a b = 0 \/ _compare_hands a b = 1.
Proof.
  induction a as [|x a IH]; intros [|y b]; simpl; auto.
  destruct (value y <? value x); auto.
  destruct (value x <? value y); auto.
Qed.

Lemma _compare_hands_refl (a : list Card) : _compare_hands a a = 0.
Proof.
  induction a as [|x a IH]; simpl; [reflexivity|].
  rewrite Z.ltb_irrefl. exact IH.
Qed.

(** X1. [_compare_hands] returns -1, 0 or 1; swapping its arguments
    negates the result, and a hand compared with itself gives 0. *)
Theorem compare_hands_antisymmetric (a b : list Card) :
  _compare_hands b a = - _compare_hands a b /\
  (_compare_hands a b = -1 \/ _compare_hands a b = 0 \/ _compare_hands a b = 1) /\
  _compare_hands a a = 0.
Proof.
  split; [apply _compare_hands_swap|].
  split; [apply _compare_hands_values | apply _compare_hands_refl].
Qed.

Lemma _compare_hands_trans_gt (a : list Card) : forall b c,
  _compare_hands a b = 1 -> _compare_hands b c = 1 -> _compare_hands a c = 1.
Proof.
  induction a as [|x a IH]; intros [|y b] [|z c]; simpl; try discriminate.
  destruct (Z.ltb_spec (value y) (value x)), (Z.ltb_spec (value x) (value y)),
           (Z.ltb_spec (value z) (value y)), (Z.ltb_spec (value y) (value z)),
           (Z.ltb_spec (value z) (value x)), (Z.ltb_spec (value x) (value z));
    try lia; try discriminate; auto.
  apply IH.
Qed.

(** The weak order on hands of one length. *)
Lemma _compare_hands_trans_le (a : list Card) : forall b c,
  length a = length b -> length b = length c ->
  _compare_hands a b <= 0 -> _compare_hands b c <= 0 -> _compare_hands a c <= 0.
Proof.
  induction a as [|x a IH]; intros [|y b] [|z c]; simpl; try discriminate; try lia.
  intros Hab Hbc.
  destruct (Z.ltb_spec (value y) (value x)), (Z.ltb_spec (value x) (value y)),
           (Z.ltb_spec (value z) (value y)), (Z.ltb_spec (value y) (value z)),
           (Z.ltb_spec (value z) (value x)), (Z.ltb_spec (value x) (value z));
    try lia.
  apply IH; lia.
Qed.

Lemma _compare_hands_trans_le_lt (a : list Card) : forall b c,
  length a = length b -> length b = length c ->
  _compare_hands a b <= 0 -> _compare_hands b c < 0 -> _compare_hands a c < 0.
Proof.
  induction a as [|x a IH]; intros [|y b] [|z c]; simpl; try discriminate; try lia.
  intros Hab Hbc.
  destruct (Z.ltb_spec (value y) (value x)), (Z.ltb_spec (value x) (value y)),
           (Z.ltb_spec (value z) (value y)), (Z.ltb_spec (value y) (value z)),
           (Z.ltb_spec (value z) (value x)), (Z.ltb_spec (value x) (value z));
    try lia.
  apply IH; lia.
Qed.

(** X2. [_compare_hands] is transitive: a hand above a second one that is
    above a third is above the third, whatever the lengths. *)
Theorem compare_hands_transitive (a b c : list Card) :
  _compare_hands a b = 1 -> _compare_hands b c = 1 -> _compare_hands a c = 1.
Proof. apply _compare_hands_trans_gt. Qed.

Lemma _compare_hands_tie (a : list Card) : forall b,
  length a = length b ->
  (_compare_hands a b = 0 <-> value <$> a = value <$> b).
Proof.
  induction a as [|x a IH]; intros [|y b] Hlen; simpl in Hlen; try discriminate.
  - simpl. tauto.
  - rewrite !fmap_cons. simpl _compare_hands.
    destruct (Z.ltb_spec (value y) (value x)), (Z.ltb_spec (value x) (value y));
      try lia.
    + split; [discriminate | intros [= ? ?]; lia].
    + split; [discriminate | intros [= ? ?]; lia].
    + rewrite IH by lia. split.
      * intros ->. f_equal. lia.
      * intros [= ? ?]. assumption.
Qed.

(** X3. Two hands of one length tie under [_compare_hands] exactly when
    they show the same card values in the same places: the suits never
    decide. *)
Theorem compare_hands_ties_on_values (a b : list Card) :
  length a = length b ->
  (_compare_hands a b = 0 <-> value <$> a = value <$> b).
Proof. apply _compare_hands_tie. Qed.

(** ** The hand ranker *)

Lemma cards_of_Ok (h : list slot) : forall cs,
  cards_of h = Ok cs -> h = Some <$> cs.
Proof.
  induction h as [|[c|] h IH]; intros cs H; simpl in H.
  - injection H as <-. reflexivity.
  - destruct (cards_of h) as [cs'|]; simpl in H; [|discriminate].
    injection H as <-. rewrite fmap_cons, <- (IH cs' eq_refl). reflexivity.
  - discriminate.
Qed.

Lemma cards_of_None (h : list slot) :
  None ∈ h -> cards_of h = Raise AttributeError.
Proof.
  induction h as [|[c|] h IH]; intros H.
  - inversion H.
  - apply elem_of_cons in H as [H | H]; [discriminate|].
    simpl. rewrite (IH H). reflexivity.
  - reflexivity.
Qed.

Lemma sorted_grouped_Permutation (flag : Card -> bool) (l : list Card) :
  sorted_grouped flag l ≡ₚ l.
Proof. apply sorted_Permutation. Qed.

(** Whatever [_calculate_hand_rank] returns: a category, and the cards it
    was given. *)
Lemma _calculate_hand_rank_Ok (h : list slot) (rank_val : Z) (cards : list Card) :
  _calculate_hand_rank h = Ok (rank_val, cards) ->
  1 <= rank_val <= 10 /\ Some <$> cards ≡ₚ h.
Proof.
  unfold _calculate_hand_rank. intros H.
  destruct (cards_of h) as [cs|] eqn:Ecs; [|discriminate].
  apply cards_of_Ok in Ecs. subst h. cbn [mbind result_bind] in H.
  set (hand1 := sorted (fun x y => value y <? value x) cs) in H.
  assert (H1 : hand1 ≡ₚ cs) by apply sorted_Permutation.
  destruct (all_consecutive (seq 0 4) (value <$> hand1)) as [consecutive|];
    [|discriminate].
  cbn [mbind result_bind] in H.
  set (hand2 := if (consecutive || set_eq (rank <$> hand1) WHEEL)
                   && set_eq (rank <$> hand1) WHEEL then _ else hand1) in H.
  assert (H2 : hand2 ≡ₚ cs).
  { unfold hand2. destruct (_ && _); [rewrite sorted_Permutation|]; exact H1. }
  assert (Hg : forall flag, Some <$> sorted_grouped flag hand2 ≡ₚ Some <$> cs).
  { intros flag. rewrite sorted_grouped_Permutation, H2. reflexivity. }
  assert (Hp : Some <$> hand2 ≡ₚ Some <$> cs) by (rewrite H2; reflexivity).
  clearbody hand2.
  repeat match type of H with
         | (if ?c then _ else _) = _ => destruct c
         | (py_get ?l ?i ≫= _) = _ =>
             destruct (py_get l i); [cbn [mbind result_bind] in H | discriminate H]
         end.
  all: injection H as <- <-.
  all: split; [try lia | first [exact Hp | apply Hg]].
  destruct (_ =? 14); lia.
Qed.

(** X4. On five dealt cards [_calculate_hand_rank] raises nothing: it
    returns one of the categories 1 to 10 and the same five cards in some
    order. *)
Theorem calculate_hand_rank_keeps_the_cards (h : list slot) :
  dealt h -> length h = 5%nat ->
  exists rank_val cards,
    _calculate_hand_rank h = Ok (rank_val, cards) /\
    1 <= rank_val <= 10 /\
    Some <$> cards ≡ₚ h /\
    length cards = 5%nat.
Proof.
  intros Hd Hlen.
  destruct (_calculate_hand_rank_returns h Hd Hlen) as (r & cs & Hr & Hrange).
  exists r, cs. split; [exact Hr|]. split; [exact Hrange|].
  destruct (_calculate_hand_rank_Ok h r cs Hr) as [_ Hp]. split; [exact Hp|].
  apply Permutation_length in Hp. rewrite length_fmap in Hp. congruence.
Qed.

Lemma combinations_short {A} (l : list A) : forall k : nat,
  (length l < k)%nat -> combinations k l = [].
Proof.
  induction l as [|x t IH]; intros [|k] Hk; simpl in *; try lia; [reflexivity|].
  rewrite (IH k), (IH (S k)) by lia. reflexivity.
Qed.

Lemma combinations_with {A} (l : list A) (x : A) : forall k : nat,
  x ∈ l -> (1 <= k <= length l)%nat ->
  exists c, c ∈ combinations k l /\ x ∈ c.
Proof.
  induction l as [|y t IH]; intros [|k] Hx Hk; simpl in *; try lia.
  apply elem_of_cons in Hx as [-> | Hx].
  - destruct (combinations_first t k ltac:(lia)) as (c & rest & Hc).
    exists (y :: c). split; [|left].
    apply elem_of_app. left. rewrite Hc, fmap_cons. left.
  - destruct (Nat.eq_dec (S k) (S (length t))) as [E | E].
    + (* every card is needed *)
      destruct k as [|k'].
      * destruct t; [inversion Hx | simpl in E; lia].
      * destruct (IH (S k') Hx ltac:(lia)) as (c & Hc & Hin).
        exists (y :: c). split; [|right; exact Hin].
        apply elem_of_app. left. apply list_elem_of_fmap. eauto.
    + destruct (IH (S k) Hx ltac:(lia)) as (c & Hc & Hin).
      exists c. split; [|exact Hin]. apply elem_of_app. right. exact Hc.
Qed.

Lemma evaluate_step_raises (best : Z * list Card) (combo : list slot) (e : exn) :
  _calculate_hand_rank combo = Raise e -> evaluate_step best combo = Raise e.
Proof. intros H. unfold evaluate_step. rewrite H. reflexivity. Qed.

Lemma evaluate_step_Ok (best : Z * list Card) (combo : list slot)
      (r : Z) (cs : list Card) :
  _calculate_hand_rank combo = Ok (r, cs) ->
  exists best', evaluate_step best combo = Ok best'.
Proof.
  intros H. unfold evaluate_step. rewrite H. cbn [mbind result_bind].
  destruct (_ <? _); [eauto|]. destruct (_ && _); eauto.
Qed.

(** The search raises what the first failing combination raises. *)
Lemma evaluate_loop_raises (combos : list (list slot)) :
  Forall (fun c => length c = 5%nat) combos ->
  Exists (fun c => None ∈ c) combos ->
  forall best, for_each evaluate_step best combos = Raise AttributeError.
Proof.
  induction 1 as [|c combos Hlen _ IH]; intros Hex best.
  - inversion Hex.
  - cbn [for_each].
    destruct (decide (None ∈ c)) as [Hnone | Hsome].
    + rewrite (evaluate_step_raises best c AttributeError).
      * reflexivity.
      * unfold _calculate_hand_rank. rewrite (cards_of_None c Hnone). reflexivity.
    + assert (Hd : dealt c).
      { apply Forall_forall. intros [x|] Hx; [eauto | contradiction]. }
      destruct (_calculate_hand_rank_returns c Hd Hlen) as (r & cs & Hr & _).
      destruct (evaluate_step_Ok best c r cs Hr) as (best' & ->).
      cbn [mbind result_bind]. apply IH.
      apply Exists_cons in Hex as [? | ?]; [contradiction | assumption].
Qed.

(** X5. Five cards or more with an undealt card ([None]) among them make
    [evaluate_hand] raise [AttributeError], as they make
    [_calculate_hand_rank]. *)
Theorem evaluate_hand_raises_on_undealt_card (h : list slot) :
  None ∈ h -> (5 <= length h)%nat ->
  _calculate_hand_rank h = Raise AttributeError /\
  evaluate_hand h = Raise AttributeError.
Proof.
  intros Hnone Hlen. split.
  - unfold _calculate_hand_rank. rewrite (cards_of_None h Hnone). reflexivity.
  - unfold evaluate_hand.
    rewrite evaluate_loop_raises; [reflexivity | |].
    + apply Forall_forall. intros c Hc. apply (combinations_spec h 5 c Hc).
    + destruct (combinations_with h None 5 Hnone ltac:(lia)) as (c & Hc & Hin).
      apply Exists_exists. eauto.
Qed.

(** X6. On fewer than five cards [evaluate_hand] looks at no card, dealt
    or not: it returns category -1, no cards and the name "Unknown". *)
Theorem evaluate_hand_on_few_cards (h : list slot) :
  (length h < 5)%nat -> evaluate_hand h = Ok (-1, [], "Unknown"%string).
Proof.
  intros Hlen. unfold evaluate_hand. rewrite combinations_short by exact Hlen.
  reflexivity.
Qed.

Lemma combinations_sublist {A} (l : list A) : forall (k : nat) (c : list A),
  c ∈ combinations k l -> c `sublist_of` l.
Proof.
  induction l as [|x t IH]; intros [|k] c Hc; simpl in Hc.
  - apply list_elem_of_singleton in Hc as ->. constructor.
  - inversion Hc.
  - apply list_elem_of_singleton in Hc as ->. apply sublist_nil_l.
  - apply elem_of_app in Hc as [Hc | Hc].
    + apply list_elem_of_fmap in Hc as (c' & -> & Hc').
      apply sublist_skip, (IH _ _ Hc').
    + apply sublist_cons, (IH _ _ Hc).
Qed.

Lemma _calculate_hand_rank_length (c : list slot) (r : Z) (cs : list Card) :
  _calculate_hand_rank c = Ok (r, cs) -> length cs = length c.
Proof.
  intros H. destruct (_calculate_hand_rank_Ok c r cs H) as [_ Hp].
  apply Permutation_length in Hp. rewrite length_fmap in Hp. exact Hp.
Qed.

(** One more combination in the search. *)
Lemma evaluate_step_best (seen : list (list slot)) (best : Z * list Card)
      (c : list slot) :
  Forall (fun c => length c = 5%nat) seen ->
  dealt c -> length c = 5%nat ->
  (seen = [] /\ best.1 = -1) \/ best_of seen best ->
  exists best', evaluate_step best c = Ok best' /\ best_of (seen ++ [c]) best'.
Proof.
  intros Hseen Hd Hlen Hinv.
  destruct (_calculate_hand_rank_returns c Hd Hlen) as (r & cs & Hr & Hrange).
  pose proof (_calculate_hand_rank_length c r cs Hr) as Hcs.
  unfold evaluate_step. rewrite Hr. cbn [mbind result_bind].
  assert (Hnew : forall c' r' cs', c' ∈ seen ++ [c] ->
            _calculate_hand_rank c' = Ok (r', cs') ->
            c' ∈ seen \/ (r' = r /\ cs' = cs)).
  { intros c' r' cs' Hin Hc'. apply elem_of_app in Hin as [Hin | Hin]; [auto|].
    apply list_elem_of_singleton in Hin. subst c'. right.
    rewrite Hr in Hc'. injection Hc' as <- <-. auto. }
  destruct (Z.ltb_spec best.1 r) as [Hlt | Hge].
  - (* a higher category *)
    exists (r, cs). split; [reflexivity|]. split.
    + exists c. split; [apply elem_of_app; right; left | exact Hr].
    + intros c' r' cs' Hin Hc'. simpl.
      destruct (Hnew c' r' cs' Hin Hc') as [Hold | [-> ->]].
      * destruct Hinv as [[-> _] | [_ Hmax]]; [inversion Hold|].
        destruct (Hmax c' r' cs' Hold Hc') as [? | [? _]]; left; lia.
      * right. rewrite _compare_hands_refl. lia.
  - destruct Hinv as [[_ Hb] | [(c0 & Hc0 & Hbest) Hmax]]; [lia|].
    destruct best as [br bcs]. simpl in *.
    assert (Hbl : length bcs = 5%nat).
    { rewrite (_calculate_hand_rank_length c0 br bcs Hbest).
      rewrite Forall_forall in Hseen. auto. }
    destruct (Z.eqb_spec r br) as [-> | Hne].
    + destruct (Z.ltb_spec 0 (_compare_hands cs bcs)) as [Hgt | Hle]; cbn [andb].
      * (* the same category and better cards *)
        exists (br, cs). split; [reflexivity|]. split.
        -- exists c. split; [apply elem_of_app; right; left | exact Hr].
        -- intros c' r' cs' Hin Hc'. simpl.
           destruct (Hnew c' r' cs' Hin Hc') as [Hold | [-> ->]].
           ++ destruct (Hmax c' r' cs' Hold Hc') as [? | [-> Hcmp]]; [left; lia|].
              right. split; [reflexivity|].
              assert (length cs' = 5%nat).
              { rewrite (_calculate_hand_rank_length c' br cs' Hc').
                rewrite Forall_forall in Hseen. auto. }
              assert (_compare_hands bcs cs < 0)
                by (rewrite (_compare_hands_swap cs bcs); lia).
              pose proof (_compare_hands_trans_le_lt cs' bcs cs
                            ltac:(lia) ltac:(lia) Hcmp ltac:(lia)). lia.
           ++ right. rewrite _compare_hands_refl. lia.
      * exists (br, bcs). split; [reflexivity|]. split.
        -- exists c0. split; [apply elem_of_app; left; exact Hc0 | exact Hbest].
        -- intros c' r' cs' Hin Hc'. simpl.
           destruct (Hnew c' r' cs' Hin Hc') as [Hold | [-> ->]]; [eauto|].
           right. split; [reflexivity | lia].
    + cbn [andb]. exists (br, bcs). split; [reflexivity|]. split.
      * exists c0. split; [apply elem_of_app; left; exact Hc0 | exact Hbest].
      * intros c' r' cs' Hin Hc'. simpl.
        destruct (Hnew c' r' cs' Hin Hc') as [Hold | [-> ->]]; [eauto|].
        left. lia.
Qed.

Lemma evaluate_loop_best (combos : list (list slot)) :
  Forall (fun c => dealt c /\ length c = 5%nat) combos ->
  forall seen best,
    Forall (fun c => length c = 5%nat) seen ->
    (seen = [] /\ best.1 = -1) \/ best_of seen best ->
    exists best',
      for_each evaluate_step best combos = Ok best' /\
      ((seen ++ combos = [] /\ best' = best) \/ best_of (seen ++ combos) best').
Proof.
  induction 1 as [|c combos [Hd Hlen] _ IH]; intros seen best Hseen Hinv.
  - exists best. split; [reflexivity|]. rewrite app_nil_r.
    destruct Hinv as [[-> _] | Hb]; [left | right]; auto.
  - destruct (evaluate_step_best seen best c Hseen Hd Hlen Hinv) as (best1 & Hs & Hb1).
    destruct (IH (seen ++ [c]) best1) as (best' & Hf & Hb').
    { apply Forall_app. split; [exact Hseen | repeat constructor; exact Hlen]. }
    { right. exact Hb1. }
    exists best'. cbn [for_each]. rewrite Hs. cbn [mbind result_bind].
    split; [exact Hf|]. rewrite <- app_assoc in Hb'. simpl in Hb'.
    destruct Hb' as [[E _] | Hb']; [|right; exact Hb'].
    destruct seen; discriminate.
Qed.

(** X7. On five dealt cards or more [evaluate_hand] returns what
    [_calculate_hand_rank] returns on one of the five-card combinations:
    one of the categories 1 to 10 with its name, and five of the cards
    given.  No combination has a higher category, and none of the same
    category has cards that [_compare_hands] puts above. *)
Theorem evaluate_hand_finds_the_best (h : list slot) :
  dealt h -> (5 <= length h)%nat ->
  exists rank_val cards,
    evaluate_hand h
    = Ok (rank_val, cards, dict_get HAND_NAMES rank_val "Unknown"%string) /\
    1 <= rank_val <= 10 /\
    Some <$> cards ⊆+ h /\ length cards = 5%nat /\
    best_of (combinations 5 h) (rank_val, cards).
Proof.
  intros Hd Hlen. unfold evaluate_hand.
  assert (Hall : Forall (fun c => dealt c /\ length c = 5%nat) (combinations 5 h)).
  { apply Forall_forall. intros c Hc.
    destruct (combinations_spec h 5 c Hc) as [Hl Hin]. split; [|exact Hl].
    apply Forall_forall. intros x Hx. unfold dealt in Hd.
    rewrite Forall_forall in Hd. auto. }
  destruct (evaluate_loop_best (combinations 5 h) Hall [] (-1, []))
    as ([r cs] & Hf & Hb).
  { constructor. }
  { left. auto. }
  simpl in Hb. destruct Hb as [[E _] | Hb].
  { destruct (combinations_first h 5 Hlen) as (c & rest & Hc). congruence. }
  rewrite Hf. cbn [mbind result_bind]. exists r, cs.
  split; [reflexivity|].
  destruct Hb as [(c & Hc & Hbest) Hmax].
  destruct (_calculate_hand_rank_Ok c r cs Hbest) as [Hrange Hperm].
  split; [exact Hrange|]. split; [|split].
  - rewrite Hperm. apply sublist_submseteq, (combinations_sublist h 5 c Hc).
  - rewrite (_calculate_hand_rank_length c r cs Hbest).
    apply (combinations_spec h 5 c Hc).
  - split; [eauto | exact Hmax].
Qed.

(** ** Actions *)

Lemma py_get_lookup {A} (l : list A) (i : Z) (k : nat) (a : A) :
  py_index l i = Some k -> l !! k = Some a -> py_get l i = Ok a.
Proof. intros Hi Hk. unfold py_get. rewrite Hi, Hk. reflexivity. Qed.

Lemma alter_insert {A} (f : A -> A) (l : list A) (k : nat) (a : A) :
  l !! k = Some a -> alter f k l = <[k := f a]> l.
Proof.
  revert k. induction l as [|x l IH]; intros [|k] H; simpl in H; try discriminate.
  - injection H as ->. reflexivity.
  - change (alter f (S k) (x :: l)) with (x :: alter f k l).
    rewrite (IH k H). reflexivity.
Qed.

Lemma after_action_settle (p q : Player) :
  sid q = sid p -> name q = name p -> is_bot q = is_bot p ->
  hand q = hand p -> hand_result q = hand_result p ->
  chips q + bet q = chips p + bet p ->
  (in_hand q = true -> in_hand p = true) ->
  (is_all_in p = true -> is_all_in q = true) ->
  after_action p (if chips q =? 0 then go_all_in q else q).
Proof.
  intros H1 H2 H3 H4 H5 H6 H7 H8.
  destruct (Z.eqb_spec (chips q) 0) as [E | E].
  - unfold after_action, go_all_in; simpl. repeat split; auto.
  - unfold after_action. repeat split; auto; contradiction.
Qed.

(** The last step of [handle_player_action], on the table [g1] that the
    action made of [g], with [q] at the seat. *)
Lemma handle_player_action_end (g g1 : Game) (i : Z) (k : nat) (p q : Player)
      (is_raise : bool) :
  py_index (players g) i = Some k -> players g !! k = Some p ->
  players g1 = <[k := q]> (players g) ->
  same_table g g1 ->
  sid q = sid p -> name q = name p -> is_bot q = is_bot p ->
  hand q = hand p -> hand_result q = hand_result p ->
  chips q + bet q = chips p + bet p ->
  (in_hand q = true -> in_hand p = true) ->
  (is_all_in p = true -> is_all_in q = true) ->
  current_bet g <= current_bet g1 ->
  (is_raise = true <-> current_bet g < current_bet g1) ->
  (is_raise = true ->
   current_bet g1 = bet q /\ last_raise g1 = current_bet g1 - current_bet g) ->
  (is_raise = false -> last_raise g1 = last_raise g) ->
  exists g' r q',
    (player ← py_get (players g1) i;
     let g2 := if chips player =? 0 then update_player k go_all_in g1 else g1 in
     _ ← emit_game_state g2 false;
     Ok (g2, is_raise))
    = (_ ← emit_game_state g' false; Ok (g', r)) /\
    players g' = <[k := q']> (players g) /\
    same_table g g' /\
    after_action p q' /\
    current_bet g <= current_bet g' /\
    (r = true <-> current_bet g < current_bet g') /\
    (r = true ->
     current_bet g' = bet q' /\ last_raise g' = current_bet g' - current_bet g) /\
    (r = false -> last_raise g' = last_raise g).
Proof.
  intros Hi Hk Hps Hsame H1 H2 H3 H4 H5 H6 H7 H8 Hcb Hr Hraise Hkeep.
  assert (Hlt : (k < length (players g))%nat) by (apply lookup_lt_Some in Hk; exact Hk).
  assert (Hi1 : py_index (players g1) i = Some k).
  { unfold py_index in *. rewrite Hps, length_insert. exact Hi. }
  assert (Hk1 : players g1 !! k = Some q).
  { rewrite Hps. apply list_lookup_insert_eq. exact Hlt. }
  rewrite (py_get_lookup _ _ _ _ Hi1 Hk1). cbn [mbind result_bind]. cbv zeta.
  pose proof (after_action_settle p q H1 H2 H3 H4 H5 H6 H7 H8) as Hafter.
  destruct Hsame as (S1 & S2 & S3 & S4 & S5 & S6 & S7 & S8 & S9).
  destruct (chips q =? 0).
  - exists (update_player k go_all_in g1), is_raise, (go_all_in q).
    split; [reflexivity|]. unfold update_player; cbn [players set_players].
    split.
    { rewrite (alter_insert _ _ _ _ Hk1), Hps. apply list_insert_insert_eq. }
    split; [repeat split; assumption|].
    split; [exact Hafter|]. simpl. auto.
  - exists g1, is_raise, q. split; [reflexivity|]. split; [exact Hps|].
    split; [repeat split; assumption|]. split; [exact Hafter|]. auto.
Qed.

Ltac action_side :=
  solve [ assumption | reflexivity | repeat split
        | simpl; lia | intros; discriminate
        | simpl; split; [discriminate | lia]
        | simpl; split; [intros _; lia | reflexivity]
        | intros _; simpl; split; lia
        | simpl; auto ].

(** Every action at a seat of the table, with an amount that [int]
    accepts: the table [g'] that the action makes, which is sent and
    returned. *)
Lemma handle_player_action_at_seat (g : Game) (i : Z) (data : ActionData)
      (k : nat) (p : Player) (amount : Z) :
  py_index (players g) i = Some k -> players g !! k = Some p ->
  amount_of data = Ok amount ->
  exists g' is_raise q,
    handle_player_action g i data
    = (_ ← emit_game_state g' false; Ok (g', is_raise)) /\
    players g' = <[k := q]> (players g) /\
    same_table g g' /\
    after_action p q /\
    current_bet g <= current_bet g' /\
    (is_raise = true <-> current_bet g < current_bet g') /\
    (is_raise = true ->
     current_bet g' = bet q /\ last_raise g' = current_bet g' - current_bet g) /\
    (is_raise = false -> last_raise g' = last_raise g).
Proof.
  intros Hi Hk Hamount. unfold handle_player_action.
  rewrite Hi, (py_get_lookup _ _ _ _ Hi Hk). cbn [mbind result_bind].
  rewrite Hamount. cbn [mbind result_bind].
  assert (Hid : players g = <[k := p]> (players g))
    by (symmetry; apply list_insert_id; exact Hk).
  assert (Hupd : forall f, players (update_player k f g) = <[k := f p]> (players g)).
  { intros f. unfold update_player; simpl. apply alter_insert, Hk. }
  destruct (bool_decide (a_action data = Some "fold"%string)).
  { cbv beta iota zeta.
    apply (handle_player_action_end g _ i k p (fold_hand p));
      first [apply Hupd | action_side]. }
  destruct (bool_decide (a_action data = Some "check"%string)).
  { cbv beta iota zeta.
    apply (handle_player_action_end g _ i k p p); action_side. }
  destruct (bool_decide (a_action data = Some "call"%string)).
  { cbv beta iota zeta.
    apply (handle_player_action_end g _ i k p
             (pay (Z.min (current_bet g - bet p) (chips p)) p));
      first [apply Hupd | action_side]. }
  destruct (bool_decide (a_action data ∈ [Some "bet"; Some "raise"]%string)).
  { set (total_bet := Z.min amount (chips p + bet p)).
    set (additional := total_bet - bet p).
    destruct (Z.ltb_spec (current_bet g) (bet p + additional)) as [Hlt | Hge];
      cbv beta iota zeta;
      apply (handle_player_action_end g _ i k p (pay additional p));
      first [apply Hupd | action_side]. }
  cbv beta iota zeta.
  apply (handle_player_action_end g _ i k p p); action_side.
Qed.

Lemma sum_chips_insert (l : list Player) : forall k p q,
  l !! k = Some p -> sum_chips (<[k := q]> l) = sum_chips l - chips p + chips q.
Proof.
  induction l as [|x l IH]; intros [|k] p q H; simpl in H; try discriminate.
  - injection H as ->. simpl. lia.
  - change (<[S k := q]> (x :: l)) with (x :: <[k := q]> l).
    simpl. rewrite (IH k p q H). lia.
Qed.

Lemma sum_bets_insert (l : list Player) : forall k p q,
  l !! k = Some p -> sum_bets (<[k := q]> l) = sum_bets l - bet p + bet q.
Proof.
  induction l as [|x l IH]; intros [|k] p q H; simpl in H; try discriminate.
  - injection H as ->. simpl. lia.
  - change (<[S k := q]> (x :: l)) with (x :: <[k := q]> l).
    simpl. rewrite (IH k p q H). lia.
Qed.

(** The cards after an action are the cards before it. *)
Lemma all_dealt_insert (g g' : Game) (k : nat) (p q : Player) :
  players g !! k = Some p -> hand q = hand p ->
  players g' = <[k := q]> (players g) ->
  community_cards g' = community_cards g ->
  all_dealt g -> all_dealt g'.
Proof.
  intros Hk Hh Hps Hcc. apply all_dealt_hands; [exact Hcc|].
  rewrite Hps, list_fmap_insert, Hh. apply list_insert_id.
  rewrite list_lookup_fmap, Hk. reflexivity.
Qed.

(** Every action at a seat of a table where every card is a dealt one,
    with an amount that [int] accepts, returns. *)
Lemma handle_player_action_returns (g : Game) (i : Z) (data : ActionData)
      (k : nat) (p : Player) (amount : Z) :
  py_index (players g) i = Some k -> players g !! k = Some p ->
  amount_of data = Ok amount ->
  all_dealt g ->
  exists g' is_raise q,
    handle_player_action g i data = Ok (g', is_raise) /\
    players g' = <[k := q]> (players g) /\
    same_table g g' /\
    after_action p q /\
    current_bet g <= current_bet g' /\
    (is_raise = true <-> current_bet g < current_bet g') /\
    (is_raise = true ->
     current_bet g' = bet q /\ last_raise g' = current_bet g' - current_bet g) /\
    (is_raise = false -> last_raise g' = last_raise g) /\
    all_dealt g'.
Proof.
  intros Hi Hk Hamount Hdealt.
  destruct (handle_player_action_at_seat g i data k p amount Hi Hk Hamount)
    as (g' & r & q & H & Hps & Hsame & Hafter & Hrest).
  assert (Hdealt' : all_dealt g').
  { apply (all_dealt_insert g g' k p q Hk); [apply Hafter | exact Hps | | exact Hdealt].
    apply Hsame. }
  exists g', r, q. rewrite H, (emit_all_dealt g' false Hdealt').
  split; [reflexivity|]. split; [exact Hps|]. split; [exact Hsame|].
  split; [exact Hafter|].
  destruct Hrest as (R1 & R2 & R3 & R4). auto 10.
Qed.

(** An action that has returned was at a seat of the table, with an
    amount that [int] accepts, and has sent the table it returns. *)
Lemma handle_player_action_Ok_inv (g g' : Game) (i : Z) (data : ActionData)
      (r : bool) :
  handle_player_action g i data = Ok (g', r) ->
  exists k p amount,
    py_index (players g) i = Some k /\ players g !! k = Some p /\
    amount_of data = Ok amount /\
    emit_game_state g' false = Ok tt.
Proof.
  intros H.
  assert (Hseat : exists k p, py_index (players g) i = Some k /\
                              players g !! k = Some p).
  { unfold handle_player_action in H.
    destruct (py_index (players g) i) as [k|] eqn:Hi; [|discriminate].
    destruct (py_get (players g) i) as [p|] eqn:Hp; [|discriminate].
    destruct (py_get_index _ _ _ Hp) as (k' & Hi' & Hk').
    rewrite Hi in Hi'. injection Hi' as <-. eauto. }
  destruct Hseat as (k & p & Hi & Hk).
  assert (Hamount : exists amount, amount_of data = Ok amount).
  { unfold handle_player_action in H.
    rewrite Hi, (py_get_lookup _ _ _ _ Hi Hk) in H. cbn [mbind result_bind] in H.
    destruct (amount_of data) as [amount|]; [eauto | discriminate]. }
  destruct Hamount as (amount & Hamount).
  exists k, p, amount. split; [exact Hi|]. split; [exact Hk|].
  split; [exact Hamount|].
  destruct (handle_player_action_at_seat g i data k p amount Hi Hk Hamount)
    as (g2 & r2 & q & H2 & _).
  rewrite H2 in H.
  destruct (emit_game_state g2 false) as [[]|] eqn:E; [|discriminate].
  cbn [mbind result_bind] in H. injection H as <- <-. exact E.
Qed.


(** The seat of the player who acted, after the action. *)
Lemma py_get_insert {A} (l : list A) (i : Z) (k : nat) (a b : A) :
  py_index l i = Some k -> l !! k = Some a ->
  py_get (<[k := b]> l) i = Ok b.
Proof.
  intros Hi Hk. apply (py_get_lookup _ _ k).
  - unfold py_index in *. rewrite length_insert. exact Hi.
  - apply list_lookup_insert_eq. apply lookup_lt_Some in Hk. exact Hk.
Qed.

(** X9. At a table where every card is a dealt one, with an amount that
    [int] accepts, [handle_player_action] never lowers the current bet of
    the round.  It reports a raise exactly when it has raised the current
    bet, which is then the bet of the player who acted, and the last raise
    is the amount it went up by; otherwise the last raise stays. *)
Theorem handle_player_action_raise_bookkeeping (g : Game) (i : Z)
        (data : ActionData) (p : Player) (amount : Z) :
  py_get (players g) i = Ok p ->
  amount_of data = Ok amount ->
  all_dealt g ->
  exists g' is_raise q,
    handle_player_action g i data = Ok (g', is_raise) /\
    py_get (players g') i = Ok q /\
    current_bet g <= current_bet g' /\
    (is_raise = true <-> current_bet g < current_bet g') /\
    (is_raise = true ->
     current_bet g' = bet q /\ last_raise g' = current_bet g' - current_bet g /\
     0 < last_raise g') /\
    (is_raise = false ->
     current_bet g' = current_bet g /\ last_raise g' = last_raise g).
Proof.
  intros Hp Hamount Hdealt. destruct (py_get_index _ _ _ Hp) as (k & Hi & Hk).
  destruct (handle_player_action_returns g i data k p amount Hi Hk Hamount Hdealt)
    as (g' & r & q & H & Hps & _ & _ & Hle & Hiff & Hraise & Hkeep & _).
  exists g', r, q. split; [exact H|].
  split; [rewrite Hps; apply (py_get_insert _ _ _ p q Hi Hk)|].
  split; [exact Hle|]. split; [exact Hiff|]. split.
  - intros Hr. destruct (Hraise Hr) as [H1 H2]. apply Hiff in Hr. repeat split; lia.
  - intros Hr. split; [|auto].
    destruct (Z.eq_dec (current_bet g') (current_bet g)) as [E | E]; [exact E|].
    assert (r = true) by (apply Hiff; lia). congruence.
Qed.

(** X10. At a table where every card is a dealt one, with an amount that
    [int] accepts, any action returns, and after it the player holds the
    same cards under the same name; a player who had folded is still out
    of the hand and a player who was all-in still is; and a player left
    with no chips is marked all-in with the status "ALL-IN", also when the
    action was a fold. *)
Theorem handle_player_action_keeps_fold_and_all_in (g : Game) (i : Z)
        (data : ActionData) (p : Player) (amount : Z) :
  py_get (players g) i = Ok p ->
  amount_of data = Ok amount ->
  all_dealt g ->
  exists g' is_raise q,
    handle_player_action g i data = Ok (g', is_raise) /\
    py_get (players g') i = Ok q /\
    name q = name p /\ is_bot q = is_bot p /\ hand q = hand p /\
    (in_hand p = false -> in_hand q = false) /\
    (is_all_in p = true -> is_all_in q = true) /\
    (chips q = 0 -> is_all_in q = true /\ status q = "ALL-IN"%string).
Proof.
  intros Hp Hamount Hdealt. destruct (py_get_index _ _ _ Hp) as (k & Hi & Hk).
  destruct (handle_player_action_returns g i data k p amount Hi Hk Hamount Hdealt)
    as (g' & r & q & H & Hps & _ & Hafter & _).
  destruct Hafter as (_ & A2 & A3 & A4 & _ & _ & A7 & A8 & A9).
  exists g', r, q. split; [exact H|].
  split; [rewrite Hps; apply (py_get_insert _ _ _ p q Hi Hk)|].
  repeat split; auto.
  - intros Hout. destruct (in_hand q) eqn:E; [|reflexivity].
    rewrite (A7 eq_refl) in Hout. discriminate.
  - apply A9. assumption.
  - apply A9. assumption.
Qed.

(** A call, at a seat of the table: the table that is sent and
    returned. *)
Lemma handle_call (g : Game) (i : Z) (data : ActionData) (p : Player)
      (amount : Z) :
  a_action data = Some "call"%string ->
  py_get (players g) i = Ok p ->
  amount_of data = Ok amount ->
  all_dealt g ->
  exists g' q,
    handle_player_action g i data = Ok (g', false) /\
    py_get (players g') i = Ok q /\
    bet q - bet p = Z.min (current_bet g - bet p) (chips p) /\
    chips q = chips p - (bet q - bet p) /\
    in_hand q = in_hand p /\
    current_bet g' = current_bet g /\
    (chips q = 0 -> is_all_in q = true).
Proof.
  intros Hact Hp Hamount Hdealt. destruct (py_get_index _ _ _ Hp) as (k & Hi & Hk).
  unfold handle_player_action. rewrite Hi, Hp. cbn [mbind result_bind].
  rewrite Hamount. cbn [mbind result_bind].
  rewrite Hact. simpl bool_decide. cbv beta iota zeta.
  set (q := pay (Z.min (current_bet g - bet p) (chips p)) p).
  set (g1 := update_player k (pay (Z.min (current_bet g - bet p) (chips p))) g).
  assert (Hi1 : py_index (players g1) i = Some k).
  { unfold g1, update_player; simpl. rewrite py_index_alter. exact Hi. }
  assert (Hq : players g1 !! k = Some q).
  { unfold g1, update_player; simpl. rewrite list_lookup_alter_eq, Hk. reflexivity. }
  rewrite (py_get_lookup _ _ _ _ Hi1 Hq). cbn [mbind result_bind].
  destruct (Z.eqb_spec (chips q) 0) as [Hz | Hz];
    rewrite (emit_after_action g _ Hdealt) by (unfold g1; cards_kept);
    cbn [mbind result_bind].
  - eexists; eexists. split; [reflexivity|]. split.
    + apply (py_get_alter go_all_in _ _ _ q Hi1 Hq).
    + unfold q; simpl. repeat split; lia.
  - eexists; eexists. split; [reflexivity|]. split.
    + apply (py_get_lookup _ _ _ _ Hi1 Hq).
    + unfold q in *; simpl in *. repeat split; lia.
Qed.

(** X11. At a table where every card is a dealt one, a call (with an
    amount, if one is sent along, that [int] accepts) moves
    min(to_call, chips) from the stack to the bet and is never a raise.
    For a player with chips who is behind the current bet, it leaves the
    stack at 0 or more and the bet at the current bet or below; the bet
    falls short of the current bet only when the stack is emptied, and
    then the player is all-in. *)
Theorem call_matches_or_goes_all_in (g : Game) (i : Z) (data : ActionData)
        (p : Player) (amount : Z) :
  a_action data = Some "call"%string ->
  py_get (players g) i = Ok p ->
  amount_of data = Ok amount ->
  all_dealt g ->
  0 <= chips p -> bet p <= current_bet g ->
  exists g' q,
    handle_player_action g i data = Ok (g', false) /\
    py_get (players g') i = Ok q /\
    bet q - bet p = Z.min (current_bet g - bet p) (chips p) /\
    chips q = chips p - (bet q - bet p) /\
    0 <= chips q /\ bet p <= bet q <= current_bet g /\
    current_bet g' = current_bet g /\
    (bet q < current_bet g -> chips q = 0 /\ is_all_in q = true).
Proof.
  intros Hact Hp Hamount Hdealt Hc Hb.
  destruct (handle_call g i data p amount Hact Hp Hamount Hdealt)
    as (g' & q & H & Hq & Hpaid & Hchips & _ & Hcb & Hall).
  exists g', q. split; [exact H|]. split; [exact Hq|].
  split; [exact Hpaid|]. split; [exact Hchips|].
  split; [lia|]. split; [lia|]. split; [exact Hcb|].
  intros Hshort. assert (Hz : chips q = 0) by lia. auto.
Qed.

(** ** Awarding the pot *)

Lemma seats_from_singleton (f : Player -> bool) (ps : list Player) : forall s w,
  seats_from f s ps = [w] ->
  exists p, ps !! (w - s)%nat = Some p /\ f p = true /\ (s <= w)%nat.
Proof.
  intros s w H.
  destruct (seats_from_spec f ps s w) as (Hle & p & Hp & Hf).
  { rewrite H. left. }
  eauto.
Qed.

Lemma award_pot_hands (g : Game) :
  hand <$> players (award_pot g) = hand <$> players g /\
  community_cards (award_pot g) = community_cards g.
Proof.
  unfold award_pot.
  destruct (seats_where in_hand (players g)) as [|w [|w' ws]]; auto.
  unfold update_player; simpl. split; [|reflexivity].
  apply hands_alter. reflexivity.
Qed.

(** X12. [award_pot_to_winner] sends and returns a table on which the
    stacks and the pot hold together what they held; it raises only when
    the state cannot be sent, and not when every card on the table is a
    dealt one.  When exactly one player is in the hand this table has the
    pot added to that player's chips and the pot empty; in every other
    case, no contender or several, it is the table as it was, the pot
    still on it. *)
Theorem award_pot_to_winner_conserves (g : Game) :
  exists g',
    award_pot_to_winner g = (_ ← emit_game_state g' false; Ok g') /\
    (all_dealt g -> award_pot_to_winner g = Ok g') /\
    sum_chips (players g') + pot g' = sum_chips (players g) + pot g /\
    if (count_where in_hand (players g) =? 1)%nat
    then pot g' = 0 /\
         exists w p, seats_where in_hand (players g) = [w] /\
           players g !! w = Some p /\
           players g' = <[w := win (pot g) p]> (players g)
    else g' = g.
Proof.
  exists (award_pot g). split; [reflexivity|]. split.
  { intros Hdealt. unfold award_pot_to_winner. cbv zeta.
    rewrite (emit_all_dealt (award_pot g) false); [reflexivity|].
    apply (all_dealt_hands g); [apply award_pot_hands..|exact Hdealt]. }
  unfold award_pot.
  pose proof (seats_from_length in_hand (players g) 0) as Hlen.
  fold (seats_where in_hand (players g)) in Hlen.
  destruct (seats_where in_hand (players g)) as [|w [|w' ws]] eqn:E;
    simpl in Hlen; rewrite <- Hlen; simpl Nat.eqb.
  - split; reflexivity.
  - destruct (seats_from_singleton in_hand (players g) 0 w E) as (p & Hp & _).
    rewrite Nat.sub_0_r in Hp.
    unfold update_player; simpl. rewrite (alter_insert _ _ _ _ Hp).
    split.
    + rewrite (sum_chips_insert _ _ _ _ Hp). simpl. lia.
    + split; [reflexivity|]. exists w, p. auto.
  - split; reflexivity.
Qed.

(** ** Dealing the community cards *)

Lemma Deck_deal_top (d : list Card) :
  Deck_deal d = (reverse d !! 0%nat, reverse (drop 1 (reverse d))).
Proof.
  unfold Deck_deal. destruct (reverse d) as [|c rest] eqn:E.
  - simpl. f_equal. rewrite <- (reverse_involutive d), E. reflexivity.
  - simpl. rewrite drop_0. reflexivity.
Qed.

(** The i-th card dealt from a deck is the i-th from its end, and
    [None] once the deck is exhausted. *)
Lemma deal_community_spec (n : nat) : forall g,
  community_cards (deal_community n g)
  = community_cards g ++ ((fun i => reverse (deck g) !! i) <$> seq 0 n) /\
  deck (deal_community n g) = reverse (drop n (reverse (deck g))) /\
  players (deal_community n g) = players g /\
  pot (deal_community n g) = pot g.
Proof.
  induction n as [|n IH]; intros g.
  - simpl. rewrite app_nil_r, drop_0, reverse_involutive. auto.
  - cbn [deal_community]. rewrite Deck_deal_top. cbv beta iota zeta.
    match goal with
    | |- community_cards (deal_community n ?g1) = _ /\ _ =>
        destruct (IH g1) as (Hc & Hd & Hp & Hpot)
    end.
    rewrite Hc, Hd, Hp, Hpot. simpl. rewrite reverse_involutive, drop_drop.
    split; [|auto].
    rewrite <- app_assoc. f_equal. simpl. f_equal.
    rewrite <- fmap_S_seq, <- list_fmap_compose. apply list_fmap_ext.
    intros i x _. simpl. rewrite lookup_drop. reflexivity.
Qed.

Lemma begin_round_cards (g g0 : Game) (stage_name : string) (cards_to_deal : Z) :
  begin_round g stage_name cards_to_deal = Ok g0 ->
  0 < cards_to_deal ->
  community_cards g0
  = community_cards g
    ++ ((fun i => reverse (deck g) !! S i) <$> seq 0 (Z.to_nat cards_to_deal)) /\
  deck g0 = reverse (drop (S (Z.to_nat cards_to_deal)) (reverse (deck g))).
Proof.
  unfold begin_round. intros H Hpos.
  destruct (Z.ltb_spec 0 cards_to_deal); [|lia].
  assert (Hdeal : forall g1, deck g1 = deck g -> community_cards g1 = community_cards g ->
            Ok (deal_community (Z.to_nat cards_to_deal)
                  (set_deck (Deck_deal (deck g1)).2 g1)) = Ok g0 ->
            community_cards g0
            = community_cards g
              ++ ((fun i => reverse (deck g) !! S i) <$> seq 0 (Z.to_nat cards_to_deal)) /\
            deck g0 = reverse (drop (S (Z.to_nat cards_to_deal)) (reverse (deck g)))).
  { intros g1 Hd Hc [= <-].
    destruct (deal_community_spec (Z.to_nat cards_to_deal)
                (set_deck (Deck_deal (deck g1)).2 g1)) as (-> & -> & _).
    rewrite Deck_deal_top. simpl. rewrite Hd, Hc, reverse_involutive, drop_drop.
    split; [|reflexivity]. f_equal. apply list_fmap_ext.
    intros i x _. simpl. rewrite lookup_drop. reflexivity. }
  destruct (bool_decide (stage_name <> "Pre-Flop"%string)).
  - destruct (get_next_active_player _ _) as [i|]; [|discriminate].
    cbn [mbind result_bind] in H.
    eapply Hdeal; cycle 2; [exact H | reflexivity | reflexivity].
  - cbn [mbind result_bind] in H.
    eapply Hdeal; cycle 2; [exact H | reflexivity | reflexivity].
Qed.

(** X13. A round that reveals community cards ([cards_to_deal] > 0) burns
    the top card of the deck, the last of the list, and appends the next
    [cards_to_deal] ones to the community cards, in the order dealt: the
    burnt card is never shown.  When the deck holds that many cards and one
    more, every card revealed is a dealt card and the deck shrinks by
    [cards_to_deal] + 1; past the end of the deck it appends [None]. *)
Theorem begin_round_burns_and_reveals (g : Game) (stage_name : string)
        (cards_to_deal : Z) :
  stage_name = "Pre-Flop"%string \/ players g <> [] ->
  0 < cards_to_deal ->
  exists g0,
    begin_round g stage_name cards_to_deal = Ok g0 /\
    community_cards g0
    = community_cards g
      ++ ((fun i => reverse (deck g) !! S i) <$> seq 0 (Z.to_nat cards_to_deal)) /\
    deck g0 = reverse (drop (S (Z.to_nat cards_to_deal)) (reverse (deck g))) /\
    (cards_to_deal < Z.of_nat (length (deck g)) ->
     dealt (drop (length (community_cards g)) (community_cards g0)) /\
     Z.of_nat (length (deck g0)) = Z.of_nat (length (deck g)) - cards_to_deal - 1).
Proof.
  intros Hstage Hpos.
  destruct (begin_round_spec g stage_name cards_to_deal Hstage) as (g0 & H & _).
  destruct (begin_round_cards g g0 stage_name cards_to_deal H Hpos) as [Hc Hd].
  exists g0. split; [exact H|]. split; [exact Hc|]. split; [exact Hd|].
  intros Hlen. split.
  - rewrite Hc, drop_app_length. apply Forall_fmap, Forall_forall.
    intros i Hi. apply elem_of_seq in Hi. simpl.
    apply lookup_lt_is_Some. rewrite length_reverse. lia.
  - rewrite Hd, length_reverse, length_drop, length_reverse. lia.
Qed.

(** ** Dealing the hole cards *)

Lemma Deck_deal_from (d top : list Card) (j : nat) :
  reverse d = drop j top ->
  Deck_deal d = (top !! j, reverse (drop (S j) top)).
Proof.
  intros H. rewrite Deck_deal_top, H, lookup_drop, drop_drop, Nat.add_0_r.
  do 3 f_equal. lia.
Qed.

(** One pass of [deal_hole_cards] round the table, from the seat after
    [done]. *)
Lemma deal_pass_from (top : list Card) (rest : list Player) :
  forall (done : list Player) (g : Game) (j : nat),
    players g = done ++ rest ->
    reverse (deck g) = drop j top ->
    fold_left deal_hole_card_at (seq (length done) (length rest)) g
    = set_players (done ++ give top j rest)
        (set_deck (reverse (drop (j + count_where in_hand rest) top)) g).
Proof.
  induction rest as [|p rest IH]; intros done g j Hps Hd.
  - simpl. unfold count_where. simpl. rewrite Nat.add_0_r, <- Hd, reverse_involutive.
    rewrite <- Hps. unfold set_players, set_deck; simpl. symmetry. apply Game_eta.
  - cbn [length seq fold_left].
    assert (Hk : players g !! length done = Some p).
    { rewrite Hps, lookup_app_r, Nat.sub_diag by lia. reflexivity. }
    unfold deal_hole_card_at at 2. rewrite Hk.
    unfold count_where. rewrite filter_cons. cbn [give].
    destruct (in_hand p) eqn:Hin.
    + rewrite (Deck_deal_from _ top j Hd). cbv beta iota zeta.
      destruct (decide (true = true)); [|congruence].
      match goal with
      | |- fold_left _ _ ?g1 = _ =>
          specialize (IH (done ++ [set_hand (hand p ++ [top !! j]) p]) g1 (S j))
      end.
      rewrite length_app in IH. simpl in IH.
      replace (length done + 1)%nat with (S (length done)) in IH by lia.
      rewrite IH.
      * unfold set_players, set_deck, update_player; simpl.
        rewrite <- app_assoc. simpl. do 3 f_equal. unfold count_where. lia.
      * unfold update_player, set_players, set_deck; simpl. rewrite Hps.
        replace (length done) with (length done + 0)%nat at 1 by lia.
        rewrite alter_app_r. simpl. rewrite <- app_assoc. reflexivity.
      * simpl. apply reverse_involutive.
    + destruct (decide (false = true)); [congruence|].
      specialize (IH (done ++ [p]) g j).
      rewrite length_app in IH. simpl in IH.
      replace (length done + 1)%nat with (S (length done)) in IH by lia.
      rewrite IH.
      * rewrite <- app_assoc. reflexivity.
      * rewrite Hps, <- app_assoc. reflexivity.
      * exact Hd.
Qed.

Lemma give_length (top : list Card) (ps : list Player) : forall j,
  length (give top j ps) = length ps.
Proof.
  induction ps as [|p ps IH]; intros j; simpl; [reflexivity|].
  destruct (in_hand p); simpl; rewrite IH; reflexivity.
Qed.

Lemma give_count (top : list Card) (ps : list Player) : forall j,
  count_where in_hand (give top j ps) = count_where in_hand ps.
Proof.
  unfold count_where.
  induction ps as [|p ps IH]; intros j; simpl; [reflexivity|].
  destruct (in_hand p) eqn:E; rewrite !filter_cons; simpl; rewrite E;
    destruct (decide _); try congruence; simpl; rewrite IH; reflexivity.
Qed.

Lemma deal_pass (g : Game) :
  fold_left deal_hole_card_at (seq 0 (length (players g))) g
  = set_players (give (reverse (deck g)) 0 (players g))
      (set_deck (reverse (drop (count_where in_hand (players g)) (reverse (deck g)))) g).
Proof.
  exact (deal_pass_from (reverse (deck g)) (players g) [] g 0 eq_refl eq_refl).
Qed.

(** The seat [k] after one pass. *)
Lemma give_lookup (top : list Card) (ps : list Player) : forall j k p,
  ps !! k = Some p ->
  give top j ps !! k
  = Some (if in_hand p
          then set_hand (hand p ++ [top !! (j + count_where in_hand (take k ps))%nat]) p
          else p).
Proof.
  unfold count_where.
  induction ps as [|x ps IH]; intros j [|k] p Hk; simpl in Hk; try discriminate.
  - injection Hk as ->. simpl. rewrite Nat.add_0_r.
    destruct (in_hand p); reflexivity.
  - simpl give. rewrite firstn_cons, filter_cons.
    destruct (in_hand x) eqn:E; destruct (decide _); try congruence; simpl.
    + rewrite (IH (S j) k p Hk). destruct (in_hand p); [|reflexivity].
      do 5 f_equal. lia.
    + rewrite (IH j k p Hk). reflexivity.
Qed.

Lemma give_take (top : list Card) (ps : list Player) : forall j k,
  take k (give top j ps) = give top j (take k ps).
Proof.
  induction ps as [|p ps IH]; intros j [|k]; simpl; try reflexivity.
  destruct (in_hand p); rewrite !firstn_cons, IH; reflexivity.
Qed.

Lemma deal_hole_cards_eq (g : Game) :
  let top := reverse (deck g) in
  let m := count_where in_hand (players g) in
  deal_hole_cards g
  = set_players (give (drop m top) 0 (give top 0 (players g)))
      (set_deck (reverse (drop (2 * m) top)) g).
Proof.
  intros top m. unfold deal_hole_cards. cbn [seq fold_left].
  rewrite (deal_pass g). fold top. fold m.
  rewrite deal_pass. cbn [players deck set_players set_deck].
  rewrite reverse_involutive, give_count. fold m. rewrite drop_drop.
  unfold set_players, set_deck; simpl. do 3 f_equal. lia.
Qed.

(** X14. [deal_hole_cards] goes round the table twice and gives each
    player who is in the hand one card at a time from the end of the deck:
    the i-th such player ends with the i-th and the (m+i)-th card dealt
    added to the hand, m being the number of players in the hand.  It
    gives nothing to the others, takes 2m cards off the deck and touches
    nothing else; a card dealt past the end of the deck is [None]. *)
Theorem deal_hole_cards_round_robin (g : Game) (k : nat) (p : Player) :
  players g !! k = Some p ->
  let top := reverse (deck g) in
  let m := count_where in_hand (players g) in
  let i := count_where in_hand (take k (players g)) in
  players (deal_hole_cards g) !! k
  = Some (if in_hand p
          then set_hand (hand p ++ [top !! i; top !! (m + i)%nat]) p
          else p) /\
  deck (deal_hole_cards g) = reverse (drop (2 * m) top) /\
  exists ps, deal_hole_cards g
             = set_players ps (set_deck (deck (deal_hole_cards g)) g).
Proof.
  intros Hk top m i. rewrite deal_hole_cards_eq. fold top. fold m.
  cbn [players deck set_players set_deck].
  split; [|split; [reflexivity | eauto]].
  pose proof (give_lookup top (players g) 0 k p Hk) as H1. fold i in H1. simpl in H1.
  rewrite (give_lookup (drop m top) _ 0 k _ H1).
  rewrite give_take, give_count. fold i. simpl.
  destruct (in_hand p) eqn:E.
  - simpl. rewrite E. rewrite lookup_drop. unfold set_hand; simpl.
    rewrite <- app_assoc. reflexivity.
  - rewrite E. reflexivity.
Qed.

(** ** What a betting round keeps *)

Lemma seat_kept_refl (p : Player) : seat_kept p p.
Proof. unfold seat_kept. auto. Qed.

Lemma seat_kept_trans (p q r : Player) :
  seat_kept p q -> seat_kept q r -> seat_kept p r.
Proof.
  unfold seat_kept. intros (A1 & A2 & A3 & A4 & A5) (B1 & B2 & B3 & B4 & B5).
  repeat split; try congruence; auto.
Qed.

Lemma Forall2_seat_kept_refl (ps : list Player) : Forall2 seat_kept ps ps.
Proof. induction ps; constructor; auto using seat_kept_refl. Qed.

Lemma Forall2_seat_kept_trans (a b c : list Player) :
  Forall2 seat_kept a b -> Forall2 seat_kept b c -> Forall2 seat_kept a c.
Proof.
  intros H. revert c. induction H as [|p q a b Hpq _ IH]; intros c Hc.
  - inversion Hc. constructor.
  - inversion Hc as [|q' r b' c' Hqr Hbc]; subst.
    constructor; [apply (seat_kept_trans p q r) | apply IH]; assumption.
Qed.

Lemma Forall2_seat_kept_insert (ps : list Player) : forall k p q,
  ps !! k = Some p -> seat_kept p q -> Forall2 seat_kept ps (<[k := q]> ps).
Proof.
  induction ps as [|x ps IH]; intros [|k] p q Hk Hpq; simpl in Hk; try discriminate.
  - injection Hk as ->. constructor; [exact Hpq | apply Forall2_seat_kept_refl].
  - constructor; [apply seat_kept_refl | apply (IH k p q Hk Hpq)].
Qed.

Lemma stakes_kept_refl (g : Game) : stakes_kept g g.
Proof. unfold stakes_kept. repeat split. apply Forall2_seat_kept_refl. Qed.

Lemma stakes_kept_trans (a b c : Game) :
  stakes_kept a b -> stakes_kept b c -> stakes_kept a c.
Proof.
  unfold stakes_kept.
  intros (A1 & A2 & A3 & A4 & A5 & A6 & A7 & A8 & A9)
         (B1 & B2 & B3 & B4 & B5 & B6 & B7 & B8 & B9).
  repeat split; try congruence.
  apply (Forall2_seat_kept_trans _ (players b)); assumption.
Qed.

Lemma stakes_kept_turn (g : Game) (i : Z) :
  stakes_kept g (set_current_player_index i g).
Proof. unfold stakes_kept. simpl. repeat split. apply Forall2_seat_kept_refl. Qed.

Lemma count_where_insert (f : Player -> bool) (ps : list Player) : forall k q,
  (count_where f ps <= S (count_where f (<[k := q]> ps)))%nat.
Proof.
  unfold count_where.
  induction ps as [|x ps IH]; intros [|k] q; simpl; try lia.
  - rewrite !filter_cons. destruct (decide _), (decide _); simpl; lia.
  - rewrite !filter_cons. specialize (IH k q).
    destruct (decide _); simpl; lia.
Qed.

(** An action that returned, between the table before and the one after. *)
Lemma handle_player_action_Ok (g g1 : Game) (i : Z) (data : ActionData)
      (r : bool) :
  handle_player_action g i data = Ok (g1, r) ->
  stakes_kept g g1 /\
  (count_where in_hand (players g) <= S (count_where in_hand (players g1)))%nat.
Proof.
  intros H.
  destruct (handle_player_action_Ok_inv g g1 i data r H)
    as (k & p & amount & Hi & Hk & Hamount & Hemit).
  destruct (handle_player_action_at_seat g i data k p amount Hi Hk Hamount)
    as (g' & r' & q & H' & Hps & Hsame & Hafter & _).
  rewrite H in H'.
  destruct (emit_game_state g' false) as [[]|]; [|discriminate].
  cbn [mbind result_bind] in H'. injection H' as <- <-.
  destruct Hsame as (S1 & S2 & S3 & S4 & S5 & S6 & S7 & S8 & S9).
  destruct Hafter as (_ & A2 & A3 & A4 & _ & A6 & A7 & A8 & _).
  split.
  - unfold stakes_kept. rewrite Hps.
    rewrite (sum_chips_insert _ _ _ q Hk), (sum_bets_insert _ _ _ q Hk).
    repeat split; auto; try lia.
    apply (Forall2_seat_kept_insert _ _ p q Hk). unfold seat_kept. auto.
  - rewrite Hps. apply count_where_insert.
Qed.

Section RoundKeeps.

Variable get_bot_action : Game -> Z -> Z -> string -> ActionData.
Variable wait_for_player_action : nat -> Game -> Z -> Z -> ActionData.

(** The loop of [betting_round] moves chips only from stacks to bets, and
    does not fold the last player in the hand. *)
Lemma betting_loop_keeps (fuel : nat) : forall g starter asked g' asked',
  betting_loop get_bot_action wait_for_player_action fuel g starter asked
  = Some (Ok (g', asked')) ->
  stakes_kept g g' /\
  ((1 <= count_where in_hand (players g))%nat ->
   (1 <= count_where in_hand (players g'))%nat).
Proof.
  induction fuel as [|fuel IH]; intros g starter asked g' asked' H; [discriminate|].
  cbn [betting_loop] in H. cbv zeta in H.
  unfold seats_where in H. rewrite seats_from_length in H.
  destruct (Nat.leb_spec (count_where in_hand (players g)) 1) as [Hle | Hgt].
  { injection H as <- <-. split; [apply stakes_kept_refl | auto]. }
  destruct (py_get (players g) (current_player_index g)) as [player|] eqn:Hp;
    [|discriminate].
  destruct (is_all_in player || negb (in_hand player)).
  - destruct (get_next_active_player g (current_player_index g)) as [i|]; [|discriminate].
    assert (Hturn := stakes_kept_turn g i).
    destruct (i =? starter).
    + injection H as <- <-. split; [exact Hturn | auto].
    + apply IH in H as [H1 H2]. split.
      * apply (stakes_kept_trans _ _ _ Hturn H1).
      * exact H2.
  - destruct (emit_game_state g false) as [[]|]; [|discriminate].
    match type of H with
    | match handle_player_action ?g0 ?i0 ?a0 with _ => _ end = _ =>
        destruct (handle_player_action g0 i0 a0) as [[g1 is_raise]|] eqn:Hact;
          [|discriminate]
    end.
    apply handle_player_action_Ok in Hact as [Hkept Hcount].
    destruct (get_next_active_player g1 (current_player_index g1)) as [i|];
      [|discriminate].
    assert (Hturn := stakes_kept_turn g1 i).
    assert (Hstep : stakes_kept g (set_current_player_index i g1))
      by apply (stakes_kept_trans _ _ _ Hkept Hturn).
    assert (Hone : (1 <= count_where in_hand
                           (players (set_current_player_index i g1)))%nat)
      by (simpl; lia).
    assert (Hrec : forall s a,
               betting_loop get_bot_action wait_for_player_action fuel
                 (set_current_player_index i g1) s a = Some (Ok (g', asked')) ->
               stakes_kept g g' /\
               ((1 <= count_where in_hand (players g))%nat ->
                (1 <= count_where in_hand (players g'))%nat)).
    { intros s a Hloop. apply IH in Hloop as [H1 H2]. split.
      - apply (stakes_kept_trans _ _ _ Hstep H1).
      - intros _. apply H2, Hone. }
    destruct (i =? _).
    + destruct (py_max _) as [highest_bet|]; [|discriminate].
      destruct (forallb _ _).
      * injection H as <- <-. split; [exact Hstep | intros _; exact Hone].
      * apply Hrec in H. exact H.
    + apply Hrec in H. exact H.
Qed.

End RoundKeeps.

Lemma deal_community_table (n : nat) : forall g : Game,
  let g' := deal_community n g in
  players g' = players g /\ pot g' = pot g /\ stage g' = stage g /\
  dealer_pos g' = dealer_pos g /\ small_blind g' = small_blind g /\
  big_blind g' = big_blind g.
Proof.
  induction n as [|n IH]; intros g; simpl; [repeat split|].
  destruct (Deck_deal (deck g)) as [card rest].
  destruct (IH (set_community_cards (community_cards g ++ [card]) (set_deck rest g)))
    as (-> & -> & -> & -> & -> & ->).
  repeat split.
Qed.

(** The table a betting round starts from, when the reset of the round
    has not raised. *)
Lemma begin_round_Ok (g g0 : Game) (stage_name : string) (cards_to_deal : Z) :
  begin_round g stage_name cards_to_deal = Ok g0 ->
  players g0 = (if bool_decide (stage_name = "Pre-Flop"%string)
                then players g else set_bet 0 <$> players g) /\
  pot g0 = pot g /\ stage g0 = stage_name /\
  dealer_pos g0 = dealer_pos g /\ small_blind g0 = small_blind g /\
  big_blind g0 = big_blind g.
Proof.
  unfold begin_round. intros H.
  assert (Hdeal : forall g1 : Game,
            Ok (if 0 <? cards_to_deal
                then deal_community (Z.to_nat cards_to_deal)
                       (set_deck (Deck_deal (deck g1)).2 g1)
                else g1) = Ok g0 ->
            players g0 = players g1 /\ pot g0 = pot g1 /\ stage g0 = stage g1 /\
            dealer_pos g0 = dealer_pos g1 /\ small_blind g0 = small_blind g1 /\
            big_blind g0 = big_blind g1).
  { intros g1 Hg1. injection Hg1 as <-.
    destruct (0 <? cards_to_deal); [|repeat split].
    apply (deal_community_table _ (set_deck (Deck_deal (deck g1)).2 g1)). }
  destruct (decide (stage_name = "Pre-Flop"%string)) as [E | E].
  - rewrite (bool_decide_eq_false_2 (stage_name <> "Pre-Flop"%string)) in H by tauto.
    rewrite (bool_decide_eq_true_2 _ E). cbn [mbind result_bind] in H.
    apply Hdeal in H. exact H.
  - rewrite (bool_decide_eq_true_2 (stage_name <> "Pre-Flop"%string) E) in H.
    rewrite (bool_decide_eq_false_2 _ E). cbv zeta in H.
    match type of H with
    | context [get_next_active_player ?a ?b] =>
        destruct (get_next_active_player a b) as [i|]; [|discriminate]
    end.
    cbn [mbind result_bind] in H. apply Hdeal in H. exact H.
Qed.

Lemma sum_chips_cleared (ps : list Player) :
  sum_chips (set_bet 0 <$> ps) = sum_chips ps.
Proof. induction ps as [|p ps IH]; csimpl; [|rewrite IH]; reflexivity. Qed.

Lemma count_in_hand_cleared (ps : list Player) :
  count_where in_hand (set_bet 0 <$> ps) = count_where in_hand ps.
Proof.
  rewrite <- !(seats_from_length in_hand _ 0%nat), seats_from_cleared. reflexivity.
Qed.

Lemma Forall2_seat_kept_cleared (ps : list Player) :
  Forall2 seat_kept ps (set_bet 0 <$> ps).
Proof.
  induction ps as [|p ps IH]; csimpl; constructor; [|exact IH].
  unfold seat_kept. simpl. auto.
Qed.

(** A betting round that has returned. *)
Lemma betting_round_Ok
        (get_bot_action : Game -> Z -> Z -> string -> ActionData)
        (wait_for_player_action : nat -> Game -> Z -> Z -> ActionData)
        (fuel : nat) (g g' : Game) (stage_name : string) (cards_to_deal : Z)
        (several : bool) (asked : list (Z * Z)) :
  betting_round get_bot_action wait_for_player_action fuel g stage_name
                cards_to_deal = Some (Ok (g', several, asked)) ->
  Forall (fun p => bet p = 0) (players g') /\
  sum_chips (players g') + pot g'
  = sum_chips (players g) + pot g
    + (if bool_decide (stage_name = "Pre-Flop"%string)
       then sum_bets (players g) else 0) /\
  Forall2 seat_kept (players g) (players g') /\
  ((1 <= count_where in_hand (players g))%nat ->
   (1 <= count_where in_hand (players g'))%nat) /\
  (several = true <-> (2 <= count_where in_hand (players g'))%nat) /\
  stage g' = stage_name /\ dealer_pos g' = dealer_pos g /\
  small_blind g' = small_blind g /\ big_blind g' = big_blind g.
Proof.
  unfold betting_round. intros H.
  destruct (begin_round g stage_name cards_to_deal) as [g0|] eqn:Hbegin;
    [|discriminate].
  apply begin_round_Ok in Hbegin as (Hps0 & Hpot0 & Hst0 & Hd0 & Hsb0 & Hbb0).
  assert (Hsum0 : sum_chips (players g0) + sum_bets (players g0)
                  = sum_chips (players g)
                    + (if bool_decide (stage_name = "Pre-Flop"%string)
                       then sum_bets (players g) else 0)).
  { rewrite Hps0. destruct (bool_decide _); [reflexivity|].
    rewrite sum_chips_cleared, sum_bets_cleared. reflexivity. }
  assert (Hkept0 : Forall2 seat_kept (players g) (players g0)).
  { rewrite Hps0. destruct (bool_decide _);
      [apply Forall2_seat_kept_refl | apply Forall2_seat_kept_cleared]. }
  assert (Hcount0 : count_where in_hand (players g0) = count_where in_hand (players g)).
  { rewrite Hps0. destruct (bool_decide _); [reflexivity | apply count_in_hand_cleared]. }
  assert (Hend : forall g1 : Game,
            stakes_kept g0 g1 ->
            ((1 <= count_where in_hand (players g0))%nat ->
             (1 <= count_where in_hand (players g1))%nat) ->
            g' = collect_bets g1 -> several = several_in_hand (collect_bets g1) ->
            Forall (fun p => bet p = 0) (players g') /\
            sum_chips (players g') + pot g'
            = sum_chips (players g) + pot g
              + (if bool_decide (stage_name = "Pre-Flop"%string)
                 then sum_bets (players g) else 0) /\
            Forall2 seat_kept (players g) (players g') /\
            ((1 <= count_where in_hand (players g))%nat ->
             (1 <= count_where in_hand (players g'))%nat) /\
            (several = true <-> (2 <= count_where in_hand (players g'))%nat) /\
            stage g' = stage_name /\ dealer_pos g' = dealer_pos g /\
            small_blind g' = small_blind g /\ big_blind g' = big_blind g).
  { intros g1 (K1 & K2 & _ & _ & K5 & K6 & K7 & K8 & K9) Hone -> ->.
    destruct (collect_bets_pot_and_bets g1) as (Hpot & Hbets).
    split; [exact Hbets|].
    rewrite several_in_hand_count.
    rewrite Hpot. rewrite collect_bets_eq. simpl.
    rewrite sum_chips_cleared, count_in_hand_cleared.
    split; [lia|]. split.
    { apply (Forall2_seat_kept_trans _ (players g0)); [exact Hkept0|].
      apply (Forall2_seat_kept_trans _ (players g1)); [exact K9|].
      apply Forall2_seat_kept_cleared. }
    split; [rewrite <- Hcount0; exact Hone|].
    split; [reflexivity|].
    repeat split; congruence. }
  destruct ((count_where can_act (players g0) <? 2)%nat && (current_bet g0 =? 0)).
  - injection H as <- <- <-.
    apply (Hend g0); auto using stakes_kept_refl.
  - destruct (betting_loop _ _ fuel g0 (current_player_index g0) [])
      as [[[g1 asked1]|]|] eqn:Hloop; try discriminate.
    injection H as <- <- <-.
    apply betting_loop_keeps in Hloop as [Hk Hone].
    apply (Hend g1); auto.
Qed.

(** X15. A betting round that returns has put every bet of the round into
    the pot: all bets are 0 and the stacks and the pot together are what
    the stacks, the pot and (before the flop, where the blinds are on the
    table) the bets were; a later round starts by discarding the bets.
    Every seat keeps its player and hole cards, nobody is back in the hand
    or back from all-in, the round never folds the last player of the
    hand, and the flag it returns tells whether two or more players are
    still in the hand. *)
Theorem betting_round_settles_the_bets
        (get_bot_action : Game -> Z -> Z -> string -> ActionData)
        (wait_for_player_action : nat -> Game -> Z -> Z -> ActionData)
        (fuel : nat) (g g' : Game) (stage_name : string) (cards_to_deal : Z)
        (several : bool) (asked : list (Z * Z)) :
  betting_round get_bot_action wait_for_player_action fuel g stage_name
                cards_to_deal = Some (Ok (g', several, asked)) ->
  Forall (fun p => bet p = 0) (players g') /\
  sum_chips (players g') + pot g'
  = sum_chips (players g) + pot g
    + (if bool_decide (stage_name = "Pre-Flop"%string)
       then sum_bets (players g) else 0) /\
  Forall2 seat_kept (players g) (players g') /\
  ((1 <= count_where in_hand (players g))%nat ->
   (1 <= count_where in_hand (players g'))%nat) /\
  (several = true <-> (2 <= count_where in_hand (players g'))%nat) /\
  stage g' = stage_name /\ dealer_pos g' = dealer_pos g /\
  small_blind g' = small_blind g /\ big_blind g' = big_blind g.
Proof. apply betting_round_Ok. Qed.

(** ** The blinds at the start of a hand *)

(** Round a table where every seat can act, the turn passes to the next
    seat. *)
Lemma get_next_active_player_all_active (g : Game) (s : Z) :
  players g <> [] ->
  Forall (fun p => can_act p = true) (players g) ->
  get_next_active_player g s = Ok ((s + 1) mod Z.of_nat (length (players g))).
Proof.
  intros Hps Hall. unfold get_next_active_player. cbn [scan_seats].
  rewrite py_mod_seat by exact Hps. cbn [mbind result_bind].
  destruct (seat_lookup (players g) Hps (s + 1)) as (p & Hp & Hget).
  rewrite Hget. cbn [mbind result_bind].
  rewrite Forall_lookup in Hall. rewrite (Hall _ _ Hp). reflexivity.
Qed.

Lemma next_seat_differs (n a : Z) : 2 <= n -> a mod n <> (a mod n + 1) mod n.
Proof.
  intros Hn E. pose proof (Z.mod_pos_bound a n ltac:(lia)) as Hr.
  destruct (Z.eq_dec (a mod n + 1) n) as [Hw | Hw].
  - rewrite Hw, Z.mod_same in E by lia. lia.
  - rewrite (Z.mod_small (a mod n + 1) n) in E by lia. lia.
Qed.

Lemma next_seat_add (n a b : Z) : 0 < n -> (a mod n + b) mod n = (a + b) mod n.
Proof. intros Hn. rewrite Zplus_mod_idemp_l. reflexivity. Qed.

Lemma sum_bets_zero (ps : list Player) :
  Forall (fun p => bet p = 0) ps -> sum_bets ps = 0.
Proof. induction 1 as [|p ps Hp _ IH]; simpl; lia. Qed.

(** [post_blinds] on a table of two or more seats that can all act. *)
Lemma post_blinds_all_active (g : Game) :
  (2 <= length (players g))%nat ->
  Forall (fun p => can_act p = true) (players g) ->
  let n := Z.of_nat (length (players g)) in
  let sb := (dealer_pos g + 1) mod n in
  let bb := (dealer_pos g + 2) mod n in
  exists p_sb p_bb,
    players g !! Z.to_nat sb = Some p_sb /\
    players g !! Z.to_nat bb = Some p_bb /\
    Z.to_nat sb <> Z.to_nat bb /\
    post_blinds g
    = Ok (set_current_player_index ((dealer_pos g + 3) mod n)
            (set_last_raise (big_blind g)
               (set_current_bet (big_blind g)
                  (set_players
                     (<[Z.to_nat bb := post (big_blind g) p_bb]>
                        (<[Z.to_nat sb := post (small_blind g) p_sb]> (players g)))
                     g)))).
Proof.
  intros Hlen Hall n sb bb.
  assert (Hps : players g <> [])
    by (destruct (players g); [simpl in Hlen; lia | discriminate]).
  assert (Hn : 2 <= n) by (unfold n; lia).
  assert (Hsr : 0 <= sb < n) by (apply Z.mod_pos_bound; lia).
  assert (Hbr : 0 <= bb < n) by (apply Z.mod_pos_bound; lia).
  assert (Hbb : bb = (sb + 1) mod n).
  { unfold sb, bb. rewrite next_seat_add by lia. f_equal. lia. }
  assert (Hne : sb <> bb).
  { rewrite Hbb. apply next_seat_differs. exact Hn. }
  destruct (lookup_lt_is_Some_2 (players g) (Z.to_nat sb)) as [p_sb Hpsb];
    [unfold n in Hsr; lia|].
  destruct (lookup_lt_is_Some_2 (players g) (Z.to_nat bb)) as [p_bb Hpbb];
    [unfold n in Hbr; lia|].
  exists p_sb, p_bb. split; [exact Hpsb|]. split; [exact Hpbb|].
  split; [lia|].
  set (g1 := post_blind (Z.to_nat sb) (Z.min (small_blind g) (chips p_sb)) g).
  assert (Hps1 : players g1 = <[Z.to_nat sb := post (small_blind g) p_sb]> (players g)).
  { unfold g1, post_blind, update_player; simpl.
    rewrite (alter_insert _ _ _ _ Hpsb). reflexivity. }
  assert (Hlen1 : length (players g1) = length (players g))
    by (rewrite Hps1; apply length_insert).
  assert (H1bb : players g1 !! Z.to_nat bb = Some p_bb).
  { rewrite Hps1, list_lookup_insert_ne by lia. exact Hpbb. }
  set (g2 := post_blind (Z.to_nat bb) (Z.min (big_blind g) (chips p_bb)) g1).
  assert (Hps2 : players g2
                 = <[Z.to_nat bb := post (big_blind g) p_bb]>
                     (<[Z.to_nat sb := post (small_blind g) p_sb]> (players g))).
  { unfold g2, post_blind, update_player; cbn [players set_players].
    rewrite (alter_insert _ _ _ _ H1bb), Hps1. reflexivity. }
  assert (Hlen2 : length (players g2) = length (players g))
    by (rewrite Hps2, !length_insert; reflexivity).
  assert (Hall2 : Forall (fun p => can_act p = true) (players g2)).
  { rewrite Hps2. rewrite Forall_lookup in Hall.
    apply Forall_insert; [apply Forall_insert; [apply Forall_lookup; exact Hall|]|].
    - exact (Hall _ _ Hpsb).
    - exact (Hall _ _ Hpbb). }
  assert (Hps2' : players g2 <> []).
  { intros E. rewrite E in Hlen2. simpl in Hlen2. lia. }
  unfold post_blinds.
  rewrite !(get_next_active_player_all_active g _ Hps Hall). fold n. fold sb.
  cbn [mbind result_bind].
  rewrite (get_next_active_player_all_active g _ Hps Hall). fold n.
  rewrite <- Hbb. cbn [mbind result_bind].
  rewrite (py_get_lookup (players g) sb (Z.to_nat sb) p_sb)
    by (try apply py_index_seat; assumption).
  cbn [mbind result_bind].
  rewrite (py_index_seat (players g) sb) by exact Hsr. cbv iota. fold g1.
  rewrite (py_get_lookup (players g1) bb (Z.to_nat bb) p_bb)
    by (try apply py_index_seat; try rewrite Hlen1; assumption).
  cbn [mbind result_bind].
  rewrite (py_index_seat (players g1) bb) by (rewrite Hlen1; exact Hbr).
  cbv iota. replace (big_blind g1) with (big_blind g) by reflexivity. fold g2.
  rewrite (get_next_active_player_all_active g2 _ Hps2' Hall2). rewrite Hlen2. fold n.
  replace ((bb + 1) mod n) with ((dealer_pos g + 3) mod n)
    by (unfold bb; rewrite next_seat_add by lia; f_equal; lia).
  cbn [mbind result_bind]. rewrite <- Hps2. reflexivity.
Qed.

(** X16. At the start of a hand, on a table of two seats or more where
    everyone is in the hand with no bet, [post_blinds] takes the small
    blind from the seat after the button and the big blind from the next
    one, each clamped to the stack; the two seats differ, so with two
    players the big blind falls on the button.  The current bet and the
    last raise are set to the whole big blind, also when the stack posted
    less; the first to act is the third seat after the button; nothing
    else on the table changes, and the stacks and bets together hold what
    the stacks held. *)
Theorem post_blinds_at_the_start_of_a_hand (g : Game) :
  (2 <= length (players g))%nat ->
  Forall ready_for_hand (players g) ->
  let n := Z.of_nat (length (players g)) in
  let sb := (dealer_pos g + 1) mod n in
  let bb := (dealer_pos g + 2) mod n in
  exists g',
    post_blinds g = Ok g' /\
    sb <> bb /\
    (forall k p, players g !! k = Some p ->
       players g' !! k
       = Some (if bool_decide (Z.of_nat k = sb) then post (small_blind g) p
               else if bool_decide (Z.of_nat k = bb) then post (big_blind g) p
               else p)) /\
    g' = set_current_player_index ((dealer_pos g + 3) mod n)
           (set_last_raise (big_blind g)
              (set_current_bet (big_blind g) (set_players (players g') g))) /\
    sum_chips (players g') + sum_bets (players g') = sum_chips (players g).
Proof.
  intros Hlen Hfresh n sb bb.
  assert (Hall : Forall (fun p => can_act p = true) (players g)).
  { eapply Forall_impl; [exact Hfresh|]. intros p [H _]. exact H. }
  destruct (post_blinds_all_active g Hlen Hall) as (p_sb & p_bb & Hpsb & Hpbb & Hne & Hpost).
  fold n in Hpsb, Hpbb, Hne, Hpost. fold sb in Hpsb, Hne, Hpost. fold bb in Hpbb, Hne, Hpost.
  assert (Hsr : 0 <= sb < n) by (apply Z.mod_pos_bound; unfold n; lia).
  assert (Hbr : 0 <= bb < n) by (apply Z.mod_pos_bound; unfold n; lia).
  eexists. split; [exact Hpost|]. cbn [players set_players set_current_player_index
                                        set_last_raise set_current_bet].
  split; [lia|]. split; [|split; [reflexivity|]].
  - intros k p Hk.
    destruct (bool_decide_reflect (Z.of_nat k = sb)) as [Es | Es].
    + assert (k = Z.to_nat sb) as -> by lia.
      rewrite list_lookup_insert_ne by lia.
      rewrite list_lookup_insert_eq by (apply lookup_lt_Some in Hpsb; exact Hpsb).
      congruence.
    + destruct (bool_decide_reflect (Z.of_nat k = bb)) as [Eb | Eb].
      * assert (k = Z.to_nat bb) as -> by lia.
        rewrite list_lookup_insert_eq
          by (rewrite length_insert; apply lookup_lt_Some in Hpbb; exact Hpbb).
        congruence.
      * rewrite !list_lookup_insert_ne by lia. exact Hk.
  - assert (H1bb : <[Z.to_nat sb := post (small_blind g) p_sb]> (players g) !! Z.to_nat bb
                   = Some p_bb).
    { rewrite list_lookup_insert_ne by lia. exact Hpbb. }
    rewrite (sum_chips_insert _ _ _ _ H1bb), (sum_bets_insert _ _ _ _ H1bb).
    rewrite (sum_chips_insert _ _ _ _ Hpsb), (sum_bets_insert _ _ _ _ Hpsb).
    rewrite Forall_lookup in Hfresh.
    destruct (Hfresh _ _ Hpsb) as [_ Hb1]. destruct (Hfresh _ _ Hpbb) as [_ Hb2].
    assert (Hzero : sum_bets (players g) = 0).
    { apply sum_bets_zero, Forall_lookup. intros k p Hk. apply (Hfresh _ _ Hk). }
    unfold post, set_bet, set_chips; cbn [chips bet]. lia.
Qed.

(** ** A whole hand *)

Lemma names_kept (ps qs : list Player) :
  Forall2 seat_kept ps qs -> name <$> qs = name <$> ps.
Proof.
  induction 1 as [|p q ps qs (Hn & _) _ IH]; csimpl; [reflexivity|].
  rewrite Hn, IH. reflexivity.
Qed.

Lemma names_alter (f : Player -> Player) (k : nat) (ps : list Player) :
  (forall p, name (f p) = name p) -> name <$> alter f k ps = name <$> ps.
Proof.
  intros Hf.
  rewrite (list_fmap_alter name f id) by (apply Forall_true; intros p; apply Hf).
  apply list_alter_id. reflexivity.
Qed.

Lemma count_in_hand_alter (f : Player -> Player) (k : nat) (ps : list Player) :
  (forall p, in_hand (f p) = in_hand p) ->
  count_where in_hand (alter f k ps) = count_where in_hand ps.
Proof.
  intros Hf. unfold count_where. revert k.
  induction ps as [|x ps IH]; intros [|k]; try reflexivity.
  - change (alter f 0%nat (x :: ps)) with (f x :: ps).
    rewrite !filter_cons, Hf. destruct (decide _); reflexivity.
  - change (alter f (S k) (x :: ps)) with (x :: alter f k ps).
    rewrite !filter_cons. destruct (decide _); cbn [length]; rewrite IH; reflexivity.
Qed.

Lemma count_where_le (f : Player -> bool) (ps : list Player) :
  (count_where f ps <= length ps)%nat.
Proof. unfold count_where. apply length_filter. Qed.

(** The pot goes to the one player left in the hand. *)
Lemma award_pot_to_the_last (g : Game) :
  count_where in_hand (players g) = 1%nat ->
  pot (award_pot g) = 0 /\
  sum_chips (players (award_pot g)) = sum_chips (players g) + pot g /\
  name <$> players (award_pot g) = name <$> players g /\
  stage (award_pot g) = stage g /\
  dealer_pos (award_pot g) = dealer_pos g.
Proof.
  intros Hone. unfold award_pot.
  pose proof (seats_from_length in_hand (players g) 0) as Hlen.
  fold (seats_where in_hand (players g)) in Hlen. rewrite Hone in Hlen.
  destruct (seats_where in_hand (players g)) as [|w [|w' ws]] eqn:E;
    simpl in Hlen; try discriminate.
  destruct (seats_from_singleton in_hand (players g) 0 w E) as (p & Hp & _).
  rewrite Nat.sub_0_r in Hp.
  unfold update_player; simpl. split; [reflexivity|]. split.
  - rewrite (alter_insert _ _ _ _ Hp), (sum_chips_insert _ _ _ _ Hp). simpl. lia.
  - split; [|split; reflexivity]. apply names_alter. reflexivity.
Qed.

(** *** The showdown, when it returns *)

Lemma showdown_step_Ok (g0 g g' : Game) (done winners winners' : list nat)
      (best_rank best_rank' : Z) (k : nat) :
  showdown_step (g, winners, best_rank) k = Ok (g', winners', best_rank') ->
  same_stakes g0 g -> winners `sublist_of` done ->
  same_stakes g0 g' /\ winners' `sublist_of` done ++ [k] /\
  stage g' = stage g /\ dealer_pos g' = dealer_pos g.
Proof.
  intros H Hsame Hsub. unfold showdown_step in H.
  destruct (py_get (players g) (Z.of_nat k)) as [p|]; [|discriminate].
  cbn [mbind result_bind] in H.
  destruct (evaluate_hand (hand p ++ community_cards g)) as [[[rank_val cards] nm]|];
    [|discriminate].
  cbn [mbind result_bind] in H.
  set (g1 := update_player k (set_hand_result (rank_val, cards, nm)) g) in H.
  assert (Hsame1 : same_stakes g0 g1) by (apply same_stakes_update; exact Hsame).
  assert (Hone : [k] `sublist_of` done ++ [k])
    by (apply sublist_inserts_l; reflexivity).
  assert (Hkeep : winners `sublist_of` done ++ [k])
    by (apply sublist_inserts_r; exact Hsub).
  assert (Hmore : winners ++ [k] `sublist_of` done ++ [k])
    by (apply sublist_app; [exact Hsub | reflexivity]).
  repeat match type of H with
         | (if ?c then _ else _) = _ => destruct c
         | (?m ≫= _) = _ =>
             destruct m; [cbn [mbind result_bind] in H | discriminate]
         | match ?x with _ => _ end = _ => destruct x
         end;
    try discriminate; injection H as <- <- <-; auto.
Qed.

Lemma showdown_loop_Ok (g0 : Game) (rest : list nat) :
  forall g g' done winners winners' best_rank best_rank',
    for_each showdown_step (g, winners, best_rank) rest
    = Ok (g', winners', best_rank') ->
    same_stakes g0 g -> winners `sublist_of` done ->
    same_stakes g0 g' /\ winners' `sublist_of` done ++ rest /\
    stage g' = stage g /\ dealer_pos g' = dealer_pos g.
Proof.
  induction rest as [|k rest IH];
    intros g g' done winners winners' best_rank best_rank' H Hsame Hsub.
  - injection H as <- <- <-. rewrite app_nil_r. auto.
  - cbn [for_each] in H.
    destruct (showdown_step (g, winners, best_rank) k) as [[[g1 w1] b1]|] eqn:Hstep;
      [|discriminate].
    cbn [mbind result_bind] in H.
    destruct (showdown_step_Ok g0 g g1 done winners w1 best_rank b1 k
                Hstep Hsame Hsub) as (Hsame1 & Hsub1 & Hst1 & Hd1).
    destruct (IH g1 g' (done ++ [k]) w1 winners' b1 best_rank' H Hsame1 Hsub1)
      as (Hsame' & Hsub' & Hst' & Hd').
    rewrite <- app_assoc in Hsub'.
    split; [exact Hsame'|]. split; [exact Hsub'|]. split; congruence.
Qed.

Lemma pay_winners_table (winnings : Z) (winners : list nat) : forall g,
  name <$> players (pay_winners winnings winners g) = name <$> players g /\
  stage (pay_winners winnings winners g) = stage g /\
  dealer_pos (pay_winners winnings winners g) = dealer_pos g.
Proof.
  induction winners as [|w ws IH]; intros g; [auto|].
  unfold pay_winners in *. cbn [fold_left].
  destruct (IH (update_player w (win winnings) g)) as (-> & -> & ->).
  unfold update_player; simpl. split; [|auto].
  apply names_alter. reflexivity.
Qed.

Lemma names_forget (ps : list Player) :
  name <$> (forget_result <$> ps) = name <$> ps.
Proof. induction ps as [|p ps IH]; csimpl; [|rewrite IH]; reflexivity. Qed.

(** A showdown between two contenders or more that has returned: the pot
    is gone, and all of it but the remainder of the split is in the
    stacks. *)
Lemma showdown_Ok (g g' : Game) :
  showdown g = Ok g' ->
  (2 <= count_where in_hand (players g))%nat ->
  pot g' = 0 /\
  (exists m : nat,
     (1 <= m <= length (players g))%nat /\
     sum_chips (players g')
     = sum_chips (players g) + pot g - pot g mod Z.of_nat m) /\
  name <$> players g' = name <$> players g /\
  stage g' = stage g /\ dealer_pos g' = dealer_pos g.
Proof.
  intros H Hcount. unfold showdown in H.
  destruct (emit_game_state g true) as [[]|]; [|discriminate].
  cbn [mbind result_bind] in H.
  pose proof (seats_from_length in_hand (players g) 0) as Hl.
  fold (seats_where in_hand (players g)) in Hl. rewrite Hl in H.
  destruct (Nat.ltb_spec (count_where in_hand (players g)) 2); [lia|].
  unfold showdown_winners in H.
  destruct (for_each showdown_step (g, [], -1) (seats_where in_hand (players g)))
    as [[[g1 winners] best]|] eqn:Hloop; [|discriminate].
  cbn [mbind result_bind] in H.
  destruct (showdown_loop_Ok g _ g g1 [] [] winners (-1) best Hloop
              (same_stakes_refl g) ltac:(reflexivity))
    as (Hsame & Hsub & Hst & Hd).
  simpl in Hsub.
  unfold py_floordiv in H.
  destruct (Z.eqb_spec (Z.of_nat (length winners)) 0) as [|Hm]; [discriminate|].
  cbn [mbind result_bind] in H. cbv zeta in H.
  destruct (emit_game_state _ false) as [[]|]; [|discriminate].
  cbn [mbind result_bind] in H. injection H as <-.
  destruct (pay_winners_table (pot g1 / Z.of_nat (length winners)) winners g1)
    as (Hn & Hs & Hdp).
  assert (Hps : forget_result <$> players g1 = forget_result <$> players g)
    by apply Hsame.
  assert (Hpot : pot g1 = pot g) by apply Hsame.
  split; [reflexivity|]. cbn [players stage dealer_pos set_pot]. split.
  - exists (length winners). split.
    + split; [lia|]. apply sublist_length in Hsub. rewrite Hl in Hsub.
      pose proof (count_where_le in_hand (players g)). lia.
    + rewrite sum_chips_pay.
      * rewrite <- (sum_chips_forget (players g1)), Hps, sum_chips_forget, Hpot.
        pose proof (Z.div_mod (pot g) (Z.of_nat (length winners)) Hm). lia.
      * intros w Hw.
        destruct (seats_where_spec in_hand (players g) w) as (p & Hp & _).
        { apply (elem_of_sublist _ _ _ Hw Hsub). }
        destruct (same_stakes_lookup g g1 w p Hsame Hp) as (p1 & Hp1 & _). eauto.
  - split; [|split; congruence].
    rewrite Hn, <- (names_forget (players g1)), Hps. apply names_forget.
Qed.

(** *** The start of the hand *)

Lemma reset_for_hand_table (ps : list Player) :
  name <$> (reset_for_hand <$> ps) = name <$> ps /\
  sum_chips (reset_for_hand <$> ps) = sum_chips ps /\
  sum_bets (reset_for_hand <$> ps) = 0 /\
  count_where in_hand (reset_for_hand <$> ps) = length ps /\
  Forall (fun p => can_act p = true) (reset_for_hand <$> ps).
Proof.
  unfold count_where.
  induction ps as [|p ps (IH1 & IH2 & IH3 & IH4 & IH5)]; csimpl.
  - repeat split. constructor.
  - rewrite IH1, IH2, IH3, IH4.
    repeat split; try lia. constructor; [reflexivity | exact IH5].
Qed.

Lemma give_table (top : list Card) (ps : list Player) : forall j,
  name <$> give top j ps = name <$> ps /\
  sum_chips (give top j ps) = sum_chips ps /\
  sum_bets (give top j ps) = sum_bets ps.
Proof.
  induction ps as [|p ps IH]; intros j; [repeat split|].
  simpl. destruct (in_hand p).
  - destruct (IH (S j)) as (IH1 & IH2 & IH3). csimpl. rewrite IH1, IH2, IH3. auto.
  - destruct (IH j) as (IH1 & IH2 & IH3). csimpl. rewrite IH1, IH2, IH3. auto.
Qed.

(** [play_hand] up to the first betting round, at a table of two funded
    players or more: everyone is dealt in, the blinds are out of the
    stacks and the pot is empty. *)
Lemma start_hand_spec (new_deck : list Card) (g : Game) :
  (2 <= length (players g))%nat ->
  exists g1,
    start_hand new_deck g = Ok g1 /\
    name <$> players g1 = name <$> players g /\
    sum_chips (players g1) + sum_bets (players g1) = sum_chips (players g) /\
    pot g1 = 0 /\
    count_where in_hand (players g1) = length (players g) /\
    dealer_pos g1
    = (dealer_pos g + 1) mod Z.of_nat (length (players g)).
Proof.
  intros Hlen. unfold start_hand. cbv zeta.
  cbn [players set_players set_current_bet set_pot set_community_cards set_deck
       dealer_pos].
  rewrite length_fmap.
  assert (Hps : players g <> [])
    by (destruct (players g); [simpl in Hlen; lia | discriminate]).
  rewrite py_mod_seat by exact Hps. cbn [mbind result_bind].
  destruct (reset_for_hand_table (players g)) as (R1 & R2 & R3 & R4 & R5).
  match goal with
  | |- context [post_blinds ?g0] =>
      set (t := g0);
      destruct (post_blinds_all_active t) as (p_sb & p_bb & Hpsb & Hpbb & Hne & Hpost)
  end.
  { unfold t; simpl. rewrite length_fmap. exact Hlen. }
  { exact R5. }
  rewrite Hpost. cbn [mbind result_bind]. eexists. split; [reflexivity|].
  rewrite deal_hole_cards_eq.
  cbn [players set_players set_deck set_current_player_index set_last_raise
       set_current_bet pot dealer_pos].
  match goal with
  | |- context [give ?top2 0 (give ?top1 0 ?ps)] =>
      destruct (give_table top2 (give top1 0 ps) 0) as (-> & -> & ->);
      destruct (give_table top1 ps 0) as (-> & -> & ->);
      rewrite !give_count
  end.
  change (players t) with (reset_for_hand <$> players g) in *.
  set (ps0 := reset_for_hand <$> players g) in *.
  set (sbk := Z.to_nat ((dealer_pos t + 1) mod Z.of_nat (length ps0))) in *.
  set (bbk := Z.to_nat ((dealer_pos t + 2) mod Z.of_nat (length ps0))) in *.
  assert (H1bb : <[sbk := post (small_blind t) p_sb]> ps0 !! bbk = Some p_bb).
  { rewrite list_lookup_insert_ne by exact Hne. exact Hpbb. }
  assert (Hin_sb : in_hand (post (small_blind t) p_sb) = in_hand p_sb) by reflexivity.
  split; [|split; [|split; [|split]]].
  - rewrite !list_fmap_insert. change (name (post (big_blind t) p_bb)) with (name p_bb).
    change (name (post (small_blind t) p_sb)) with (name p_sb).
    rewrite (list_insert_id (name <$> ps0) sbk)
      by (rewrite list_lookup_fmap, Hpsb; reflexivity).
    rewrite (list_insert_id (name <$> ps0) bbk)
      by (rewrite list_lookup_fmap, Hpbb; reflexivity).
    exact R1.
  - rewrite (sum_chips_insert _ _ _ _ H1bb), (sum_bets_insert _ _ _ _ H1bb).
    rewrite (sum_chips_insert _ _ _ _ Hpsb), (sum_bets_insert _ _ _ _ Hpsb).
    assert (Hb1 : bet p_sb = 0).
    { unfold ps0 in Hpsb. rewrite list_lookup_fmap in Hpsb.
      destruct (players g !! sbk); simpl in Hpsb; [|discriminate].
      injection Hpsb as <-. reflexivity. }
    assert (Hb2 : bet p_bb = 0).
    { unfold ps0 in Hpbb. rewrite list_lookup_fmap in Hpbb.
      destruct (players g !! bbk); simpl in Hpbb; [|discriminate].
      injection Hpbb as <-. reflexivity. }
    unfold post, set_bet, set_chips; cbn [chips bet]. lia.
  - reflexivity.
  - rewrite <- (alter_insert (post (big_blind t)) _ _ _ H1bb).
    rewrite <- (alter_insert (post (small_blind t)) _ _ _ Hpsb).
    rewrite !count_in_hand_alter by reflexivity. exact R4.
  - unfold t; simpl. reflexivity.
Qed.

Section Hand.

Variable get_bot_action : Game -> Z -> Z -> string -> ActionData.
Variable wait_for_player_action : nat -> Game -> Z -> Z -> ActionData.

(** One betting round of the hand, on the total [chips] that the stacks,
    the bets and the pot hold. *)
Lemma round_of_the_hand (fuel : nat) (g g' : Game) (stage_name : string)
      (cards_to_deal : Z) (several : bool) (asked : list (Z * Z))
      (names : list string) (total d : Z) :
  betting_round get_bot_action wait_for_player_action fuel g stage_name
                cards_to_deal = Some (Ok (g', several, asked)) ->
  name <$> players g = names ->
  dealer_pos g = d ->
  sum_chips (players g) + pot g
  + (if bool_decide (stage_name = "Pre-Flop"%string)
     then sum_bets (players g) else 0) = total ->
  (1 <= count_where in_hand (players g))%nat ->
  name <$> players g' = names /\ dealer_pos g' = d /\
  sum_chips (players g') + pot g' = total /\
  (1 <= count_where in_hand (players g'))%nat /\
  (several = true <-> (2 <= count_where in_hand (players g'))%nat) /\
  stage g' = stage_name.
Proof.
  intros H Hn Hd Ht Hc.
  apply betting_round_Ok in H as (_ & Hsum & Hkept & Hone & Hsev & Hst & Hdp & _).
  split; [rewrite (names_kept _ _ Hkept); exact Hn|].
  split; [congruence|]. split; [lia|]. auto.
Qed.

(** The hand stops after a round that left one player in. *)
Lemma last_player_takes_the_pot (g : Game) (names : list string) (total d : Z)
      (several : bool) :
  name <$> players g = names -> dealer_pos g = d ->
  sum_chips (players g) + pot g = total ->
  (1 <= count_where in_hand (players g))%nat ->
  (several = true <-> (2 <= count_where in_hand (players g))%nat) ->
  several = false ->
  forall g', award_pot_to_winner g = Ok g' ->
  name <$> players g' = names /\ dealer_pos g' = d /\
  stage g' = stage g /\ pot g' = 0 /\ sum_chips (players g') = total.
Proof.
  intros Hn Hd Ht Hc Hsev -> g' Haward.
  unfold award_pot_to_winner in Haward. cbv zeta in Haward.
  destruct (emit_game_state (award_pot g) false) as [[]|]; [|discriminate].
  cbn [mbind result_bind] in Haward. injection Haward as <-.
  assert (Hone : count_where in_hand (players g) = 1%nat).
  { destruct (le_lt_dec 2 (count_where in_hand (players g))) as [H | H]; [|lia].
    apply Hsev in H. discriminate. }
  destruct (award_pot_to_the_last g Hone) as (A1 & A2 & A3 & A4 & A5).
  repeat split; congruence.
Qed.

End Hand.

(** X17. A hand that [play_hand] plays to its end at a table of two
    funded players or more keeps the funded players in their seats, moves
    the button one seat on, and creates no chips.  Unless the hand ended
    on the flop the pot is empty afterwards and the stacks hold what they
    held before, less the remainder of a split pot, which is smaller than
    the number of players.  When the betting on the flop leaves one
    player in the hand, nobody is paid: the table that [play_hand] leaves
    is the very table that the betting round of the flop returned, with
    no award made of it, so the pot stays on the table with that one
    player still in the hand, the stacks and the pot together holding
    what the stacks held before. *)
Theorem play_hand_accounts_for_the_chips
        (get_bot_action : Game -> Z -> Z -> string -> ActionData)
        (wait_for_player_action : nat -> Game -> Z -> Z -> ActionData)
        (fuel : nat) (new_deck : list Card) (g g' : Game) :
  let seated := filter (fun p => 0 < chips p) (players g) in
  (2 <= length seated)%nat ->
  play_hand get_bot_action wait_for_player_action fuel new_deck g
  = Some (Ok g') ->
  name <$> players g' = name <$> seated /\
  dealer_pos g' = (dealer_pos g + 1) mod Z.of_nat (length seated) /\
  if bool_decide (stage g' = "Flop"%string)
  then count_where in_hand (players g') = 1%nat /\
       sum_chips (players g') + pot g' = sum_chips seated /\
       exists g1 ga asked_a asked_b,
         start_hand new_deck (remove_broke g) = Ok g1 /\
         betting_round get_bot_action wait_for_player_action fuel g1
                       "Pre-Flop" 0 = Some (Ok (ga, true, asked_a)) /\
         betting_round get_bot_action wait_for_player_action fuel ga
                       "Flop" 3 = Some (Ok (g', false, asked_b)) /\
         pot g' - pot ga = sum_chips (players ga) - sum_chips (players g')
  else pot g' = 0 /\
       sum_chips seated - Z.of_nat (length seated) < sum_chips (players g')
       <= sum_chips seated.
Proof.
  intros seated Hlen H. unfold play_hand in H. cbv zeta in H.
  change (players (remove_broke g)) with seated in H.
  destruct (Nat.ltb_spec (length seated) 2) as [|_]; [lia|].
  destruct (start_hand_spec new_deck (remove_broke g) Hlen)
    as (g1 & Hstart & Hn1 & Hsum1 & Hpot1 & Hc1 & Hd1).
  change (players (remove_broke g)) with seated in Hn1, Hsum1, Hc1, Hd1.
  change (dealer_pos (remove_broke g)) with (dealer_pos g) in Hd1.
  rewrite Hstart in H. unfold play_rounds, round_then in H.
  set (names := name <$> seated) in *.
  set (total := sum_chips seated) in *.
  set (d := (dealer_pos g + 1) mod Z.of_nat (length seated)) in *.
  assert (Hstop : forall (gr : Game) (several : bool) (stage_name : string),
            name <$> players gr = names /\ dealer_pos gr = d /\
            sum_chips (players gr) + pot gr = total /\
            (1 <= count_where in_hand (players gr))%nat /\
            (several = true <-> (2 <= count_where in_hand (players gr))%nat) /\
            stage gr = stage_name ->
            several = false -> stage_name <> "Flop"%string ->
            award gr = Some (Ok g') ->
            name <$> players g' = names /\ dealer_pos g' = d /\
            pot g' = 0 /\
            total - Z.of_nat (length seated) < sum_chips (players g') <= total /\
            stage g' <> "Flop"%string).
  { intros gr several stage_name (Rn & Rd & Rt & Rc & Rs & Rst) Hfalse Hstage Haward.
    unfold award in Haward. injection Haward as Haward.
    destruct (last_player_takes_the_pot gr names total d several Rn Rd Rt Rc Rs
                Hfalse g' Haward) as (A1 & A2 & A3 & A4 & A5).
    split; [exact A1|]. split; [exact A2|]. split; [exact A4|].
    split; [lia | congruence]. }
  assert (Hend : name <$> players g' = names /\ dealer_pos g' = d /\
                 pot g' = 0 /\
                 total - Z.of_nat (length seated) < sum_chips (players g') <= total /\
                 stage g' <> "Flop"%string ->
                 name <$> players g' = names /\ dealer_pos g' = d /\
                 if bool_decide (stage g' = "Flop"%string)
                 then count_where in_hand (players g') = 1%nat /\
                      sum_chips (players g') + pot g' = total /\
                      exists g1 ga asked_a asked_b,
                        start_hand new_deck (remove_broke g) = Ok g1 /\
                        betting_round get_bot_action wait_for_player_action fuel g1
                                      "Pre-Flop" 0 = Some (Ok (ga, true, asked_a)) /\
                        betting_round get_bot_action wait_for_player_action fuel ga
                                      "Flop" 3 = Some (Ok (g', false, asked_b)) /\
                        pot g' - pot ga
                        = sum_chips (players ga) - sum_chips (players g')
                 else pot g' = 0 /\
                      total - Z.of_nat (length seated) < sum_chips (players g')
                      <= total).
  { intros (E1 & E2 & E3 & E4 & E5). split; [exact E1|]. split; [exact E2|].
    rewrite bool_decide_eq_false_2 by exact E5. auto. }
  destruct (betting_round _ _ fuel g1 "Pre-Flop" 0)
    as [[[[ga sa] asked_a]|]|] eqn:Ra; try discriminate.
  pose proof Ra as Ra0.
  apply (round_of_the_hand _ _ _ _ _ _ _ _ _ names total d) in Ra;
    [|exact Hn1|exact Hd1|simpl bool_decide; cbv iota; lia|lia].
  destruct sa;
    [|apply Hend, (Hstop ga false "Pre-Flop"%string); auto; discriminate].
  destruct (betting_round _ _ fuel ga "Flop" 3)
    as [[[[gb sb] asked_b]|]|] eqn:Rb; try discriminate.
  pose proof Rb as Rb0.
  apply (round_of_the_hand _ _ _ _ _ _ _ _ _ names total d) in Rb;
    [|apply Ra|apply Ra|simpl bool_decide; cbv iota; destruct Ra as (_ & _ & ? & _); lia
     |apply Ra].
  destruct sb.
  2:{ injection H as ->. destruct Rb as (Rn & Rd & Rt & Rc & Rs & Rst).
      split; [exact Rn|]. split; [exact Rd|].
      rewrite bool_decide_eq_true_2 by exact Rst. split; [|split; [exact Rt|]].
      - destruct (le_lt_dec 2 (count_where in_hand (players g'))) as [Hge | Hlt]; [|lia].
        apply Rs in Hge. discriminate.
      - exists g1, ga, asked_a, asked_b.
        split; [exact Hstart|]. split; [exact Ra0|]. split; [exact Rb0|].
        destruct Ra as (_ & _ & Rta & _). lia. }
  destruct (betting_round _ _ fuel gb "Turn" 1)
    as [[[[gc sc] asked_c]|]|] eqn:Rc; try discriminate.
  apply (round_of_the_hand _ _ _ _ _ _ _ _ _ names total d) in Rc;
    [|apply Rb|apply Rb|simpl bool_decide; cbv iota; destruct Rb as (_ & _ & ? & _); lia
     |apply Rb].
  destruct sc; [|apply Hend, (Hstop gc false "Turn"%string); auto; discriminate].
  destruct (betting_round _ _ fuel gc "River" 1)
    as [[[[ge se] asked_e]|]|] eqn:Re; try discriminate.
  apply (round_of_the_hand _ _ _ _ _ _ _ _ _ names total d) in Re;
    [|apply Rc|apply Rc|simpl bool_decide; cbv iota; destruct Rc as (_ & _ & ? & _); lia
     |apply Rc].
  destruct se; [|apply Hend, (Hstop ge false "River"%string); auto; discriminate].
  destruct Re as (Rn & Rd & Rt & _ & Rs & Rst).
  destruct (showdown ge) as [gs|] eqn:Hshow; [|discriminate].
  injection H as <-.
  assert (Htwo : (2 <= count_where in_hand (players ge))%nat) by (apply Rs; reflexivity).
  destruct (showdown_Ok ge gs Hshow Htwo) as (Spot & (m & Hm & Ssum) & Sn & Sst & Sd).
  apply Hend.
  split; [congruence|]. split; [congruence|]. split; [exact Spot|].
  split; [|rewrite Sst, Rst; discriminate].
  assert (Hseats : length (players ge) = length seated).
  { rewrite <- (length_fmap name (players ge)), Rn. unfold names. apply length_fmap. }
  pose proof (Z.mod_pos_bound (pot ge) (Z.of_nat m) ltac:(lia)). lia.
Qed.

(** ** The round that does not end *)

Lemma count_where_seat (f : Player -> bool) (ps : list Player) :
  (1 <= count_where f ps)%nat -> exists k p, ps !! k = Some p /\ f p = true.
Proof.
  unfold count_where. intros H.
  destruct (filter (fun p => f p = true) ps) as [|p l] eqn:E; [simpl in H; lia|].
  assert (Hin : p ∈ filter (fun p => f p = true) ps) by (rewrite E; left).
  apply list_elem_of_filter in Hin as [Hf Hin].
  apply list_elem_of_lookup in Hin as [k Hk]. eauto.
Qed.

(** While a seat can act, the turn passes to a seat that can. *)
Lemma get_next_active_player_acting (g : Game) (s : Z) :
  (1 <= count_where can_act (players g))%nat ->
  exists r p,
    get_next_active_player g s = Ok r /\
    0 <= r < Z.of_nat (length (players g)) /\
    players g !! Z.to_nat r = Some p /\ can_act p = true.
Proof.
  intros Hcount.
  destruct (count_where_seat _ _ Hcount) as (k & q & Hk & Hq).
  assert (Hps : players g <> []) by (intros E; rewrite E in Hk; discriminate).
  destruct (next_active_seat_seated g s Hps) as (r & tested & Hr & _).
  destruct (get_next_active_player_cases g s r Hr) as [(Hrange & p & Hp & Hact) | [Hnone _]].
  - exists r, p. auto.
  - destruct (cannot_act_not_can _ _ _ Hnone Hk Hq).
Qed.

(** At a table with a seat the turn passes without error, to a seat of the
    table when it started from one. *)
Lemma get_next_active_player_in_range (g : Game) (s : Z) :
  players g <> [] ->
  exists r, get_next_active_player g s = Ok r /\
            (0 <= s < Z.of_nat (length (players g)) ->
             0 <= r < Z.of_nat (length (players g))) /\
            ((1 <= count_where can_act (players g))%nat ->
             0 <= r < Z.of_nat (length (players g))) /\
            (count_where can_act (players g) = 0%nat -> r = s).
Proof.
  intros Hps.
  destruct (next_active_seat_seated g s Hps) as (r & tested & Hr & _).
  exists r. split; [exact Hr|].
  destruct (get_next_active_player_cases g s r Hr) as [(Hrange & p & Hp & Hact) | [Hnone ->]].
  - split; [auto|]. split; [auto|]. intros Hzero.
    assert (Hin : p ∈ filter (fun p => can_act p = true) (players g)).
    { apply list_elem_of_filter. split; [exact Hact|].
      apply list_elem_of_lookup. eauto. }
    unfold count_where in Hzero. apply nil_length_inv in Hzero.
    rewrite Hzero in Hin. inversion Hin.
  - split; [auto|]. split; [|auto]. intros Hone.
    destruct (count_where_seat _ _ Hone) as (k & q & Hk & Hq).
    destruct (cannot_act_not_can _ _ _ Hnone Hk Hq).
Qed.

(** A check at a seat of a table where every card is a dealt one: it
    changes nothing but for a player without chips, whom it marks all-in. *)
Lemma check_at_seat (g : Game) (i : Z) (k : nat) (p : Player) :
  py_index (players g) i = Some k -> players g !! k = Some p ->
  all_dealt g ->
  handle_player_action g i check
  = Ok (if chips p =? 0 then update_player k go_all_in g else g, false).
Proof.
  intros Hi Hk Hdealt.
  unfold handle_player_action. rewrite Hi, (py_get_lookup _ _ _ _ Hi Hk).
  cbn [mbind result_bind].
  change (amount_of check) with (@Ok Z 0). cbn [mbind result_bind].
  simpl bool_decide. cbv beta iota zeta.
  rewrite (py_get_lookup _ _ _ _ Hi Hk). cbn [mbind result_bind].
  destruct (chips p =? 0);
    rewrite (emit_after_action g _ Hdealt) by cards_kept; reflexivity.
Qed.

Lemma count_can_act_le_in_hand (ps : list Player) (k : nat) :
  count_where in_hand (alter go_all_in k ps) = count_where in_hand ps.
Proof. apply count_in_hand_alter. reflexivity. Qed.

Section NoEnd.

Variable get_bot_action : Game -> Z -> Z -> string -> ActionData.
Variable wait_for_player_action : nat -> Game -> Z -> Z -> ActionData.

Variable starter : Z.
Variable out : Player.

Hypothesis starter_seat : 0 <= starter.
Hypothesis starter_idle : can_act out = false.
Hypothesis bots_check : forall g i to_call stage_name,
  i <> starter -> get_bot_action g i to_call stage_name = check.
Hypothesis you_check : forall asked g i to_call,
  i <> starter -> wait_for_player_action asked g i to_call = check.

(** The turn passes to a seat other than the opening one. *)
Lemma turn_passes_by_the_starter (g : Game) :
  still_asking starter out g ->
  exists r, get_next_active_player g (current_player_index g) = Ok r /\
            0 <= r < Z.of_nat (length (players g)) /\ r <> starter.
Proof.
  intros (_ & _ & Hturn & Hout & Haway).
  assert (Hps : players g <> []).
  { intros E. rewrite E in Hout. discriminate. }
  destruct (Nat.eq_dec (count_where can_act (players g)) 0%nat) as [Hzero | Hsome].
  - destruct (get_next_active_player_in_range g (current_player_index g) Hps)
      as (r & Hr & Hrange & _ & Hsame).
    exists r. split; [exact Hr|]. split; [auto|].
    rewrite (Hsame Hzero). destruct Haway as [H | H]; [exact H | lia].
  - destruct (get_next_active_player_acting g (current_player_index g) ltac:(lia))
      as (r & q & Hr & Hrange & Hq & Hact).
    exists r. split; [exact Hr|]. split; [exact Hrange|].
    intros ->. rewrite Hout in Hq. injection Hq as <-. congruence.
Qed.

Lemma still_asking_turn (g : Game) (r : Z) :
  still_asking starter out g -> 0 <= r < Z.of_nat (length (players g)) -> r <> starter ->
  still_asking starter out (set_current_player_index r g).
Proof.
  intros (H1 & H2 & _ & H4 & _) Hr Hne.
  split; [exact H1|]. split; [exact H2|]. split; [exact Hr|].
  split; [exact H4|]. left. exact Hne.
Qed.

Lemma betting_loop_goes_on (fuel : nat) : forall (g : Game) (asked : list (Z * Z)),
  still_asking starter out g ->
  betting_loop get_bot_action wait_for_player_action fuel g starter asked = None.
Proof.
  induction fuel as [|fuel IH]; intros g asked Hinv; [reflexivity|].
  pose proof Hinv as (Htwo & Hdealt & Hturn & Hout & Haway).
  cbn [betting_loop]. cbv zeta.
  unfold seats_where. rewrite seats_from_length.
  destruct (Nat.leb_spec (count_where in_hand (players g)) 1) as [|_]; [lia|].
  destruct (lookup_lt_is_Some_2 (players g) (Z.to_nat (current_player_index g)))
    as [p Hp]; [lia|].
  assert (Hi : py_index (players g) (current_player_index g)
               = Some (Z.to_nat (current_player_index g)))
    by (apply py_index_seat; exact Hturn).
  rewrite (py_get_lookup _ _ _ _ Hi Hp).
  destruct (is_all_in p || negb (in_hand p)) eqn:Hidle.
  - destruct (turn_passes_by_the_starter g Hinv) as (r & Hr & Hrange & Hne).
    rewrite Hr. cbv zeta. destruct (Z.eqb_spec r starter); [contradiction|].
    apply IH, still_asking_turn; assumption.
  - assert (Hcan : can_act p = true).
    { unfold can_act. apply orb_false_iff in Hidle as [H1 H2].
      apply negb_false_iff in H2. rewrite H1, H2. reflexivity. }
    assert (Hne : current_player_index g <> starter).
    { intros E. rewrite E, Hout in Hp. injection Hp as <-. congruence. }
    rewrite (emit_all_dealt g false Hdealt).
    rewrite bots_check, you_check by exact Hne.
    assert (Hcheck := check_at_seat g (current_player_index g) _ p Hi Hp Hdealt).
    set (g1 := if chips p =? 0
               then update_player (Z.to_nat (current_player_index g)) go_all_in g
               else g) in *.
    assert (Hinv1 : still_asking starter out g1).
    { unfold g1. destruct (chips p =? 0); [|exact Hinv].
      split; [|split; [|split; [|split]]].
      - unfold update_player; simpl. rewrite count_can_act_le_in_hand. exact Htwo.
      - apply all_dealt_update; [reflexivity | exact Hdealt].
      - unfold update_player; simpl. rewrite length_alter. exact Hturn.
      - unfold update_player; simpl.
        rewrite list_lookup_alter_ne by lia. exact Hout.
      - left. exact Hne. }
    assert (Hcpi : current_player_index g1 = current_player_index g)
      by (unfold g1; destruct (chips p =? 0); reflexivity).
    destruct (turn_passes_by_the_starter g1 Hinv1) as (r & Hr & Hrange & Hner).
    destruct (is_bot p); rewrite Hcheck; cbv beta iota zeta;
      rewrite Hr; destruct (Z.eqb_spec r starter); try contradiction;
      apply IH, still_asking_turn; assumption.
Qed.

End NoEnd.

(** X18. Once the seat that opened the action can no longer act (its
    player has folded or is all-in), the loop of [betting_round] never
    ends while two players are in the hand, one of them able to act, and
    every player asked checks, at a table where every card is a dealt
    one, so that the state can be sent: the turn never comes back to the
    opening seat, so whatever the number of passes allowed, the loop is
    still running.  A player without chips who checks is marked all-in,
    and the loop goes on also when nobody can act any more. *)
Theorem betting_loop_never_ends_once_the_starter_is_out
        (get_bot_action : Game -> Z -> Z -> string -> ActionData)
        (wait_for_player_action : nat -> Game -> Z -> Z -> ActionData)
        (g : Game) (starter : Z) (out : Player) :
  (2 <= count_where in_hand (players g))%nat ->
  (1 <= count_where can_act (players g))%nat ->
  all_dealt g ->
  0 <= current_player_index g < Z.of_nat (length (players g)) ->
  0 <= starter ->
  players g !! Z.to_nat starter = Some out ->
  can_act out = false ->
  (forall g' i to_call stage_name,
     i <> starter -> get_bot_action g' i to_call stage_name = check) ->
  (forall asked g' i to_call,
     i <> starter -> wait_for_player_action asked g' i to_call = check) ->
  forall (fuel : nat) (asked : list (Z * Z)),
    betting_loop get_bot_action wait_for_player_action fuel g starter asked = None.
Proof.
  intros Htwo Hone Hdealt Hturn Hs Hout Hidle Hbots Hyou fuel asked.
  apply (betting_loop_goes_on get_bot_action wait_for_player_action starter out);
    try assumption.
  split; [exact Htwo|]. split; [exact Hdealt|]. split; [exact Hturn|].
  split; [exact Hout|]. right. exact Hone.
Qed.

(** Before the flop at the seated table, after the blinds: Bot Charlie,
    first to act, folds, everyone else checks, and the round is never
    over. *)
Example first_to_act_folds_and_the_round_goes_on (fuel : nat) :
  betting_round fold_at_3 always_check fuel blinds_table "Pre-Flop" 0 = None.
Proof.
  destruct fuel as [|fuel]; [reflexivity|].
  assert (E : betting_round fold_at_3 always_check (S fuel) blinds_table "Pre-Flop" 0
              = match betting_loop fold_at_3 always_check fuel first_folded_table 3
                        [(3, 20)] with
                | None => None
                | Some (Raise e) => Some (Raise e)
                | Some (Ok (g, asked)) =>
                    Some (Ok (collect_bets g, several_in_hand (collect_bets g), asked))
                end) by reflexivity.
  rewrite E.
  rewrite (betting_loop_goes_on fold_at_3 always_check 3 folded_seat);
    try reflexivity.
  - lia.
  - intros g i to_call stage_name Hi. unfold fold_at_3.
    destruct (Z.eqb_spec i 3); [contradiction | reflexivity].
  - split; [vm_compute; lia|].
    split; [apply (bool_decide_unpack _); vm_compute; exact I|].
    split; [vm_compute; split; [discriminate | reflexivity]|].
    split; [reflexivity|]. left. vm_compute. discriminate.
Qed.

(** ** The further statements at example hands and tables *)

Lemma compare_hands_transitive_witness :
  _compare_hands [king] [queen] = 1 /\ _compare_hands [queen] [jack] = 1 /\
  _compare_hands [king] [jack] = 1.
Proof.
  assert (H1 : _compare_hands [king] [queen] = 1) by reflexivity.
  assert (H2 : _compare_hands [queen] [jack] = 1) by reflexivity.
  split; [exact H1|]. split; [exact H2|].
  apply (compare_hands_transitive [king] [queen] [jack] H1 H2).
Defined.

Lemma compare_hands_ties_on_values_witness :
  length [king; jack] = length [mkCard Clubs RK; mkCard Clubs RJ] /\
  (_compare_hands [king; jack] [mkCard Clubs RK; mkCard Clubs RJ] = 0 <->
   value <$> [king; jack] = value <$> [mkCard Clubs RK; mkCard Clubs RJ]).
Proof.
  split; [reflexivity|].
  apply (compare_hands_ties_on_values [king; jack] [mkCard Clubs RK; mkCard Clubs RJ]).
  reflexivity.
Defined.

Lemma calculate_hand_rank_keeps_the_cards_witness :
  dealt wheel /\ length wheel = 5%nat /\
  exists rank_val cards,
    _calculate_hand_rank wheel = Ok (rank_val, cards) /\
    1 <= rank_val <= 10 /\
    Some <$> cards ≡ₚ wheel /\
    length cards = 5%nat.
Proof.
  assert (H1 : dealt wheel) by (apply (bool_decide_unpack _); vm_compute; exact I).
  split; [exact H1|]. split; [reflexivity|].
  apply (calculate_hand_rank_keeps_the_cards wheel H1). reflexivity.
Defined.

Lemma evaluate_hand_raises_on_undealt_card_witness :
  None ∈ undealt_hand /\ (5 <= length undealt_hand)%nat /\
  _calculate_hand_rank undealt_hand = Raise AttributeError /\
  evaluate_hand undealt_hand = Raise AttributeError.
Proof.
  assert (H1 : None ∈ undealt_hand) by (unfold undealt_hand; left).
  assert (H2 : (5 <= length undealt_hand)%nat) by (vm_compute; lia).
  split; [exact H1|]. split; [exact H2|].
  apply (evaluate_hand_raises_on_undealt_card undealt_hand H1 H2).
Defined.

Lemma evaluate_hand_on_few_cards_witness :
  (length [card RA Spades; card RK Spades] < 5)%nat /\
  evaluate_hand [card RA Spades; card RK Spades] = Ok (-1, [], "Unknown"%string).
Proof.
  assert (H : (length [card RA Spades; card RK Spades] < 5)%nat) by (simpl; lia).
  split; [exact H|].
  apply (evaluate_hand_on_few_cards [card RA Spades; card RK Spades] H).
Defined.

Lemma evaluate_hand_finds_the_best_witness :
  dealt seven_cards /\ (5 <= length seven_cards)%nat /\
  exists rank_val cards,
    evaluate_hand seven_cards
    = Ok (rank_val, cards, dict_get HAND_NAMES rank_val "Unknown"%string) /\
    1 <= rank_val <= 10 /\
    Some <$> cards ⊆+ seven_cards /\ length cards = 5%nat /\
    best_of (combinations 5 seven_cards) (rank_val, cards).
Proof.
  assert (H1 : dealt seven_cards) by (apply (bool_decide_unpack _); vm_compute; exact I).
  assert (H2 : (5 <= length seven_cards)%nat) by (vm_compute; lia).
  split; [exact H1|]. split; [exact H2|].
  apply (evaluate_hand_finds_the_best seven_cards H1 H2).
Defined.


Lemma handle_player_action_raise_bookkeeping_witness :
  py_get (players blinds_table) 1 = Ok small_blind_seat /\
  amount_of raise_to_5000 = Ok 5000 /\
  all_dealt blinds_table /\
  exists g' is_raise q,
    handle_player_action blinds_table 1 raise_to_5000 = Ok (g', is_raise) /\
    py_get (players g') 1 = Ok q /\
    current_bet blinds_table <= current_bet g' /\
    (is_raise = true <-> current_bet blinds_table < current_bet g') /\
    (is_raise = true ->
     current_bet g' = bet q /\
     last_raise g' = current_bet g' - current_bet blinds_table /\
     0 < last_raise g') /\
    (is_raise = false ->
     current_bet g' = current_bet blinds_table /\
     last_raise g' = last_raise blinds_table).
Proof.
  assert (H1 : py_get (players blinds_table) 1 = Ok small_blind_seat)
    by reflexivity.
  assert (H2 : amount_of raise_to_5000 = Ok 5000) by reflexivity.
  assert (H3 : all_dealt blinds_table)
    by (apply (bool_decide_unpack _); vm_compute; exact I).
  split; [exact H1|]. split; [exact H2|]. split; [exact H3|].
  apply (handle_player_action_raise_bookkeeping blinds_table 1 raise_to_5000
           small_blind_seat 5000 H1 H2 H3).
Defined.

Lemma handle_player_action_keeps_fold_and_all_in_witness :
  py_get (players first_folded_table) 3 = Ok folded_seat /\
  amount_of call = Ok 0 /\
  all_dealt first_folded_table /\
  exists g' is_raise q,
    handle_player_action first_folded_table 3 call = Ok (g', is_raise) /\
    py_get (players g') 3 = Ok q /\
    name q = name folded_seat /\ is_bot q = is_bot folded_seat /\
    hand q = hand folded_seat /\
    (in_hand folded_seat = false -> in_hand q = false) /\
    (is_all_in folded_seat = true -> is_all_in q = true) /\
    (chips q = 0 -> is_all_in q = true /\ status q = "ALL-IN"%string).
Proof.
  assert (H1 : py_get (players first_folded_table) 3 = Ok folded_seat)
    by reflexivity.
  assert (H2 : amount_of call = Ok 0) by reflexivity.
  assert (H3 : all_dealt first_folded_table)
    by (apply (bool_decide_unpack _); vm_compute; exact I).
  split; [exact H1|]. split; [exact H2|]. split; [exact H3|].
  apply (handle_player_action_keeps_fold_and_all_in first_folded_table 3 call
           folded_seat 0 H1 H2 H3).
Defined.

Lemma call_matches_or_goes_all_in_witness :
  a_action call = Some "call"%string /\
  py_get (players blinds_table) 1 = Ok small_blind_seat /\
  amount_of call = Ok 0 /\
  all_dealt blinds_table /\
  0 <= chips small_blind_seat /\
  bet small_blind_seat <= current_bet blinds_table /\
  exists g' q,
    handle_player_action blinds_table 1 call = Ok (g', false) /\
    py_get (players g') 1 = Ok q /\
    bet q - bet small_blind_seat
    = Z.min (current_bet blinds_table - bet small_blind_seat) (chips small_blind_seat) /\
    chips q = chips small_blind_seat - (bet q - bet small_blind_seat) /\
    0 <= chips q /\ bet small_blind_seat <= bet q <= current_bet blinds_table /\
    current_bet g' = current_bet blinds_table /\
    (bet q < current_bet blinds_table -> chips q = 0 /\ is_all_in q = true).
Proof.
  assert (H1 : a_action call = Some "call"%string) by reflexivity.
  assert (H2 : py_get (players blinds_table) 1 = Ok small_blind_seat) by reflexivity.
  assert (H3 : 0 <= chips small_blind_seat) by (vm_compute; discriminate).
  assert (H4 : bet small_blind_seat <= current_bet blinds_table)
    by (vm_compute; discriminate).
  assert (H5 : amount_of call = Ok 0) by reflexivity.
  assert (H6 : all_dealt blinds_table)
    by (apply (bool_decide_unpack _); vm_compute; exact I).
  split; [exact H1|]. split; [exact H2|]. split; [exact H5|]. split; [exact H6|].
  split; [exact H3|]. split; [exact H4|].
  apply (call_matches_or_goes_all_in blinds_table 1 call small_blind_seat 0
           H1 H2 H5 H6 H3 H4).
Defined.

Lemma begin_round_burns_and_reveals_witness :
  ("Flop"%string = "Pre-Flop"%string \/ players full_deck_table <> []) /\
  0 < 3 /\
  exists g0,
    begin_round full_deck_table "Flop" 3 = Ok g0 /\
    community_cards g0
    = community_cards full_deck_table
      ++ ((fun i => reverse (deck full_deck_table) !! S i) <$> seq 0 (Z.to_nat 3)) /\
    deck g0 = reverse (drop (S (Z.to_nat 3)) (reverse (deck full_deck_table))) /\
    (3 < Z.of_nat (length (deck full_deck_table)) ->
     dealt (drop (length (community_cards full_deck_table)) (community_cards g0)) /\
     Z.of_nat (length (deck g0)) = Z.of_nat (length (deck full_deck_table)) - 3 - 1).
Proof.
  assert (H1 : "Flop"%string = "Pre-Flop"%string \/ players full_deck_table <> [])
    by (right; vm_compute; discriminate).
  assert (H2 : 0 < 3) by lia.
  split; [exact H1|]. split; [exact H2|].
  apply (begin_round_burns_and_reveals full_deck_table "Flop" 3 H1 H2).
Defined.

Lemma deal_hole_cards_round_robin_witness :
  players full_deck_table !! 1%nat
  = Some (new_Player None "Bot Alice" 1000 true) /\
  players (deal_hole_cards full_deck_table) !! 1%nat
  = Some (set_hand [card RK Clubs; card R9 Clubs]
            (new_Player None "Bot Alice" 1000 true)) /\
  deck (deal_hole_cards full_deck_table)
  = reverse (drop (2 * 4) (reverse ordered_deck)) /\
  exists ps, deal_hole_cards full_deck_table
             = set_players ps (set_deck (deck (deal_hole_cards full_deck_table))
                                 full_deck_table).
Proof.
  split; [reflexivity|].
  apply (deal_hole_cards_round_robin full_deck_table 1
           (new_Player None "Bot Alice" 1000 true)).
  reflexivity.
Defined.

Lemma betting_round_settles_the_bets_witness :
  betting_round bots_call you_call 100 blinds_table "Pre-Flop" 0
  = Some (Ok (called_table, true, called_requests)) /\
  Forall (fun p => bet p = 0) (players called_table) /\
  sum_chips (players called_table) + pot called_table
  = sum_chips (players blinds_table) + pot blinds_table
    + (if bool_decide ("Pre-Flop"%string = "Pre-Flop"%string)
       then sum_bets (players blinds_table) else 0) /\
  Forall2 seat_kept (players blinds_table) (players called_table) /\
  ((1 <= count_where in_hand (players blinds_table))%nat ->
   (1 <= count_where in_hand (players called_table))%nat) /\
  (true = true <-> (2 <= count_where in_hand (players called_table))%nat) /\
  stage called_table = "Pre-Flop"%string /\
  dealer_pos called_table = dealer_pos blinds_table /\
  small_blind called_table = small_blind blinds_table /\
  big_blind called_table = big_blind blinds_table.
Proof.
  assert (H : betting_round bots_call you_call 100 blinds_table "Pre-Flop" 0
              = Some (Ok (called_table, true, called_requests)))
    by (vm_compute; reflexivity).
  split; [exact H|].
  apply (betting_round_settles_the_bets bots_call you_call 100 blinds_table
           called_table "Pre-Flop" 0 true called_requests H).
Defined.

Lemma post_blinds_at_the_start_of_a_hand_witness :
  (2 <= length (players seated_table))%nat /\
  Forall ready_for_hand (players seated_table) /\
  exists g',
    post_blinds seated_table = Ok g' /\
    0 <> 1 /\
    (forall k p, players seated_table !! k = Some p ->
       players g' !! k
       = Some (if bool_decide (Z.of_nat k = 0) then post (small_blind seated_table) p
               else if bool_decide (Z.of_nat k = 1)
                    then post (big_blind seated_table) p
                    else p)) /\
    g' = set_current_player_index 2
           (set_last_raise (big_blind seated_table)
              (set_current_bet (big_blind seated_table)
                 (set_players (players g') seated_table))) /\
    sum_chips (players g') + sum_bets (players g')
    = sum_chips (players seated_table).
Proof.
  assert (H1 : (2 <= length (players seated_table))%nat) by (vm_compute; lia).
  assert (H2 : Forall ready_for_hand (players seated_table))
    by (repeat constructor).
  split; [exact H1|]. split; [exact H2|].
  apply (post_blinds_at_the_start_of_a_hand seated_table H1 H2).
Defined.

Lemma play_hand_accounts_for_the_chips_witness :
  (2 <= length (players (remove_broke seated_table)))%nat /\
  play_hand bots_bet_flop you_bet_flop 100 ordered_deck seated_table
  = Some (Ok flop_ended_table) /\
  name <$> players flop_ended_table
  = name <$> players (remove_broke seated_table) /\
  dealer_pos flop_ended_table
  = (dealer_pos seated_table + 1)
      mod Z.of_nat (length (players (remove_broke seated_table))) /\
  if bool_decide (stage flop_ended_table = "Flop"%string)
  then count_where in_hand (players flop_ended_table) = 1%nat /\
       sum_chips (players flop_ended_table) + pot flop_ended_table
       = sum_chips (players (remove_broke seated_table)) /\
       exists g1 ga asked_a asked_b,
         start_hand ordered_deck (remove_broke seated_table) = Ok g1 /\
         betting_round bots_bet_flop you_bet_flop 100 g1 "Pre-Flop" 0
         = Some (Ok (ga, true, asked_a)) /\
         betting_round bots_bet_flop you_bet_flop 100 ga "Flop" 3
         = Some (Ok (flop_ended_table, false, asked_b)) /\
         pot flop_ended_table - pot ga
         = sum_chips (players ga) - sum_chips (players flop_ended_table)
  else pot flop_ended_table = 0 /\
       sum_chips (players (remove_broke seated_table))
       - Z.of_nat (length (players (remove_broke seated_table)))
       < sum_chips (players flop_ended_table)
       <= sum_chips (players (remove_broke seated_table)).
Proof.
  assert (H1 : (2 <= length (players (remove_broke seated_table)))%nat)
    by (vm_compute; lia).
  assert (H2 : play_hand bots_bet_flop you_bet_flop 100 ordered_deck seated_table
               = Some (Ok flop_ended_table))
    by (vm_compute; reflexivity).
  split; [exact H1|]. split; [exact H2|].
  apply (play_hand_accounts_for_the_chips bots_bet_flop you_bet_flop 100
           ordered_deck seated_table flop_ended_table H1 H2).
Defined.

(** The hand that ends on the flop: seat 1 bets 50, the others fold, and
    the pot of 130 is left on the table; nobody's stack has grown. *)
Example hand_ends_on_the_flop :
  (fun g => (chips <$> players g, in_hand <$> players g, pot g, stage g)) <$>
    (match play_hand bots_bet_flop you_bet_flop 100 ordered_deck seated_table with
     | Some (Ok g) => Some g
     | _ => None
     end)
  = Some ([980; 930; 980; 980], [false; true; false; false], 130, "Flop"%string).
Proof. vm_compute. reflexivity. Qed.

(** The hand that everyone checks or calls down to the showdown. *)
Example hand_goes_to_showdown :
  (fun g => (chips <$> players g, pot g, stage g, length (deck g))) <$>
    (match play_hand bots_call you_call 100 ordered_deck seated_table with
     | Some (Ok g) => Some g
     | _ => None
     end)
  = Some ([1060; 980; 980; 980], 0, "River"%string, 36%nat).
Proof. vm_compute. reflexivity. Qed.

Lemma betting_loop_never_ends_once_the_starter_is_out_witness :
  (2 <= count_where in_hand (players first_folded_table))%nat /\
  (1 <= count_where can_act (players first_folded_table))%nat /\
  all_dealt first_folded_table /\
  0 <= current_player_index first_folded_table
  < Z.of_nat (length (players first_folded_table)) /\
  0 <= 3 /\
  players first_folded_table !! Z.to_nat 3 = Some folded_seat /\
  can_act folded_seat = false /\
  forall (fuel : nat) (asked : list (Z * Z)),
    betting_loop fold_at_3 always_check fuel first_folded_table 3 asked = None.
Proof.
  assert (H1 : (2 <= count_where in_hand (players first_folded_table))%nat)
    by (vm_compute; lia).
  assert (H2 : (1 <= count_where can_act (players first_folded_table))%nat)
    by (vm_compute; lia).
  assert (H3 : all_dealt first_folded_table)
    by (apply (bool_decide_unpack _); vm_compute; exact I).
  assert (H4 : 0 <= current_player_index first_folded_table
               < Z.of_nat (length (players first_folded_table)))
    by (vm_compute; split; [discriminate | reflexivity]).
  assert (H5 : 0 <= 3) by lia.
  assert (H6 : players first_folded_table !! Z.to_nat 3 = Some folded_seat)
    by reflexivity.
  assert (H7 : can_act folded_seat = false) by reflexivity.
  assert (H8 : forall (g' : Game) (i to_call : Z) (stage_name : string),
             i <> 3 -> fold_at_3 g' i to_call stage_name = check).
  { intros g' i to_call stage_name Hi. unfold fold_at_3.
    destruct (Z.eqb_spec i 3); [contradiction | reflexivity]. }
  assert (H9 : forall (asked : nat) (g' : Game) (i to_call : Z),
             i <> 3 -> always_check asked g' i to_call = check)
    by reflexivity.
  split; [exact H1|]. split; [exact H2|]. split; [exact H3|]. split; [exact H4|].
  split; [exact H5|]. split; [exact H6|]. split; [exact H7|].
  apply (betting_loop_never_ends_once_the_starter_is_out fold_at_3 always_check
           first_folded_table 3 folded_seat H1 H2 H3 H4 H5 H6 H7 H8 H9).
Defined.
